(** * Checkpointed text-to-SQL workflow with conversational memory

    A shallow embedding of [backend/app/services/memory_service.py],
    [backend/app/services/sql_agent.py] and the three query routes of
    [backend/app/api/routes.py], with the properties of their natural-language
    specification stated and proved (or refuted) over the embedding.

    Python [str] values are [string]s of 8-bit characters; the case,
    whitespace and digit classes are the ASCII ones.  Python dictionaries
    whose iteration order is observable are association lists in insertion
    order; the per-user cache and the durable store are [gmap]s. *)

From Stdlib Require Import Ascii String List ZArith Lia Bool.
From Stdlib Require Strings.Byte.
From stdpp Require Import base option list gmap strings.

Local Open Scope string_scope.
Local Open Scope list_scope.

(* ===================================================================== *)
(** ** Python string primitives *)
(* ===================================================================== *)

Module Py.

Definition code (c : ascii) : nat := nat_of_ascii c.

Definition is_upper (c : ascii) : bool := (65 <=? code c)%nat && (code c <=? 90)%nat.
Definition is_lower (c : ascii) : bool := (97 <=? code c)%nat && (code c <=? 122)%nat.

(** [str.isspace] on one ASCII character: TAB..CR, FS..US and the space. *)
Definition isspace (c : ascii) : bool :=
  ((9 <=? code c)%nat && (code c <=? 13)%nat) || ((28 <=? code c)%nat && (code c <=? 32)%nat).

Definition isdigit (c : ascii) : bool := (48 <=? code c)%nat && (code c <=? 57)%nat.

Definition lower_char (c : ascii) : ascii :=
  if is_upper c then ascii_of_nat (code c + 32) else c.

Definition upper_char (c : ascii) : ascii :=
  if is_lower c then ascii_of_nat (code c - 32) else c.

Fixpoint smap (f : ascii -> ascii) (s : string) : string :=
  match s with
  | EmptyString => EmptyString
  | String c s' => String (f c) (smap f s')
  end.

(** [s.lower()] and [s.upper()] *)
Definition lower (s : string) : string := smap lower_char s.
Definition upper (s : string) : string := smap upper_char s.

(** [s.startswith(p)] *)
Fixpoint startswith (p s : string) : bool :=
  match p, s with
  | EmptyString, _ => true
  | String a p', String b s' => Ascii.eqb a b && startswith p' s'
  | String _ _, EmptyString => false
  end.

(** [sub in s] *)
Fixpoint contains (sub s : string) : bool :=
  startswith sub s ||
  match s with
  | EmptyString => false
  | String _ s' => contains sub s'
  end.

Fixpoint last_char (s : string) : option ascii :=
  match s with
  | EmptyString => None
  | String c EmptyString => Some c
  | String _ s' => last_char s'
  end.

Fixpoint sdrop (n : nat) (s : string) : string :=
  match n, s with
  | O, _ => s
  | S n', String _ s' => sdrop n' s'
  | S _, EmptyString => EmptyString
  end.

Fixpoint stake (n : nat) (s : string) : string :=
  match n, s with
  | S n', String c s' => String c (stake n' s')
  | _, _ => EmptyString
  end.

(** [s.endswith(p)] *)
Definition endswith (p s : string) : bool :=
  (String.length p <=? String.length s)%nat &&
  String.eqb (sdrop (String.length s - String.length p) s) p.

Fixpoint lstrip (s : string) : string :=
  match s with
  | EmptyString => EmptyString
  | String c s' => if isspace c then lstrip s' else s
  end.

Fixpoint rstrip (s : string) : string :=
  match s with
  | EmptyString => EmptyString
  | String c s' =>
      match rstrip s' with
      | EmptyString => if isspace c then EmptyString else String c EmptyString
      | r => String c r
      end
  end.

(** [s.strip()] *)
Definition strip (s : string) : string := rstrip (lstrip s).

(** [s.replace(old, new)]: the non-overlapping occurrences of [old], found
    left to right, are replaced.  [skip] counts the characters of a matched
    occurrence that are still to be passed over. *)
Fixpoint replace_from (old new : string) (skip : nat) (s : string) : string :=
  match s with
  | EmptyString => EmptyString
  | String c s' =>
      match skip with
      | S k => replace_from old new k s'
      | O =>
          if startswith old s
          then new +:+ replace_from old new (String.length old - 1) s'
          else String c (replace_from old new 0 s')
      end
  end.

(** With an empty [old] Python puts [new] before every character and at the
    end. *)
Fixpoint intersperse (new s : string) : string :=
  match s with
  | EmptyString => new
  | String c s' => new +:+ String c (intersperse new s')
  end.

Definition replace (old new s : string) : string :=
  match old with
  | EmptyString => intersperse new s
  | _ => replace_from old new 0 s
  end.

(** [s.split()]: the maximal runs of non-whitespace characters.  [cur] is
    the word being read, reversed. *)
Fixpoint rev_string (acc s : string) : string :=
  match s with
  | EmptyString => acc
  | String c s' => rev_string (String c acc) s'
  end.

Fixpoint split_from (cur : string) (s : string) : list string :=
  match s with
  | EmptyString =>
      match cur with EmptyString => [] | _ => [rev_string EmptyString cur] end
  | String c s' =>
      if isspace c
      then match cur with
           | EmptyString => split_from EmptyString s'
           | _ => rev_string EmptyString cur :: split_from EmptyString s'
           end
      else split_from (String c cur) s'
  end.

Definition split (s : string) : list string := split_from EmptyString s.

(** [sep.join(parts)] *)
Fixpoint join (sep : string) (parts : list string) : string :=
  match parts with
  | [] => EmptyString
  | [p] => p
  | p :: rest => p +:+ sep +:+ join sep rest
  end.

(** [l[k:]] for a possibly negative [k] *)
Definition slice_from {A} (k : Z) (l : list A) : list A :=
  let n := Z.of_nat (length l) in
  let start := if (k <? 0)%Z then Z.max 0 (n + k) else Z.min k n in
  drop (Z.to_nat start) l.

(** [len(set(a) & set(b))] *)
Fixpoint dedup_strings (l : list string) : list string :=
  match l with
  | [] => []
  | x :: l' => if existsb (String.eqb x) l' then dedup_strings l' else x :: dedup_strings l'
  end.

Definition common_count (a b : list string) : nat :=
  length (dedup_strings (List.filter (fun w => existsb (String.eqb w) b) a)).

Definition nl : string := String (ascii_of_nat 10) EmptyString.

(** Every character of [s] is in the class [p]. *)
Fixpoint all_chars (p : ascii -> bool) (s : string) : bool :=
  match s with
  | EmptyString => true
  | String c s' => p c && all_chars p s'
  end.

End Py.

(* ===================================================================== *)
(** ** Python values read back from result text *)
(* ===================================================================== *)

Set Warnings "-register-all".

(** The values [ast.literal_eval] can return.  [PyOther] stands for every
    value that is neither [None], a boolean, an integer, a string, a tuple
    nor a list (a float, a dictionary, bytes, ...); it carries the text that
    [str] and [repr] print for it, which is all the memory service reads. *)
Inductive pyval : Type :=
  | PyNone
  | PyBool (b : bool)
  | PyInt (z : Z)
  | PyStr (s : string)
  | PyTuple (items : list pyval)
  | PyList (items : list pyval)
  | PyOther (shown : string).

Module PyVal.

Definition squote : ascii := ascii_of_nat 39.
Definition dquote : ascii := ascii_of_nat 34.
Definition backslash : ascii := ascii_of_nat 92.

Definition hex_digit (n : nat) : ascii :=
  if (n <? 10)%nat then ascii_of_nat (48 + n) else ascii_of_nat (87 + n).

(** [repr] of a string: single quotes unless the text has a single quote
    and no double quote; the quote, the backslash and the control
    characters are escaped. *)
Definition repr_char (q c : ascii) : string :=
  let n := Py.code c in
  if Ascii.eqb c q || Ascii.eqb c backslash then String backslash (String c EmptyString)
  else if (n =? 9)%nat then String backslash "t"
  else if (n =? 10)%nat then String backslash "n"
  else if (n =? 13)%nat then String backslash "r"
  else if (n <? 32)%nat || (n =? 127)%nat
       then String backslash (String "x" (String (hex_digit (n / 16)) (String (hex_digit (n mod 16)) EmptyString)))
  else String c EmptyString.

Fixpoint repr_chars (q : ascii) (s : string) : string :=
  match s with
  | EmptyString => EmptyString
  | String c s' => repr_char q c +:+ repr_chars q s'
  end.

Definition repr_str (s : string) : string :=
  let q := if Py.contains (String squote EmptyString) s
              && negb (Py.contains (String dquote EmptyString) s)
           then dquote else squote in
  String q (repr_chars q s +:+ String q EmptyString).

Fixpoint pos_digits (fuel : nat) (n : N) (acc : string) : string :=
  match fuel with
  | O => acc
  | S f =>
      let acc' := String (ascii_of_nat (48 + N.to_nat (n mod 10))) acc in
      if (n / 10 =? 0)%N then acc' else pos_digits f (n / 10)%N acc'
  end.

(** [str] of an integer *)
Definition str_int (z : Z) : string :=
  let n := Z.to_N (Z.abs z) in
  let d := pos_digits (S (N.to_nat (N.log2 n))) n EmptyString in
  if (z <? 0)%Z then String "-" d else d.

Fixpoint repr (v : pyval) : string :=
  match v with
  | PyNone => "None"
  | PyBool true => "True"
  | PyBool false => "False"
  | PyInt z => str_int z
  | PyStr s => repr_str s
  | PyTuple [x] => "(" +:+ repr x +:+ ",)"
  | PyTuple items => "(" +:+ Py.join ", " (map repr items) +:+ ")"
  | PyList items => "[" +:+ Py.join ", " (map repr items) +:+ "]"
  | PyOther shown => shown
  end.

(** [str(v)] *)
Definition str (v : pyval) : string :=
  match v with
  | PyStr s => s
  | _ => repr v
  end.

(** [bool(v)] *)
Definition truthy (v : pyval) : bool :=
  match v with
  | PyNone => false
  | PyBool b => b
  | PyInt z => negb (z =? 0)%Z
  | PyStr s => negb (String.eqb s EmptyString)
  | PyTuple items | PyList items => match items with [] => false | _ => true end
  | PyOther _ => true
  end.

End PyVal.

(** An executable reading of [ast.literal_eval] on the literals that the
    text of a query result is made of: lists and tuples of integers,
    quoted strings, [None], [True] and [False], with blanks between the
    tokens.  Every other text (floats, bytes, dictionaries, calls such as
    [Decimal('1.5')], malformed input) gives [None], which stands for the
    exception that the callers catch.  The memory service itself is stated
    over an arbitrary parser; this one is what the examples run. *)
Module Literal.

Definition blank (c : ascii) : bool :=
  let n := Py.code c in
  (n =? 32)%nat || (n =? 9)%nat || (n =? 10)%nat || (n =? 13)%nat || (n =? 12)%nat.

Fixpoint skip_ws (s : string) : string :=
  match s with
  | String c s' => if blank c then skip_ws s' else s
  | EmptyString => EmptyString
  end.

(** The body of a quoted string up to the closing quote [q]; [acc] is the
    text read so far, reversed. *)
Fixpoint parse_string (q : ascii) (s : string) (acc : string) : option (string * string) :=
  match s with
  | EmptyString => None
  | String c s' =>
      if Ascii.eqb c q then Some (Py.rev_string EmptyString acc, s')
      else if Ascii.eqb c PyVal.backslash then
        match s' with
        | String e s'' =>
            let simple (x : ascii) := parse_string q s'' (String x acc) in
            if Ascii.eqb e PyVal.backslash then simple PyVal.backslash
            else if Ascii.eqb e PyVal.squote then simple PyVal.squote
            else if Ascii.eqb e PyVal.dquote then simple PyVal.dquote
            else if Ascii.eqb e "n" then simple (ascii_of_nat 10)
            else if Ascii.eqb e "t" then simple (ascii_of_nat 9)
            else if Ascii.eqb e "r" then simple (ascii_of_nat 13)
            else None
        | EmptyString => None
        end
      else if (Py.code c =? 10)%nat || (Py.code c =? 13)%nat then None
      else parse_string q s' (String c acc)
  end.

Fixpoint parse_digits (s : string) (acc : N) : N * string :=
  match s with
  | String c s' =>
      if Py.isdigit c then parse_digits s' (acc * 10 + N.of_nat (Py.code c - 48))%N
      else (acc, s)
  | EmptyString => (acc, s)
  end.

Definition ident_char (c : ascii) : bool :=
  Py.isdigit c || Py.is_upper c || Py.is_lower c
  || Ascii.eqb c "_" || Ascii.eqb c "." || (128 <=? Py.code c)%nat.

(** An atom must not run on into an identifier character or a dot
    ([12abc], [1.5], [Nonesuch] are not in the fragment). *)
Definition atom_end (s : string) : bool :=
  match s with
  | String c _ => negb (ident_char c)
  | EmptyString => true
  end.

Definition starts_with_digit (s : string) : bool :=
  match s with
  | String d _ => Py.isdigit d
  | EmptyString => false
  end.

(** A run of digits; a leading zero followed by more digits is refused. *)
Definition parse_nat (s : string) : option (N * string) :=
  match s with
  | String c s' =>
      if Py.isdigit c then
        let '(n, rest) := parse_digits s 0%N in
        if Ascii.eqb c "0" && starts_with_digit s' then None
        else if atom_end rest then Some (n, rest) else None
      else None
  | EmptyString => None
  end.

Definition parse_keyword (kw : string) (v : pyval) (s : string) : option (pyval * string) :=
  if Py.startswith kw s && atom_end (Py.sdrop (String.length kw) s)
  then Some (v, Py.sdrop (String.length kw) s) else None.

Definition parse_atom (s : string) : option (pyval * string) :=
  match s with
  | String c s' =>
      if Ascii.eqb c PyVal.squote || Ascii.eqb c PyVal.dquote then
        match parse_string c s' EmptyString with
        | Some (t, rest) => Some (PyStr t, rest)
        | None => None
        end
      else if Ascii.eqb c "-" then
        match parse_nat s' with
        | Some (n, rest) => Some (PyInt (- Z.of_N n), rest)
        | None => None
        end
      else if Py.isdigit c then
        match parse_nat s with
        | Some (n, rest) => Some (PyInt (Z.of_N n), rest)
        | None => None
        end
      else if Ascii.eqb c "N" then parse_keyword "None" PyNone s
      else if Ascii.eqb c "T" then parse_keyword "True" (PyBool true) s
      else if Ascii.eqb c "F" then parse_keyword "False" (PyBool false) s
      else None
  | EmptyString => None
  end.

Fixpoint parse_value (fuel : nat) (s : string) : option (pyval * string) :=
  match fuel with
  | O => None
  | S f =>
      match skip_ws s with
      | String c r =>
          if Ascii.eqb c "[" then
            match parse_items f r "]" with
            | Some (items, _, rest) => Some (PyList items, rest)
            | None => None
            end
          else if Ascii.eqb c "(" then
            match parse_items f r ")" with
            | Some ([x], false, rest) => Some (x, rest)
            | Some (items, _, rest) => Some (PyTuple items, rest)
            | None => None
            end
          else parse_atom (String c r)
      | EmptyString => None
      end
  end
with parse_items (fuel : nat) (s : string) (close : ascii)
  : option (list pyval * bool * string) :=
  match fuel with
  | O => None
  | S f =>
      match skip_ws s with
      | String c r =>
          if Ascii.eqb c close then Some ([], false, r)
          else
            match parse_value f (String c r) with
            | Some (v, rest) =>
                match skip_ws rest with
                | String d r' =>
                    if Ascii.eqb d "," then
                      match parse_items f r' close with
                      | Some (vs, tc, rest') =>
                          Some (v :: vs, match vs with [] => true | _ => tc end, rest')
                      | None => None
                      end
                    else if Ascii.eqb d close then Some ([v], false, r')
                    else None
                | EmptyString => None
                end
            | None => None
            end
      | EmptyString => None
      end
  end.

Definition literal_eval (s : string) : option pyval :=
  match parse_value (2 * String.length s + 2) s with
  | Some (v, rest) =>
      match skip_ws rest with
      | EmptyString => Some v
      | _ => None
      end
  | None => None
  end.

End Literal.


(* ===================================================================== *)
(** ** Data model of the memory service *)
(* ===================================================================== *)

(** One entry of [conversation_history]. *)
Record Interaction := mkInteraction {
  i_timestamp : string;
  i_question : string;
  i_query : string;
  i_result : string;
  i_answer : string }.

(** One value of [entity_memory]. *)
Record EntityInfo := mkEntityInfo {
  e_question : string;
  e_full_result : string;
  e_answer : string;
  e_timestamp : string }.

(** One element of a [question_patterns] list. *)
Record Pattern := mkPattern {
  p_question : string;
  p_query : string }.

(** A Python [dict] with string keys, in insertion order. *)
Definition dict (V : Type) : Type := list (string * V).

Fixpoint dict_get {V} (k : string) (d : dict V) : option V :=
  match d with
  | [] => None
  | (k', v) :: d' => if String.eqb k k' then Some v else dict_get k d'
  end.

(** [d[k] = v]: an existing key keeps its place, a new one goes last. *)
Fixpoint dict_set {V} (k : string) (v : V) (d : dict V) : dict V :=
  match d with
  | [] => [(k, v)]
  | (k', v') :: d' =>
      if String.eqb k k' then (k', v) :: d' else (k', v') :: dict_set k v d'
  end.

Definition dict_keys {V} (d : dict V) : list string := map fst d.

(** The three collections as the durable store keeps them per user. *)
Record MemoryData := mkMemoryData {
  md_conversation_history : list Interaction;
  md_question_patterns : dict (list Pattern);
  md_entity_memory : dict EntityInfo }.

(** [db_service] together with the wall clock: the rows of the memory
    table, whether a connection is open, and how many times the clock has
    been read. *)
Record Services := mkServices {
  rows : gmap string MemoryData;
  connection : bool;
  ticks : nat }.

(** A [ConversationMemory] object. *)
Record ConversationMemory := mkMemory {
  username : string;
  max_history : Z;
  conversation_history : list Interaction;
  question_patterns : dict (list Pattern);
  entity_memory : dict EntityInfo }.

(* ===================================================================== *)
(** ** memory_service.py *)
(* ===================================================================== *)

(** [db_service.get_user_memory] *)
Definition db_get_user_memory (user : string) (sv : Services) : option MemoryData :=
  if connection sv then rows sv !! user else None.

(** [db_service.save_user_memory]: an upsert of the user's row.  The row
    is kept as it is written: the table's limit of 255 characters on the
    name, which makes the statement fail for a longer one, and the key
    order of its JSONB columns are not part of the model. *)
Definition db_save_user_memory (user : string) (d : MemoryData) (sv : Services)
  : bool * Services :=
  if connection sv
  then (true, mkServices (<[user := d]> (rows sv)) (connection sv) (ticks sv))
  else (false, sv).

(** [db_service.clear_user_memory]: an update of the row, when there is one. *)
Definition db_clear_user_memory (user : string) (sv : Services) : bool * Services :=
  if connection sv
  then (true,
        mkServices
          (match rows sv !! user with
           | Some _ => <[user := mkMemoryData [] [] []]> (rows sv)
           | None => rows sv
           end) (connection sv) (ticks sv))
  else (false, sv).

Section MemoryService.

(** [ast.literal_eval]: [None] when it raises. *)
Variable literal_eval : string -> option pyval.

(** [datetime.now().isoformat()] at the n-th reading of the clock. *)
Variable clock : nat -> string.

Definition now (sv : Services) : string * Services :=
  (clock (ticks sv), mkServices (rows sv) (connection sv) (S (ticks sv))).

(** [ConversationMemory.__init__] followed by [load_from_database]. *)
Definition load_from_database (self : ConversationMemory) (sv : Services)
  : ConversationMemory :=
  match db_get_user_memory (username self) sv with
  | Some d =>
      mkMemory (username self) (max_history self)
        (md_conversation_history d) (md_question_patterns d) (md_entity_memory d)
  | None => mkMemory (username self) (max_history self) [] [] []
  end.

Definition new_memory (user : string) (max_hist : Z) (sv : Services) : ConversationMemory :=
  load_from_database (mkMemory user max_hist [] [] []) sv.

Definition save_to_database (self : ConversationMemory) (sv : Services) : bool * Services :=
  db_save_user_memory (username self)
    (mkMemoryData (conversation_history self) (question_patterns self) (entity_memory self)) sv.

(** The rows of a result text, when it reads back as a non-empty list:
    the test [result.startswith('[') and result.endswith(']')], then
    [ast.literal_eval], then [parsed_result and isinstance(parsed_result, list)]. *)
Definition parsed_rows (result : string) : option (list pyval) :=
  if Py.startswith "[" result && Py.endswith "]" result then
    match literal_eval result with
    | Some (PyList (x :: items)) => Some (x :: items)
    | _ => None
    end
  else None.

(** [isinstance(item, tuple) and len(item) > 0], giving [item[0]]. *)
Definition tuple_head (item : pyval) : option pyval :=
  match item with
  | PyTuple (x :: _) => Some x
  | _ => None
  end.

Fixpoint store_entities (question result answer : string) (items : list pyval)
  (ents : dict EntityInfo) (sv : Services) : dict EntityInfo * Services :=
  match items with
  | [] => (ents, sv)
  | item :: items' =>
      match tuple_head item with
      | Some x =>
          let entity := Py.lower (PyVal.str x) in
          let '(ts, sv') := now sv in
          store_entities question result answer items'
            (dict_set entity (mkEntityInfo question result answer ts) ents) sv'
      | None => store_entities question result answer items' ents sv
      end
  end.

Definition _extract_entities (self : ConversationMemory)
  (question result answer : string) (sv : Services) : ConversationMemory * Services :=
  match parsed_rows result with
  | Some items =>
      let '(ents, sv') := store_entities question result answer items (entity_memory self) sv in
      (mkMemory (username self) (max_history self) (conversation_history self)
         (question_patterns self) ents, sv')
  | None => (self, sv)
  end.

Definition append_pattern (key : string) (p : Pattern) (pats : dict (list Pattern))
  : dict (list Pattern) :=
  dict_set key (default [] (dict_get key pats) ++ [p]) pats.

Definition common_columns : list string :=
  ["name"; "marks"; "class"; "section"; "grade"; "email"; "id"].

Definition _extract_question_patterns (self : ConversationMemory)
  (question query : string) : ConversationMemory :=
  let question_lower := Py.lower question in
  let p := mkPattern question query in
  let pats0 :=
    if Py.contains "student" question_lower
    then append_pattern "student_queries" p (question_patterns self)
    else question_patterns self in
  let pats :=
    fold_left
      (fun pats col =>
         if Py.contains col question_lower
         then append_pattern (col +:+ "_queries") p pats else pats)
      common_columns pats0 in
  mkMemory (username self) (max_history self) (conversation_history self)
    pats (entity_memory self).

(** [ConversationMemory.add_interaction] *)
Definition add_interaction (self : ConversationMemory)
  (question query result answer : string) (sv : Services)
  : ConversationMemory * Services :=
  let '(ts, sv1) := now sv in
  let interaction := mkInteraction ts question query result answer in
  let history := conversation_history self ++ [interaction] in
  let history :=
    if (max_history self <? Z.of_nat (length history))%Z
    then Py.slice_from (- max_history self) history
    else history in
  let self1 := mkMemory (username self) (max_history self) history
                 (question_patterns self) (entity_memory self) in
  let self2 := _extract_question_patterns self1 question query in
  let '(self3, sv2) := _extract_entities self2 question result answer sv1 in
  let '(_, sv3) := save_to_database self3 sv2 in
  (self3, sv3).

Definition pronouns : list string := ["her"; "his"; "their"; "it"; "she"; "he"; "they"].

(** The name a pronoun is replaced with: [str(item[0])] of the first row of
    the last result that is a non-empty tuple. *)
Fixpoint first_name (items : list pyval) : option string :=
  match items with
  | [] => None
  | item :: items' =>
      match tuple_head item with
      | Some x => Some (PyVal.str x)
      | None => first_name items'
      end
  end.

(** One turn of the loop over the pronouns. *)
Definition resolve_pronoun (self : ConversationMemory) (question_lower : string)
  (resolved_question pronoun : string) : string :=
  if Py.contains pronoun question_lower then
    match last (conversation_history self) with
    | Some last_interaction =>
        match parsed_rows (i_result last_interaction) with
        | Some items =>
            match first_name items with
            | Some name => Py.replace pronoun name resolved_question
            | None => resolved_question
            end
        | None => resolved_question
        end
    | None => resolved_question
    end
  else resolved_question.

(** [max(d.items(), key=lambda x: x[1]['timestamp'])]: the first entry with
    the greatest timestamp. *)
Fixpoint max_by_timestamp (best : string * EntityInfo) (d : dict EntityInfo)
  : string * EntityInfo :=
  match d with
  | [] => best
  | x :: d' =>
      if String.ltb (e_timestamp (snd best)) (e_timestamp (snd x))
      then max_by_timestamp x d' else max_by_timestamp best d'
  end.

(** The test ["what" in q and ("marks" in q or "grade" in q)]. *)
Definition asks_for_marks (question_lower : string) : bool :=
  Py.contains "what" question_lower
  && (Py.contains "marks" question_lower || Py.contains "grade" question_lower).

(** [ConversationMemory.resolve_contextual_references] *)
Definition resolve_contextual_references (self : ConversationMemory) (question : string)
  : string :=
  let question_lower := Py.lower question in
  let resolved_question :=
    fold_left (resolve_pronoun self question_lower) pronouns question in
  if asks_for_marks question_lower
  then
    match entity_memory self with
    | e :: rest =>
        let entity_name := fst (max_by_timestamp e rest) in
        if negb (existsb (fun name => Py.contains name question_lower)
                   (dict_keys (entity_memory self)))
        then "what are " +:+ entity_name +:+ "'s marks"
        else resolved_question
    | [] => resolved_question
    end
  else resolved_question.

(** The key [f"{interaction['question']}_{interaction['timestamp']}"]
    under which an interaction is remembered as seen. *)
Definition interaction_id (i : Interaction) : string :=
  i_question i +:+ "_" +:+ i_timestamp i.

Fixpoint unique_by_id (seen : list string) (l : list Interaction) : list Interaction :=
  match l with
  | [] => []
  | i :: l' =>
      if existsb (String.eqb (interaction_id i)) seen
      then unique_by_id seen l'
      else i :: unique_by_id (interaction_id i :: seen) l'
  end.

(** The test of the loop over the history: at least two distinct words in
    common with the current question. *)
Definition shares_two_words (current_question_lower : string) (i : Interaction) : bool :=
  (2 <=? Py.common_count (Py.split current_question_lower)
                         (Py.split (Py.lower (i_question i))))%nat.

Definition unique_relevant (self : ConversationMemory) (current_question : string)
  : list Interaction :=
  let current_question_lower := Py.lower current_question in
  let recent_interactions := Py.slice_from (-2) (conversation_history self) in
  let relevant_interactions :=
    List.filter (shares_two_words current_question_lower) (conversation_history self) in
  unique_by_id [] (recent_interactions ++ relevant_interactions).

(** The interactions that are written into the narrative. *)
Definition shown_interactions (self : ConversationMemory) (current_question : string)
  : list Interaction :=
  Py.slice_from (-3) (unique_relevant self current_question).

Definition context_entry (n : nat) (i : Interaction) : list string :=
  [ Py.nl +:+ PyVal.str_int (Z.of_nat n) +:+ ". Previous Question: " +:+ i_question i;
    "   SQL Query: " +:+ i_query i;
    "   Result: " +:+ i_result i;
    "   Answer Given: " +:+ i_answer i ].

Fixpoint context_entries (n : nat) (l : list Interaction) : list string :=
  match l with
  | [] => []
  | i :: l' => context_entry n i ++ context_entries (S n) l'
  end.

Definition context_header : string :=
  "CONVERSATION CONTEXT (use this to resolve references like 'her', 'his', 'it', etc.):".

(** [ConversationMemory.get_relevant_context] *)
Definition get_relevant_context (self : ConversationMemory) (current_question : string)
  : string :=
  match conversation_history self with
  | [] => ""
  | _ =>
      match unique_relevant self current_question with
      | [] => ""
      | _ =>
          let context_parts :=
            [context_header]
            ++ context_entries 1 (shown_interactions self current_question)
            ++ match entity_memory self with
               | [] => []
               | _ => [Py.nl +:+ "KNOWN ENTITIES: "
                       +:+ PyVal.repr (PyList (map PyStr (dict_keys (entity_memory self))))]
               end in
          Py.join Py.nl context_parts
      end
  end.

(** [ConversationMemory.clear_memory] *)
Definition clear_memory (self : ConversationMemory) (sv : Services)
  : ConversationMemory * Services :=
  (mkMemory (username self) (max_history self) [] [] [],
   snd (db_clear_user_memory (username self) sv)).

(** A [MemoryManager]: its [user_memories] dictionary. *)
Definition MemoryManager : Type := gmap string ConversationMemory.

(** [MemoryManager.get_user_memory]: the cached object, created and loaded
    with the default bound of 10 at the first access. *)
Definition get_user_memory (user : string) (mm : gmap string ConversationMemory)
  (sv : Services) : ConversationMemory * gmap string ConversationMemory :=
  match mm !! user with
  | Some m => (m, mm)
  | None => let m := new_memory user 10 sv in (m, <[user := m]> mm)
  end.

(** [MemoryManager.clear_user_memory] *)
Definition clear_user_memory (user : string) (mm : gmap string ConversationMemory)
  (sv : Services) : gmap string ConversationMemory * Services :=
  match mm !! user with
  | Some m => (delete user mm, snd (clear_memory m sv))
  | None => (mm, snd (db_clear_user_memory user sv))
  end.

(** The dictionary returned by [get_conversation_summary]. *)
Record Summary := mkSummary {
  sum_username : string;
  sum_total_interactions : nat;
  sum_recent_interactions : list Interaction;
  sum_known_entities : list string;
  sum_question_patterns : list string }.

(** [ConversationMemory.get_conversation_summary] *)
Definition get_conversation_summary (self : ConversationMemory) : Summary :=
  mkSummary (username self)
    (length (conversation_history self))
    (match conversation_history self with
     | [] => []
     | _ => Py.slice_from (-5) (conversation_history self)
     end)
    (dict_keys (entity_memory self))
    (dict_keys (question_patterns self)).

End MemoryService.

(* ===================================================================== *)
(** ** Regular expressions of the query post-processing *)
(* ===================================================================== *)

(** The two patterns of [sql_agent.py] are read with a small matcher by
    derivatives.  A class is a predicate on characters; under
    [re.IGNORECASE] a letter is the class of its two cases. *)
Module Re.

Inductive regex : Type :=
  | Void
  | Eps
  | Class (p : ascii -> bool)
  | Cat (r1 r2 : regex)
  | Alt (r1 r2 : regex)
  | Star (r : regex).

Fixpoint nullable (r : regex) : bool :=
  match r with
  | Void => false
  | Eps => true
  | Class _ => false
  | Cat r1 r2 => nullable r1 && nullable r2
  | Alt r1 r2 => nullable r1 || nullable r2
  | Star _ => true
  end.

Fixpoint deriv (c : ascii) (r : regex) : regex :=
  match r with
  | Void => Void
  | Eps => Void
  | Class p => if p c then Eps else Void
  | Cat r1 r2 =>
      if nullable r1 then Alt (Cat (deriv c r1) r2) (deriv c r2)
      else Cat (deriv c r1) r2
  | Alt r1 r2 => Alt (deriv c r1) (deriv c r2)
  | Star r1 => Cat (deriv c r1) (Star r1)
  end.

(** The whole of [s] is a word of [r]. *)
Fixpoint matches (r : regex) (s : string) : bool :=
  match s with
  | EmptyString => nullable r
  | String c s' => matches (deriv c r) s'
  end.

Definition Plus (r : regex) : regex := Cat r (Star r).

(** The words of a pattern. *)
Inductive lang : regex -> string -> Prop :=
  | lang_eps : lang Eps EmptyString
  | lang_class p c : p c = true -> lang (Class p) (String c EmptyString)
  | lang_cat r1 r2 s1 s2 : lang r1 s1 -> lang r2 s2 -> lang (Cat r1 r2) (s1 +:+ s2)
  | lang_alt_l r1 r2 s : lang r1 s -> lang (Alt r1 r2) s
  | lang_alt_r r1 r2 s : lang r2 s -> lang (Alt r1 r2) s
  | lang_star_nil r : lang (Star r) EmptyString
  | lang_star_app r s1 s2 : lang r s1 -> lang (Star r) s2 -> lang (Star r) (s1 +:+ s2).

(** A literal under [re.IGNORECASE]. *)
Fixpoint literal_ci (s : string) : regex :=
  match s with
  | EmptyString => Eps
  | String c s' =>
      Cat (Class (fun x => Ascii.eqb (Py.lower_char x) (Py.lower_char c))) (literal_ci s')
  end.

(** [re.sub(r + '$', '', s)] for a pattern [r] that matches no empty word
    and ends in [\s*]: the leftmost position from which the rest of [s] is a
    word of [r] is where the text is cut.  (A [$] also holds before a final
    newline, but the greedy [\s*] takes that newline too.) *)
Fixpoint sub_at_end (r : regex) (s : string) : string :=
  if matches r s then EmptyString
  else match s with
       | EmptyString => EmptyString
       | String c s' => String c (sub_at_end r s')
       end.

(** [re.search(r + '$', s)] finds something: from some position on, the
    rest of [s] is a word of [r]. *)
Fixpoint search_at_end (r : regex) (s : string) : bool :=
  matches r s ||
  match s with
  | EmptyString => false
  | String _ s' => search_at_end r s'
  end.

End Re.

(** [\s+LIMIT\s+\d+\s*] *)
Definition limit_clause : Re.regex :=
  Re.Cat (Re.Plus (Re.Class Py.isspace))
    (Re.Cat (Re.literal_ci "LIMIT")
       (Re.Cat (Re.Plus (Re.Class Py.isspace))
          (Re.Cat (Re.Plus (Re.Class Py.isdigit)) (Re.Star (Re.Class Py.isspace))))).

(** [query.upper().startswith(('UPDATE', 'INSERT', 'DELETE'))] *)
Definition is_mutating (query : string) : bool :=
  let u := Py.upper query in
  Py.startswith "UPDATE" u || Py.startswith "INSERT" u || Py.startswith "DELETE" u.

(** [SQLAgent.validate_and_fix_query] *)
Definition validate_and_fix_query (query : string) : string :=
  let query := Py.strip query in
  let query := if is_mutating query then Re.sub_at_end limit_clause query else query in
  Py.replace Py.nl " " query.

(** [re.search(r"```sql\s+(.*?)```", text, re.DOTALL)], giving group 1:
    after the first [```sql] that is followed by white space and, later, by
    a closing fence, the text between that white space and the fence. *)
Definition fence : string := "```".

Fixpoint before_fence (s : string) : option string :=
  if Py.startswith fence s then Some EmptyString
  else match s with
       | EmptyString => None
       | String c s' =>
           match before_fence s' with
           | Some body => Some (String c body)
           | None => None
           end
       end.

Definition fenced_here (s : string) : option string :=
  if Py.startswith (fence +:+ "sql") s then
    match Py.sdrop 6 s with
    | String c r => if Py.isspace c then before_fence (Py.lstrip r) else None
    | EmptyString => None
    end
  else None.

Fixpoint search_fenced (s : string) : option string :=
  match fenced_here s with
  | Some body => Some body
  | None =>
      match s with
      | EmptyString => None
      | String _ s' => search_fenced s'
      end
  end.

(* ===================================================================== *)
(** ** Hexadecimal transport of bytes *)
(* ===================================================================== *)

Module Hex.

Definition digit (n : N) : ascii :=
  if (n <? 10)%N then ascii_of_N (48 + n) else ascii_of_N (87 + n).

(** [bytes.hex()]: two lower-case digits per byte. *)
Fixpoint hex (bs : list Byte.byte) : string :=
  match bs with
  | [] => EmptyString
  | b :: bs' =>
      let n := Byte.to_N b in
      String (digit (n / 16)) (String (digit (n mod 16)) (hex bs'))
  end.

Definition value (c : ascii) : option N :=
  let n := N_of_ascii c in
  if (48 <=? n)%N && (n <=? 57)%N then Some (n - 48)%N
  else if (97 <=? n)%N && (n <=? 102)%N then Some (n - 87)%N
  else if (65 <=? n)%N && (n <=? 70)%N then Some (n - 55)%N
  else None.

(** The ASCII white space that [bytes.fromhex] skips between bytes. *)
Definition skipped (c : ascii) : bool :=
  let n := N_of_ascii c in ((9 <=? n)%N && (n <=? 13)%N) || (n =? 32)%N.

(** [bytes.fromhex(s)]; [None] stands for its [ValueError]. *)
Fixpoint fromhex (s : string) : option (list Byte.byte) :=
  match s with
  | EmptyString => Some []
  | String c s' =>
      if skipped c then fromhex s'
      else
        match value c, s' with
        | Some hi, String d s'' =>
            match value d with
            | Some lo =>
                match Byte.of_N (hi * 16 + lo), fromhex s'' with
                | Some b, Some bs => Some (b :: bs)
                | _, _ => None
                end
            | None => None
            end
        | _, _ => None
        end
  end.

(** Where [bytes.fromhex] stops: the position of the first character that
    is not ASCII when there is one; otherwise the position of the character
    read as a digit that is none, which is the length of the text when a
    last digit stands alone. *)
Fixpoint first_non_ascii (pos : nat) (s : string) : option nat :=
  match s with
  | EmptyString => None
  | String c s' =>
      if (128 <=? N_of_ascii c)%N then Some pos else first_non_ascii (S pos) s'
  end.

Fixpoint first_bad_digit (pos : nat) (s : string) : nat :=
  match s with
  | EmptyString => pos
  | String c s' =>
      if skipped c then first_bad_digit (S pos) s'
      else
        match value c, s' with
        | Some _, String d s'' =>
            match value d with
            | Some _ => first_bad_digit (S (S pos)) s''
            | None => S pos
            end
        | Some _, EmptyString => S pos
        | None, _ => pos
        end
  end.

Definition invalid_position (s : string) : nat :=
  match first_non_ascii 0 s with
  | Some pos => pos
  | None => first_bad_digit 0 s
  end.

End Hex.

(* ===================================================================== *)
(** ** sql_agent.py *)
(* ===================================================================== *)

(** The [State] dictionary.  [intent] is the one key that the states built
    by the agent may lack. *)
Record State := mkState {
  st_username : string;
  st_question : string;
  st_query : string;
  st_error : string;
  st_success : bool;
  st_result : string;
  st_answer : string;
  st_context_from_memory : string;
  st_resolved_question : string;
  st_feedback : string;
  st_intent : option string }.

Definition set_query (q : string) (s : State) : State :=
  mkState (st_username s) (st_question s) q (st_error s) (st_success s) (st_result s)
    (st_answer s) (st_context_from_memory s) (st_resolved_question s) (st_feedback s)
    (st_intent s).

Definition set_result (r : string) (s : State) : State :=
  mkState (st_username s) (st_question s) (st_query s) (st_error s) (st_success s) r
    (st_answer s) (st_context_from_memory s) (st_resolved_question s) (st_feedback s)
    (st_intent s).

Definition set_answer (a : string) (s : State) : State :=
  mkState (st_username s) (st_question s) (st_query s) (st_error s) (st_success s)
    (st_result s) a (st_context_from_memory s) (st_resolved_question s) (st_feedback s)
    (st_intent s).

Definition set_feedback (f : string) (s : State) : State :=
  mkState (st_username s) (st_question s) (st_query s) (st_error s) (st_success s)
    (st_result s) (st_answer s) (st_context_from_memory s) (st_resolved_question s) f
    (st_intent s).

Definition set_intent (i : string) (s : State) : State :=
  mkState (st_username s) (st_question s) (st_query s) (st_error s) (st_success s)
    (st_result s) (st_answer s) (st_context_from_memory s) (st_resolved_question s)
    (st_feedback s) (Some i).

Definition set_memory_context (context resolved : string) (s : State) : State :=
  mkState (st_username s) (st_question s) (st_query s) (st_error s) (st_success s)
    (st_result s) (st_answer s) context resolved (st_feedback s) (st_intent s).

(** What the model is asked: each constructor is one of the four fixed
    templates of the agent, with the values that fill it. *)
Inductive Prompt : Type :=
  | ClassificationPrompt (memory_context question resolved_question : string)
  | ChatPrompt (memory_context question resolved_question : string)
  | QueryPrompt (dialect : string) (top_k : Z)
      (table_info memory_context resolved_question input feedback : string)
  | AnswerPrompt (question resolved_question query result feedback memory_context : string).

(** The outcome of a call that may raise; [Raise] carries [str(e)]. *)
Inductive Result (A : Type) : Type :=
  | Ok (a : A)
  | Raise (msg : string).
Arguments Ok {A} a.
Arguments Raise {A} msg.

(** What running a statement on the SQL database comes to: rows, shown as
    text; an error of the database (an [SQLAlchemyError], as for a
    malformed statement or a missing table); or any other exception. *)
Inductive Outcome : Type :=
  | Rows (text : string)
  | DatabaseError (msg : string)
  | OtherException (msg : string).

(** [QuerySQLDatabaseTool(db=self.db).invoke(query)] of langchain: the tool
    runs the statement with [SQLDatabase.run_no_throw], which returns the
    text [Error: <message>] for an error of the database and lets any other
    exception through. *)
Definition QuerySQLDatabaseTool {DB : Type} (run : string -> DB -> Outcome * DB)
  (query : string) (db : DB) : Result string * DB :=
  match run query db with
  | (Rows text, db') => (Ok text, db')
  | (DatabaseError msg, db') => (Ok ("Error: " +:+ msg), db')
  | (OtherException msg, db') => (Raise msg, db')
  end.

Section Agent.

Variable literal_eval : string -> option pyval.
Variable clock : nat -> string.

(** The language model behind [self.llm.invoke], with [temperature=0]: the
    text of [response.content], or the exception of a failed call. *)
Variable llm : Prompt -> Result string.

(** The SQL database behind [self.db]: its states, the execution of a
    statement by [QuerySQLDatabaseTool], and [get_table_info_str], which
    catches its own errors and always returns a text. *)
Variable DB : Type.
Variable run_sql : string -> DB -> Result string * DB.
Variable get_table_info_str : DB -> string.

(** Everything the agent can change: the [memory_manager] cache, the
    durable store with the clock, and the SQL database. *)
Record World := mkWorld {
  user_memories : gmap string ConversationMemory;
  services : Services;
  database : DB }.

(** Computations that read and change the world and may raise. *)
Definition M (A : Type) : Type := World -> Result A * World.

Definition ret {A} (a : A) : M A := fun w => (Ok a, w).
Definition raise {A} (msg : string) : M A := fun w => (Raise msg, w).
Definition bind {A B} (m : M A) (k : A -> M B) : M B :=
  fun w => match m w with
           | (Ok a, w') => k a w'
           | (Raise msg, w') => (Raise msg, w')
           end.

(** [try: m  except Exception as e: handler(str(e))] *)
Definition try_except {A} (m : M A) (handler : string -> M A) : M A :=
  fun w => match m w with
           | (Ok a, w') => (Ok a, w')
           | (Raise msg, w') => handler msg w'
           end.

Notation "x <- m ;; k" := (bind m (fun x => k))
  (at level 100, m at next level, right associativity).

Definition invoke_llm (p : Prompt) : M string :=
  fun w => match llm p with
           | Ok text => (Ok text, w)
           | Raise msg => (Raise msg, w)
           end.

(** [memory_manager.get_user_memory(username)] *)
Definition user_memory (user : string) : M ConversationMemory :=
  fun w =>
    let '(m, mm) := get_user_memory user (user_memories w) (services w) in
    (Ok m, mkWorld mm (services w) (database w)).

(** [memory_manager.get_user_memory(username).add_interaction(...)]: the
    cached object is changed in place. *)
Definition record_interaction (user question query result answer : string) : M unit :=
  m <- user_memory user ;;
  fun w =>
    let '(m', sv') := add_interaction literal_eval clock m question query result answer (services w) in
    (Ok tt, mkWorld (<[user := m']> (user_memories w)) sv' (database w)).

(** [SQLAgent.add_memory_context], merged into the state by the graph. *)
Definition add_memory_context (state : State) : M State :=
  m <- user_memory (st_username state) ;;
  let resolved_question := resolve_contextual_references literal_eval m (st_question state) in
  let context := get_relevant_context m (st_question state) in
  ret (set_memory_context context resolved_question state).

(** [SQLAgent.classify_intent] *)
Definition classify_intent (state : State) : M State :=
  response <- invoke_llm (ClassificationPrompt (st_context_from_memory state)
                            (st_question state) (st_resolved_question state)) ;;
  let intent := Py.lower (Py.strip response) in
  let intent :=
    if String.eqb intent "sql" || String.eqb intent "chat" then intent else "chat" in
  ret (set_intent intent state).

(** [SQLAgent.basic_chat] *)
Definition basic_chat (state : State) : M State :=
  response <- invoke_llm (ChatPrompt (st_context_from_memory state)
                            (st_question state) (st_resolved_question state)) ;;
  let answer := Py.strip response in
  _ <- record_interaction (st_username state) (st_question state) "" "" answer ;;
  ret (set_result "" (set_query "" (set_answer answer state))).

(** [SQLAgent.write_query] *)
Definition write_query (state : State) : M State :=
  fun w =>
    let table_info := get_table_info_str (database w) in
    (response <- invoke_llm (QueryPrompt "sqlite" 10 table_info
                               (st_context_from_memory state) (st_resolved_question state)
                               (st_question state) (st_feedback state)) ;;
     let response_text := Py.strip response in
     let sql_query :=
       match search_fenced response_text with
       | Some body => Py.strip body
       | None => Py.strip response_text
       end in
     ret (set_query (validate_and_fix_query sql_query) state)) w.

(** [SQLAgent.execute_query] *)
Definition execute_query (state : State) : M State :=
  fun w =>
    match run_sql (st_query state) (database w) with
    | (Ok result, db') =>
        (Ok (set_result result state), mkWorld (user_memories w) (services w) db')
    | (Raise msg, db') =>
        (Ok (set_result ("Error executing query: " +:+ msg) state),
         mkWorld (user_memories w) (services w) db')
    end.

(** [SQLAgent.generate_answer] *)
Definition generate_answer (state : State) : M State :=
  response <- invoke_llm (AnswerPrompt (st_question state) (st_resolved_question state)
                            (st_query state) (st_result state) (st_feedback state)
                            (st_context_from_memory state)) ;;
  let answer := Py.strip response in
  _ <- record_interaction (st_username state) (st_question state) (st_query state)
         (st_result state) answer ;;
  ret (set_answer answer state).

(** [SQLAgent.should_route_to_sql] *)
Definition should_route_to_sql (state : State) : string :=
  if String.eqb (default "chat" (st_intent state)) "sql" then "sql" else "chat".

(** [SQLAgent.run_until_human_review].  The compiled graph runs
    [add_memory_context], [classify_intent] and then [basic_chat] or
    [write_query]; the loop over its stream returns at the [basic_chat]
    step and stops at the [write_query] step. *)
Definition run_until_human_review (user question : string) : M State :=
  let initial_state := mkState user question "" "" true "" "" "" "" "" None in
  try_except
    (s1 <- add_memory_context initial_state ;;
     s2 <- classify_intent s1 ;;
     if String.eqb (should_route_to_sql s2) "sql"
     then write_query s2
     else
       chat_state <- basic_chat s2 ;;
       _ <- record_interaction user (st_question chat_state) "" "" (st_answer chat_state) ;;
       ret chat_state)
    (fun e =>
       ret (mkState user question "" e false "" ("Error during processing: " +:+ e)
              "" question "" None)).

(** [SQLAgent.regenerate_query_with_feedback].  A state taken from a
    checkpoint has no ["add_memory_context"] key, so [current_state] is the
    state itself; a missing feedback ([None]) is the empty string here. *)
Definition regenerate_query_with_feedback (state_before_write : State) (feedback : string)
  : M State :=
  let current_state := state_before_write in
  try_except
    (let updated_question :=
       if String.eqb feedback ""
       then st_question current_state
       else Py.strip (st_question current_state) +:+ " (" +:+ Py.strip feedback +:+ ")" in
     let updated_state :=
       mkState (st_username current_state) updated_question "" "" true "" ""
         (st_context_from_memory current_state) "" feedback None in
     write_query updated_state)
    (fun e =>
       ret (mkState (st_username current_state) (st_question current_state) "" e false ""
              ("Error during regeneration: " +:+ e)
              (st_context_from_memory current_state) (st_resolved_question current_state)
              feedback None)).

(** [SQLAgent.finalize_after_approval] *)
Definition finalize_after_approval (query_state : State) : M State :=
  try_except
    (executed_state <- execute_query query_state ;;
     final_state <- generate_answer (set_feedback (st_feedback query_state) executed_state) ;;
     _ <- record_interaction (st_username query_state) (st_question query_state)
            (st_query query_state) (st_result final_state) (st_answer final_state) ;;
     ret final_state)
    (fun e =>
       ret (mkState (st_username query_state) (st_question query_state)
              (st_query query_state) e false ""
              ("Error during final execution: " +:+ e)
              (st_context_from_memory query_state) (st_resolved_question query_state)
              (st_feedback query_state) None)).

(* --------------------------------------------------------------------- *)
(** *** routes.py: the checkpoint token and the three query routes *)

(** [pickle.dumps] on a state dictionary, and [pickle.loads] as a function
    of the bytes: the state it returns, or the exception it raises.  What
    loading bytes that [pickle.dumps] did not write may do besides is not
    part of the model. *)
Variable pickle_dumps : State -> list Byte.byte.
Variable pickle_loads : list Byte.byte -> Result State.

(** [state_bytes.hex()] then [pickle.dumps]: the token of a paused state. *)
Definition encode_state (s : State) : string := Hex.hex (pickle_dumps s).

(** [pickle.loads(bytes.fromhex(state_hex))] *)
Definition decode_state (state_hex : string) : Result State :=
  match Hex.fromhex state_hex with
  | Some state_bytes => pickle_loads state_bytes
  | None =>
      Raise ("non-hexadecimal number found in fromhex() arg at position "
             +:+ PyVal.str_int (Z.of_nat (Hex.invalid_position state_hex)))
  end.

(** [QueryResponse], and [ApprovalResponse] with its two further fields. *)
Record QueryResponse := mkQueryResponse {
  r_question : string;
  r_resolved_question : string;
  r_query : string;
  r_result : option string;
  r_answer : string;
  r_success : bool;
  r_error : option string }.

Inductive Response : Type :=
  | Immediate (r : QueryResponse)
  | Approval (r : QueryResponse) (state_hex : option string) (message : option string).

(** A route returns a response or raises an [HTTPException] with a status
    code and a detail. *)
Definition Route : Type := World -> (Response + Z * string) * World.

(** The [except Exception] clause that closes every route. *)
Definition internal_error {A} (m : M A) (k : A -> Route) : Route :=
  fun w => match m w with
           | (Ok a, w') => k a w'
           | (Raise e, w') => (inr (500%Z, "Internal server error: " +:+ e), w')
           end.

(** [process_query]; the [HTTPException] for an empty question is raised
    inside the [try], with [str(e)] the status and the detail. *)
Definition process_query (user question : string) : Route :=
    internal_error
      (if String.eqb (Py.strip question) ""
       then raise "400: Question cannot be empty"
       else run_until_human_review user (Py.lower question)) (fun result w =>
      if negb (st_success result) then
        (inl (Immediate (mkQueryResponse question (st_resolved_question result) ""
                           (Some "") (st_answer result) false (Some (st_error result)))), w)
      else if String.eqb (default "" (st_intent result)) "chat"
              || (negb (String.eqb (st_answer result) "") && String.eqb (st_query result) "")
      then
        (inl (Immediate (mkQueryResponse (st_question result) (st_resolved_question result)
                           "" (Some "") (st_answer result) true None)), w)
      else
        (inl (Approval (mkQueryResponse (st_question result) (st_resolved_question result)
                          (st_query result) None
                          "Query generated and pending human approval." true None)
                (Some (encode_state result))
                (Some "Please review and approve the query to proceed.")), w)).

(** The state that [approve_and_execute_query] resumes from. *)
Definition approved_state (state_hex feedback : string) : Result State :=
  match decode_state state_hex with
  | Ok state => Ok (if String.eqb feedback "" then state else set_feedback feedback state)
  | Raise e => Raise e
  end.

(** [approve_and_execute_query] *)
Definition approve_and_execute_query (state_hex feedback : string) : Route :=
  internal_error
    (fun w => match approved_state state_hex feedback with
              | Ok state => finalize_after_approval state w
              | Raise e => (Raise e, w)
              end)
    (fun result w =>
       (inl (Immediate (mkQueryResponse (st_question result) (st_resolved_question result)
                          (st_query result) (Some (st_result result)) (st_answer result)
                          (st_success result) (Some (st_error result)))), w)).

(** [regenerate_query_with_feedback] of routes.py *)
Definition regenerate_route (state_hex feedback : string) : Route :=
  internal_error
    (fun w => match decode_state state_hex with
              | Ok state => regenerate_query_with_feedback state feedback w
              | Raise e => (Raise e, w)
              end)
    (fun result w =>
       if negb (st_success result) then
         (inl (Approval (mkQueryResponse (st_question result) (st_resolved_question result)
                           "" (Some "") (st_answer result) false (Some (st_error result)))
                 None None), w)
       else
         (inl (Approval (mkQueryResponse (st_question result) (st_resolved_question result)
                           (st_query result) None
                           "Query regenerated. You can approve or provide more feedback."
                           true None)
                 (Some (encode_state result)) (Some "Please review the new query.")), w)).

(* --------------------------------------------------------------------- *)
(** *** routes.py: the memory commands *)

(** [db_service.get_all_users]: the stored user names, most recently
    updated first; the store keeps the update times. *)
Variable get_all_users : Services -> list string.

(** The [data] of a [MemoryResponse]. *)
Inductive CommandData : Type :=
  | SummaryData (summary : Summary)
  | EntitiesData (entities : list string)
  | UsersData (users : list string).

Record MemoryResponse := mkMemoryResponse {
  mr_success : bool;
  mr_message : string;
  mr_data : option CommandData }.

(** [handle_memory_command] *)
Definition handle_memory_command (user command : string) (w : World)
  : MemoryResponse * World :=
  let command := Py.strip (Py.lower command) in
  if String.eqb command "/history" then
    let '(m, mm) := get_user_memory user (user_memories w) (services w) in
    (mkMemoryResponse true "Conversation history retrieved successfully"
       (Some (SummaryData (get_conversation_summary m))),
     mkWorld mm (services w) (database w))
  else if String.eqb command "/clear" then
    let '(mm, sv) := clear_user_memory user (user_memories w) (services w) in
    (mkMemoryResponse true "Memory cleared successfully" None,
     mkWorld mm sv (database w))
  else if String.eqb command "/entities" then
    let '(m, mm) := get_user_memory user (user_memories w) (services w) in
    (mkMemoryResponse true "Known entities retrieved successfully"
       (Some (EntitiesData (dict_keys (entity_memory m)))),
     mkWorld mm (services w) (database w))
  else if String.eqb command "/summary" then
    let '(m, mm) := get_user_memory user (user_memories w) (services w) in
    (mkMemoryResponse true "Conversation summary retrieved successfully"
       (Some (SummaryData (get_conversation_summary m))),
     mkWorld mm (services w) (database w))
  else if String.eqb command "/users" then
    (mkMemoryResponse true "All users retrieved successfully"
       (Some (UsersData (get_all_users (services w)))), w)
  else
    (mkMemoryResponse false
       ("Unknown command: " +:+ command
        +:+ ". Available commands: /history, /clear, /entities, /summary, /users")
       None, w).

End Agent.

Arguments mkWorld {DB}.
Arguments user_memories {DB}.
Arguments services {DB}.
Arguments database {DB}.
Arguments run_until_human_review literal_eval clock llm {DB}.
Arguments regenerate_query_with_feedback llm {DB}.
Arguments finalize_after_approval literal_eval clock llm {DB}.
Arguments execute_query {DB}.
Arguments generate_answer literal_eval clock llm {DB}.
Arguments basic_chat literal_eval clock llm {DB}.
Arguments write_query llm {DB}.
Arguments record_interaction literal_eval clock {DB}.
Arguments user_memory {DB}.
Arguments handle_memory_command {DB}.

(* ===================================================================== *)
(** ** A concrete environment for running the embedding *)
(* ===================================================================== *)

Module Demo.

(** A clock whose n-th reading is n microseconds after a fixed instant. *)
Fixpoint pad (width : nat) (s : string) : string :=
  match width with
  | O => s
  | S w => if (String.length s <=? w)%nat then String "0" (pad w s) else s
  end.

Definition clock (n : nat) : string :=
  "2025-03-01T09:30:00." +:+ pad 6 (PyVal.str_int (Z.of_nat n)).

(** A model that calls a greeting chat and everything else SQL. *)
Definition llm (p : Prompt) : Result string :=
  match p with
  | ClassificationPrompt _ question _ =>
      if Py.contains "hello" question then Ok "chat" else Ok "sql"
  | ChatPrompt _ _ _ => Ok "Hi, ask me about the data."
  | QueryPrompt _ _ _ _ _ _ _ => Ok "SELECT name, marks FROM students LIMIT 10"
  | AnswerPrompt _ _ _ result _ _ =>
      if Py.startswith "Error" result
      then Ok "Sorry, the query could not be run. "
      else Ok "alice has 95 marks."
  end.

(** A database that knows one table. *)
Definition db_run (query : string) (db : unit) : Outcome * unit :=
  if Py.contains "students" query
  then (Rows "[('alice', 95)]", db)
  else (DatabaseError "(sqlite3.OperationalError) no such table", db).

Definition run_sql : string -> unit -> Result string * unit :=
  QuerySQLDatabaseTool db_run.

Definition get_table_info_str (db : unit) : string :=
  "Table 'students':" +:+ Py.nl +:+ "  Columns: name, marks" +:+ Py.nl
  +:+ "  Detailed: name (TEXT), marks (INTEGER)".

Definition services0 : Services := mkServices ∅ true 0.

Definition world0 : World unit := mkWorld ∅ services0 tt.

Definition history_of (user : string) (w : World unit) : list Interaction :=
  match user_memories w !! user with
  | Some m => conversation_history m
  | None => []
  end.

(** A stand-in for [pickle]: every text field is written with its bytes
    0 and 1 escaped and closed by a 0 byte; the flag and the presence of
    [intent] are one byte each. *)
Definition put_string (s : string) : list Byte.byte :=
  flat_map (fun b => match b with
                     | Byte.x00 => [Byte.x01; Byte.x01]
                     | Byte.x01 => [Byte.x01; Byte.x02]
                     | _ => [b]
                     end) (list_byte_of_string s) ++ [Byte.x00].

Fixpoint get_string (bs : list Byte.byte) (acc : list Byte.byte)
  : option (string * list Byte.byte) :=
  match bs with
  | [] => None
  | Byte.x00 :: rest => Some (string_of_list_byte (rev acc), rest)
  | Byte.x01 :: Byte.x01 :: rest => get_string rest (Byte.x00 :: acc)
  | Byte.x01 :: Byte.x02 :: rest => get_string rest (Byte.x01 :: acc)
  | Byte.x01 :: _ => None
  | b :: rest => get_string rest (b :: acc)
  end.

Definition pickle_dumps (s : State) : list Byte.byte :=
  put_string (st_username s) ++ put_string (st_question s) ++ put_string (st_query s)
  ++ put_string (st_error s) ++ [if st_success s then Byte.x01 else Byte.x00]
  ++ put_string (st_result s) ++ put_string (st_answer s)
  ++ put_string (st_context_from_memory s) ++ put_string (st_resolved_question s)
  ++ put_string (st_feedback s)
  ++ match st_intent s with
     | Some i => Byte.x01 :: put_string i
     | None => [Byte.x00]
     end.

Definition pickle_loads (bs : list Byte.byte) : Result State :=
  let bad := Raise "invalid load key" in
  match get_string bs [] with
  | Some (user, bs) =>
  match get_string bs [] with
  | Some (question, bs) =>
  match get_string bs [] with
  | Some (query, bs) =>
  match get_string bs [] with
  | Some (error, flag :: bs) =>
  match get_string bs [] with
  | Some (result, bs) =>
  match get_string bs [] with
  | Some (answer, bs) =>
  match get_string bs [] with
  | Some (context, bs) =>
  match get_string bs [] with
  | Some (resolved, bs) =>
  match get_string bs [] with
  | Some (feedback, tag :: bs) =>
      let success := negb (Byte.eqb flag Byte.x00) in
      let mk := mkState user question query error success result answer context resolved
                  feedback in
      if Byte.eqb tag Byte.x00 then
        match bs with [] => Ok (mk None) | _ => bad end
      else
        match get_string bs [] with
        | Some (intent, []) => Ok (mk (Some intent))
        | _ => bad
        end
  | _ => bad end | _ => bad end | _ => bad end | _ => bad end | _ => bad end
  | _ => bad end | _ => bad end | _ => bad end | _ => bad end.

End Demo.


(* ===================================================================== *)
(** ** Vocabulary of the properties *)
(* ===================================================================== *)

(** The last [n] elements of a list, in order. *)
Definition most_recent {A} (n : nat) (l : list A) : list A :=
  drop (length l - n) l.

(** The four arguments of one [add_interaction] call. *)
Record Call := mkCall {
  c_question : string;
  c_query : string;
  c_result : string;
  c_answer : string }.

Definition content (i : Interaction) : Call :=
  mkCall (i_question i) (i_query i) (i_result i) (i_answer i).

(** The claim on the keys of the entity index, as the specification words
    it: no key is empty and every key is its own lower-casing. *)
Definition keys_nonempty_lower (ents : dict EntityInfo) : Prop :=
  Forall (fun k => k <> "" /\ Py.lower k = k) (dict_keys ents).

(** Its lower-casing half. *)
Definition keys_lower (ents : dict EntityInfo) : Prop :=
  Forall (fun k => Py.lower k = k) (dict_keys ents).

(** Two interactions with the same key [question_timestamp]. *)
Definition same_key (i j : Interaction) : bool :=
  String.eqb (interaction_id i) (interaction_id j).

(** Duplicates removed by key, the first occurrence kept: the elements of
    [l] before which no element of [l] has the same key, in the order of
    [l]. *)
Definition first_occurrences (l : list Interaction) : list Interaction :=
  flat_map (fun k => match nth_error l k with
                     | Some i => if existsb (same_key i) (firstn k l) then [] else [i]
                     | None => []
                     end) (seq 0 (length l)).

(** The first clause of the claim on the narrative, as the specification
    words it: the questions of the last two interactions appear in it. *)
Definition narrative_has_last_two (self : ConversationMemory) (current_question : string)
  : bool :=
  forallb (fun i => Py.contains (i_question i) (get_relevant_context self current_question))
    (most_recent 2 (conversation_history self)).

Section MemorySystem.

Variable literal_eval : string -> option pyval.
Variable clock : nat -> string.

(** A run of [add_interaction] calls on one memory object. *)
Fixpoint add_interactions (self : ConversationMemory) (calls : list Call) (sv : Services)
  : ConversationMemory * Services :=
  match calls with
  | [] => (self, sv)
  | c :: calls' =>
      let '(self', sv') :=
        add_interaction literal_eval clock self
          (c_question c) (c_query c) (c_result c) (c_answer c) sv in
      add_interactions self' calls' sv'
  end.

(** The name that pronouns are replaced with, read off the last result. *)
Definition last_name (self : ConversationMemory) : option string :=
  match last (conversation_history self) with
  | Some i =>
      match parsed_rows literal_eval (i_result i) with
      | Some items => first_name items
      | None => None
      end
  | None => None
  end.

(** The memory manager with the durable store behind it, and what can
    happen to them: a first access, a recorded interaction, a clear
    command, the connection going up or down, a restart of the process. *)
Definition MemSys : Type := gmap string ConversationMemory * Services.

Inductive mem_step : MemSys -> MemSys -> Prop :=
  | step_access user mm sv :
      mem_step (mm, sv) (snd (get_user_memory user mm sv), sv)
  | step_record user m question query result answer mm sv :
      mm !! user = Some m ->
      mem_step (mm, sv)
        (<[user := fst (add_interaction literal_eval clock m question query result answer sv)]> mm,
         snd (add_interaction literal_eval clock m question query result answer sv))
  | step_clear user mm sv :
      mem_step (mm, sv) (clear_user_memory user mm sv)
  | step_connection up mm sv :
      mem_step (mm, sv) (mm, mkServices (rows sv) up (ticks sv))
  | step_restart mm sv :
      mem_step (mm, sv) (∅, sv).

Inductive reachable : MemSys -> Prop :=
  | reach_start up t : reachable (∅, mkServices ∅ up t)
  | reach_step s s' : reachable s -> mem_step s s' -> reachable s'.

End MemorySystem.

(** The invariant of the memory system: lower-cased keys in every cached
    object and in every stored row. *)
Definition lower_everywhere (s : MemSys) : Prop :=
  (forall user m, fst s !! user = Some m -> keys_lower (entity_memory m))
  /\ (forall user d, rows (snd s) !! user = Some d -> keys_lower (md_entity_memory d)).

(** White space or digit: the characters of a LIMIT clause after its
    keyword. *)
Definition plain (c : ascii) : bool := Py.isspace c || Py.isdigit c.

(** The memory that [memory_manager.get_user_memory] gives for a user: the
    cached object, or the one loaded at a first access. *)
Definition memory_of {DB} (user : string) (w : World DB) : ConversationMemory :=
  fst (get_user_memory user (user_memories w) (services w)).


(* ===================================================================== *)
(** ** Scenarios *)
(* ===================================================================== *)

(** Concrete runs of the embedding in the environment of [Demo]. *)
Module Scenario.

Definition sys0 : MemSys := (∅, Demo.services0).

(** User [u] is seen for the first time. *)
Definition sys1 : MemSys := (snd (get_user_memory "u" (fst sys0) (snd sys0)), snd sys0).

Definition m1 : ConversationMemory := new_memory "u" 10 Demo.services0.

(** One interaction whose result names a student. *)
Definition named : ConversationMemory * Services :=
  add_interaction Literal.literal_eval Demo.clock m1
    "Who is the top student" "SELECT name, marks FROM students ORDER BY marks DESC LIMIT 1"
    "[('Alice', 95)]" "Alice is the top student." (snd sys1).

Definition sys_named : MemSys := (<["u" := fst named]> (fst sys1), snd named).

(** One interaction whose first column is an empty text. *)
Definition unnamed : ConversationMemory * Services :=
  add_interaction Literal.literal_eval Demo.clock m1
    "which names are missing" "SELECT name, id FROM students WHERE name = '' LIMIT 10"
    "[('', 7)]" "Student 7 has no name." (snd sys1).

Definition sys_unnamed : MemSys := (<["u" := fst unnamed]> (fst sys1), snd unnamed).

(** A memory whose one interaction has the result [[('alice', 95)]]. *)
Definition after_alice : ConversationMemory * Services :=
  add_interaction Literal.literal_eval Demo.clock m1
    "who is the top student" "SELECT name, marks FROM students ORDER BY marks DESC LIMIT 1"
    "[('alice', 95)]" "alice is the top student." (snd sys1).

(** Three questions about marks, then two turns of small talk. *)
Definition five : ConversationMemory * Services :=
  add_interactions Literal.literal_eval Demo.clock m1
    [ mkCall "show marks of alice" "SELECT marks FROM students WHERE name = 'alice'"
        "[(95,)]" "alice has 95 marks.";
      mkCall "show marks of bob" "SELECT marks FROM students WHERE name = 'bob'"
        "[(71,)]" "bob has 71 marks.";
      mkCall "show marks of carol" "SELECT marks FROM students WHERE name = 'carol'"
        "[(64,)]" "carol has 64 marks.";
      mkCall "hello there" "" "" "Hi, ask me about the data.";
      mkCall "thanks a lot" "" "" "You are welcome." ]
    (snd sys1).

(** A query on a table the database does not have, awaiting approval. *)
Definition failing : State :=
  mkState "u" "list the teachers" "SELECT name FROM teachers LIMIT 10" "" true "" ""
    "" "list the teachers" "" (Some "sql").

(** A greeting, answered at once. *)
Definition chat_run : Result State * World unit :=
  run_until_human_review Literal.literal_eval Demo.clock Demo.llm Demo.get_table_info_str
    "u" "hello there" Demo.world0.

(** A question that needs SQL: the run pauses, then the query is approved. *)
Definition sql_pause : Result State * World unit :=
  run_until_human_review Literal.literal_eval Demo.clock Demo.llm Demo.get_table_info_str
    "u" "who is the top student" Demo.world0.

Definition sql_final : Result State * World unit :=
  match fst sql_pause with
  | Ok paused =>
      finalize_after_approval Literal.literal_eval Demo.clock Demo.llm Demo.run_sql
        paused (snd sql_pause)
  | Raise e => (Raise e, snd sql_pause)
  end.

(** A question typed with a space at its end, paused for approval. *)
Definition paused : State :=
  mkState "u" "list the students " "SELECT name, marks FROM students LIMIT 10" "" true
    "" "" "" "list the students " "" (Some "sql").

End Scenario.

(* ===================================================================== *)
(** ** Further vocabulary and scenarios *)
(* ===================================================================== *)

(** Whether [_extract_question_patterns] appends under [key] for a
    lower-cased question: the key is [student_queries] and the question has
    "student", or the key is [<col>_queries] for a column word it has. *)
Definition pattern_hit (question_lower key : string) : bool :=
  (String.eqb key "student_queries" && Py.contains "student" question_lower)
  || existsb (fun col => String.eqb key (col +:+ "_queries")
                         && Py.contains col question_lower) common_columns.

(** The list kept under a key of the pattern index, empty when absent. *)
Definition patterns_under (key : string) (pats : dict (list Pattern)) : list Pattern :=
  default [] (dict_get key pats).

(** An entity entry written by the interaction with these three texts. *)
Definition written_by (question result answer : string) (info : EntityInfo) : Prop :=
  e_question info = question /\ e_full_result info = result /\ e_answer info = answer.

Definition backtick : ascii := ascii_of_nat 96.

Definition no_backtick (s : string) : bool :=
  Py.all_chars (fun c => negb (Ascii.eqb c backtick)) s.

Module Cases.

(** A store without a connection. *)
Definition offline : Services := mkServices ∅ false 0.

(** User [v] has one interaction on record; then user [u] records one. *)
Definition world_v : World unit :=
  snd (record_interaction Literal.literal_eval Demo.clock "v"
         "show marks of bob" "SELECT marks FROM students WHERE name = 'bob'"
         "[(71,)]" "bob has 71 marks." Demo.world0).

Definition world_uv : World unit :=
  snd (record_interaction Literal.literal_eval Demo.clock "u"
         "hello there" "" "" "Hi." world_v).

(** A model that fails on every call. *)
Definition llm_down (p : Prompt) : Result string := Raise "connection refused".

(** A model that wraps its query in a fenced block. *)
Definition llm_fenced (p : Prompt) : Result string :=
  match p with
  | QueryPrompt _ _ _ _ _ _ _ =>
      Ok (fence +:+ "sql" +:+ Py.nl +:+ "SELECT name FROM students LIMIT 10"
          +:+ Py.nl +:+ fence)
  | _ => Demo.llm p
  end.

End Cases.

(* ===================================================================== *)
(** ** The schema text and its reading by the /schema route *)
(* ===================================================================== *)

Module Schema.

(** [s.split(sep)] for a non-empty separator: the pieces between the
    non-overlapping occurrences of [sep], found left to right.  [skip]
    counts the characters of a matched separator still to be passed. *)
Fixpoint split_sep (sep : string) (skip : nat) (s : string) : list string :=
  match s with
  | EmptyString => [EmptyString]
  | String c s' =>
      match skip with
      | S k => split_sep sep k s'
      | O =>
          if Py.startswith sep s
          then EmptyString :: split_sep sep (String.length sep - 1) s'
          else match split_sep sep 0 s' with
               | p :: ps => String c p :: ps
               | [] => [String c EmptyString]
               end
      end
  end.

Definition split (sep s : string) : list string := split_sep sep 0 s.

(** The block of one table in [SQLAgent.get_table_info_str]: [columns] are
    the pairs of a column name and its type, [col[1]] and [col[2]] of the
    rows of [PRAGMA table_info]. *)
Definition column_entry (col : string * string) : string :=
  fst col +:+ " (" +:+ snd col +:+ ")".

Definition format_table (table : string) (columns : list (string * string)) : string :=
  ("Table '" +:+ table +:+ "':" +:+ Py.nl)
  +:+ ("  Columns: " +:+ Py.join ", " (map fst columns) +:+ Py.nl)
  +:+ ("  Detailed: " +:+ Py.join ", " (map column_entry columns)).

(** The text that [get_table_info_str] returns for the blocks it built. *)
Definition join_tables (table_infos : list string) : string :=
  match table_infos with
  | [] => "No tables found in database"
  | _ => Py.join (Py.nl +:+ Py.nl) table_infos
  end.

(** One element of a table's column list in the /schema response. *)
Record ColumnInfo := mkColumnInfo {
  col_name : string;
  col_type : string;
  col_nullable : bool;
  col_primary_key : bool }.

(** The body of the loop over [column_entries]. *)
Definition parse_entry (entry : string) : list ColumnInfo :=
  let entry := Py.strip entry in
  if Py.contains "(" entry && Py.contains ")" entry then
    let name := Py.strip (nth 0 (split "(" entry) "") in
    let col_type := Py.strip (nth 0 (split ")" (nth 1 (split "(" entry) "")) "") in
    [mkColumnInfo name col_type true false]
  else [].

(** The body of the loop over [lines[1:]]. *)
Definition parse_line (line : string) : list ColumnInfo :=
  if Py.startswith "Detailed:" (Py.strip line) then
    let detailed_info := Py.strip (nth 1 (split "Detailed:" line) "") in
    match detailed_info with
    | EmptyString => []
    | _ => flat_map parse_entry (split ", " detailed_info)
    end
  else [].

(** The body of the loop over [table_blocks]. *)
Definition parse_block (schema_data : dict (list ColumnInfo)) (block : string)
  : dict (list ColumnInfo) :=
  match Py.strip block with
  | EmptyString => schema_data
  | stripped =>
      let lines := split Py.nl stripped in
      let first_line := nth 0 lines "" in
      if Py.contains "Table '" first_line && Py.contains "':" first_line then
        let table_name := nth 0 (split "':" (nth 1 (split "Table '" first_line) "")) "" in
        let columns := flat_map parse_line (tail lines) in
        match columns with
        | [] => schema_data
        | _ => dict_set table_name columns schema_data
        end
      else schema_data
  end.

(** The ["schema"] of the response of [get_database_schema]. *)
Definition parse_schema (table_info_str : string) : dict (list ColumnInfo) :=
  fold_left parse_block (split (Py.nl +:+ Py.nl) table_info_str) [].

(** Letters, digits and the underscore. *)
Definition word_char (c : ascii) : bool :=
  Py.is_upper c || Py.is_lower c || Py.isdigit c || Ascii.eqb c "_".

(** A non-empty text of such characters: a table or column name, a type
    name without parameters. *)
Definition identifier (s : string) : Prop :=
  s <> "" /\ Py.all_chars word_char s = true.

(** A table as the database describes it: its name and, per column, the
    name and the type. *)
Definition Table : Type := string * list (string * string).

Definition described (t : Table) : Prop :=
  identifier (fst t) /\ snd t <> [] /\
  Forall (fun col => identifier (fst col) /\ identifier (snd col)) (snd t).

Definition table_block (t : Table) : string := format_table (fst t) (snd t).

(** What the route is expected to show for a column and for a table. *)
Definition column_of (col : string * string) : ColumnInfo :=
  mkColumnInfo (fst col) (snd col) true false.

Definition table_of (t : Table) : string * list ColumnInfo :=
  (fst t, map column_of (snd t)).

(** A column with a type that may take an argument, as [VARCHAR(255)]:
    the name, the type name and the argument. *)
Definition TypedColumn : Type := string * string * option string.

Definition type_text (col : TypedColumn) : string :=
  match snd col with
  | Some arg => snd (fst col) +:+ "(" +:+ arg +:+ ")"
  | None => snd (fst col)
  end.

(** The column as the database describes it, and with the bare type. *)
Definition written (col : TypedColumn) : string * string :=
  (fst (fst col), type_text col).

Definition bare (col : TypedColumn) : string * string := fst col.

Definition typed (col : TypedColumn) : Prop :=
  identifier (fst (fst col)) /\ identifier (snd (fst col))
  /\ match snd col with Some arg => identifier arg | None => True end.

(** The character [x] does not occur in [s]. *)
Definition avoids (x : ascii) (s : string) : bool :=
  Py.all_chars (fun c => negb (Ascii.eqb c x)) s.

Definition newline : ascii := ascii_of_nat 10.

(** The entry written for the column [col] is read as [c], and nothing in
    [col] breaks the line or the list of entries it stands in. *)
Definition reads_as (col : string * string) (c : ColumnInfo) : Prop :=
  identifier (fst col)
  /\ avoids newline (snd col) = true
  /\ avoids "," (snd col) = true
  /\ avoids ":" (snd col) = true
  /\ parse_entry (column_entry col) = [c].

(** Every line break of [s] is followed by a character that is not a line
    break. *)
Fixpoint spaced (s : string) : bool :=
  match s with
  | EmptyString => true
  | String c s' =>
      (if Ascii.eqb c newline
       then match s' with
            | EmptyString => false
            | String d _ => negb (Ascii.eqb d newline)
            end
       else true) && spaced s'
  end.

End Schema.

(* ===================================================================== *)
(** ** Bounded history *)
(* ===================================================================== *)

Section HistoryFacts.

Variable literal_eval : string -> option pyval.
Variable clock : nat -> string.

Lemma slice_from_neg {A} (n : Z) (l : list A) :
  (0 < n)%Z -> Py.slice_from (- n) l = most_recent (Z.to_nat n) l.
Proof.
  intros Hn. unfold Py.slice_from, most_recent.
  replace (- n <? 0)%Z with true by (symmetry; apply Z.ltb_lt; lia).
  f_equal. lia.
Qed.

Lemma most_recent_all {A} (n : nat) (l : list A) :
  length l <= n -> most_recent n l = l.
Proof.
  intros Hle. unfold most_recent.
  replace (length l - n) with 0 by lia. reflexivity.
Qed.

Lemma most_recent_length {A} (n : nat) (l : list A) :
  length (most_recent n l) = Nat.min n (length l).
Proof. unfold most_recent. rewrite length_drop. lia. Qed.

Lemma most_recent_app {A} (n : nat) (l l' : list A) :
  most_recent n (most_recent n l ++ l') = most_recent n (l ++ l').
Proof.
  unfold most_recent.
  rewrite !length_app, length_drop, !drop_app, drop_drop, length_drop.
  f_equal; f_equal; lia.
Qed.

Lemma extract_entities_keeps self question result answer sv :
  let self' := fst (_extract_entities literal_eval clock self question result answer sv) in
  conversation_history self' = conversation_history self
  /\ max_history self' = max_history self
  /\ username self' = username self.
Proof.
  unfold _extract_entities.
  destruct (parsed_rows literal_eval result) as [items|]; [|done].
  destruct (store_entities clock question result answer items (entity_memory self) sv).
  done.
Qed.

(** One call: the history becomes the most recent [max_history] entries of
    the old history followed by the new interaction. *)
Lemma add_interaction_history self question query result answer sv :
  (0 < max_history self)%Z ->
  let self' := fst (add_interaction literal_eval clock self question query result answer sv) in
  conversation_history self'
  = most_recent (Z.to_nat (max_history self))
      (conversation_history self
       ++ [mkInteraction (clock (ticks sv)) question query result answer])
  /\ max_history self' = max_history self.
Proof.
  intros Hpos. unfold add_interaction. simpl.
  set (h := conversation_history self ++ [_]).
  set (h' := if (max_history self <? Z.of_nat (length h))%Z then _ else _).
  set (self2 := _extract_question_patterns _ _ _).
  pose proof (extract_entities_keeps self2 question result answer
                (mkServices (rows sv) (connection sv) (S (ticks sv)))) as Hk.
  destruct (_extract_entities literal_eval clock self2 question result answer _) as [self3 sv2].
  destruct (save_to_database self3 sv2) as [ok sv3]. simpl in *.
  destruct Hk as (Hh & Hm & _). rewrite Hh, Hm. split; [|done].
  subst h'. destruct (Z.ltb_spec (max_history self) (Z.of_nat (length h))).
  - by apply slice_from_neg.
  - symmetry. apply most_recent_all. lia.
Qed.

Lemma add_interactions_history self calls sv :
  (0 < max_history self)%Z ->
  calls <> [] ->
  let self' := fst (add_interactions literal_eval clock self calls sv) in
  map content (conversation_history self')
  = most_recent (Z.to_nat (max_history self))
      (map content (conversation_history self) ++ calls)
  /\ max_history self' = max_history self.
Proof.
  revert self sv. induction calls as [|c calls IH]; intros self sv Hpos Hne; [done|].
  simpl.
  pose proof (add_interaction_history self (c_question c) (c_query c) (c_result c)
                (c_answer c) sv Hpos) as [Hh Hm].
  destruct (add_interaction literal_eval clock self _ _ _ _ sv) as [self1 sv1].
  simpl in Hh, Hm.
  assert (Hc : map content (conversation_history self1)
               = most_recent (Z.to_nat (max_history self))
                   (map content (conversation_history self) ++ [c])).
  { rewrite Hh. unfold most_recent. rewrite <- skipn_map, map_app, !length_app, !length_map.
    simpl. by destruct c. }
  destruct calls as [|c' calls'].
  - simpl. done.
  - destruct (IH self1 sv1) as [IHh IHm]; [lia | done |].
    rewrite IHh, IHm, Hm, Hc. split; [|done].
    rewrite most_recent_app, <- app_assoc. done.
Qed.

(** C3.  Bounded history, for a positive bound (the default is 10): after
    any non-empty run of [add_interaction] calls the history holds at most
    [max_history] entries, and they are exactly the most recent
    [max_history] of all interactions, the earlier history followed by the
    recorded calls, in arrival order. *)
Theorem bounded_history self calls sv :
  (0 < max_history self)%Z ->
  calls <> [] ->
  let self' := fst (add_interactions literal_eval clock self calls sv) in
  (Z.of_nat (length (conversation_history self')) <= max_history self)%Z
  /\ map content (conversation_history self')
     = most_recent (Z.to_nat (max_history self))
         (map content (conversation_history self) ++ calls).
Proof.
  intros Hpos Hne self'.
  destruct (add_interactions_history self calls sv Hpos Hne) as [Hh _].
  fold self' in Hh. split; [|done].
  rewrite <- (length_map content), Hh, most_recent_length. lia.
Qed.

End HistoryFacts.

(** The bound at work: three calls on a memory that keeps two. *)
Lemma bounded_history_witness :
  let self := mkMemory "u" 2 [] [] [] in
  let calls := [mkCall "q1" "" "" "a1"; mkCall "q2" "s2" "[]" "a2"; mkCall "q3" "" "" "a3"] in
  let self' := fst (add_interactions Literal.literal_eval Demo.clock self calls Demo.services0) in
  (0 < max_history self)%Z /\ calls <> []
  /\ (Z.of_nat (length (conversation_history self')) <= max_history self)%Z
  /\ map content (conversation_history self')
     = most_recent (Z.to_nat (max_history self))
         (map content (conversation_history self) ++ calls).
Proof.
  intros self calls self'.
  split; [reflexivity|]. split; [discriminate|].
  apply (bounded_history Literal.literal_eval Demo.clock self calls Demo.services0);
    [reflexivity | discriminate].
Defined.

(** With a bound of zero the slice [history[-0:]] is the whole list, so
    nothing is dropped; the bound is only kept for positive values. *)
Example zero_bound_keeps_entry :
  conversation_history
    (fst (add_interaction Literal.literal_eval Demo.clock (mkMemory "u" 0 [] [] [])
            "q" "" "" "a" Demo.services0))
  = [mkInteraction (Demo.clock 0) "q" "" "" "a"].
Proof. reflexivity. Qed.

(* ===================================================================== *)
(** ** Keys of the entity index *)
(* ===================================================================== *)

Lemma lower_char_idem (c : ascii) : Py.lower_char (Py.lower_char c) = Py.lower_char c.
Proof. destruct c as [[] [] [] [] [] [] [] []]; reflexivity. Qed.

Lemma lower_idem (s : string) : Py.lower (Py.lower s) = Py.lower s.
Proof.
  unfold Py.lower. induction s as [|c s IH]; simpl; [done|].
  by rewrite lower_char_idem, IH.
Qed.

Lemma dict_set_keys {V} (P : string -> Prop) k (v : V) (d : dict V) :
  P k -> Forall P (dict_keys d) -> Forall P (dict_keys (dict_set k v d)).
Proof.
  intros Hk. unfold dict_keys. induction d as [|[k' v'] d IH]; simpl; intros Hd.
  - by constructor.
  - inversion Hd; subst. destruct (String.eqb k k'); simpl; constructor; auto.
Qed.

Section EntityFacts.

Variable literal_eval : string -> option pyval.
Variable clock : nat -> string.

Lemma store_entities_keys question result answer items ents sv :
  keys_lower ents ->
  keys_lower (fst (store_entities clock question result answer items ents sv)).
Proof.
  revert ents sv. induction items as [|item items IH]; intros ents sv Hents; simpl; [done|].
  destruct (tuple_head item) as [x|]; [|by apply IH].
  apply IH. apply dict_set_keys; [apply lower_idem | done].
Qed.

Lemma extract_entities_keys self question result answer sv :
  keys_lower (entity_memory self) ->
  keys_lower (entity_memory
                (fst (_extract_entities literal_eval clock self question result answer sv))).
Proof.
  intros Hk. unfold _extract_entities.
  destruct (parsed_rows literal_eval result) as [items|]; [|done].
  pose proof (store_entities_keys question result answer items _ sv Hk) as Hs.
  destruct (store_entities clock question result answer items (entity_memory self) sv).
  done.
Qed.

Lemma store_entities_rows question result answer items ents sv :
  rows (snd (store_entities clock question result answer items ents sv)) = rows sv.
Proof.
  revert ents sv. induction items as [|item items IH]; intros ents sv; simpl; [done|].
  destruct (tuple_head item) as [x|]; [|by apply IH].
  by rewrite IH.
Qed.

Lemma extract_entities_rows self question result answer sv :
  rows (snd (_extract_entities literal_eval clock self question result answer sv)) = rows sv.
Proof.
  unfold _extract_entities.
  destruct (parsed_rows literal_eval result) as [items|]; [|done].
  pose proof (store_entities_rows question result answer items (entity_memory self) sv) as Hs.
  destruct (store_entities clock question result answer items (entity_memory self) sv).
  done.
Qed.

(** What [add_interaction] leaves behind: the object it returns is also
    what the durable store holds for the user, when the row was written. *)
Lemma add_interaction_keys self question query result answer sv :
  keys_lower (entity_memory self) ->
  let r := add_interaction literal_eval clock self question query result answer sv in
  keys_lower (entity_memory (fst r))
  /\ forall user d, rows (snd r) !! user = Some d ->
       d = mkMemoryData (conversation_history (fst r)) (question_patterns (fst r))
             (entity_memory (fst r))
       \/ rows sv !! user = Some d.
Proof.
  intros Hk. unfold add_interaction. simpl.
  set (self2 := _extract_question_patterns _ _ _).
  set (sv1 := mkServices (rows sv) (connection sv) (S (ticks sv))).
  pose proof (extract_entities_keys self2 question result answer sv1 Hk) as Hs.
  pose proof (extract_entities_rows self2 question result answer sv1) as Hrows.
  destruct (_extract_entities literal_eval clock self2 question result answer sv1)
    as [self3 sv2].
  simpl in Hs, Hrows.
  unfold save_to_database, db_save_user_memory.
  destruct (connection sv2); simpl; (split; [done|]); intros user d Hd.
  - destruct (decide (user = username self3)) as [->|Hne].
    + rewrite lookup_insert_eq in Hd. left. congruence.
    + rewrite lookup_insert_ne in Hd by done. right. congruence.
  - right. congruence.
Qed.

Lemma mem_step_lower s s' :
  mem_step literal_eval clock s s' -> lower_everywhere s -> lower_everywhere s'.
Proof.
  intros Hstep [Hmm Hrows]. destruct Hstep; simpl in *.
  - (* first access *)
    split; [|done]. unfold get_user_memory.
    destruct (mm !! user) as [m|] eqn:Hu; simpl; [done|].
    intros user' m'. destruct (decide (user = user')) as [->|Hne].
    + rewrite lookup_insert_eq. intros [= <-].
      unfold new_memory, load_from_database, db_get_user_memory. simpl.
      destruct (connection sv); [|by constructor].
      destruct (rows sv !! user') as [d|] eqn:Hd; [|by constructor].
      simpl. by eapply Hrows.
    + rewrite lookup_insert_ne by done. apply Hmm.
  - (* a recorded interaction *)
    destruct (add_interaction_keys m question query result answer sv) as [Hk Hr];
      [by eapply Hmm|].
    split; cbn [fst snd].
    + intros user' m'. destruct (decide (user = user')) as [->|Hne].
      * rewrite lookup_insert_eq. by intros [= <-].
      * rewrite lookup_insert_ne by done. apply Hmm.
    + intros user' d Hd. destruct (Hr user' d Hd) as [-> | Hold]; [done | by eapply Hrows].
  - (* clear *)
    unfold clear_user_memory, clear_memory, db_clear_user_memory.
    assert (Hcl : forall u, lower_everywhere
              (mm, (if connection sv
                    then (true, mkServices
                                  match rows sv !! u with
                                  | Some _ => <[u := mkMemoryData [] [] []]> (rows sv)
                                  | None => rows sv
                                  end (connection sv) (ticks sv))
                    else (false, sv)).2)).
    { intros u. split; [done|]. destruct (connection sv); simpl; [|done].
      destruct (rows sv !! u) eqn:Hu; [|done].
      intros user' d. destruct (decide (u = user')) as [->|Hne].
      - rewrite lookup_insert_eq. intros [= <-]. by constructor.
      - rewrite lookup_insert_ne by done. apply Hrows. }
    destruct (mm !! user) as [m|] eqn:Hu; simpl.
    + destruct (Hcl (username m)) as [_ Hr]. split; cbn [fst snd]; [|done].
      intros user' m'. destruct (decide (user = user')) as [->|Hne].
      * by rewrite lookup_delete_eq.
      * rewrite lookup_delete_ne by done. apply Hmm.
    + apply Hcl.
  - done.
  - split; cbn [fst snd]; [|done]. intros user m. by rewrite lookup_empty.
Qed.

Lemma reachable_lower s : reachable literal_eval clock s -> lower_everywhere s.
Proof.
  induction 1 as [up t | s s' _ IH Hstep].
  - split; intros user x; cbn [fst snd rows]; by rewrite lookup_empty.
  - by eapply mem_step_lower.
Qed.

(** C8, as amended.  In every reachable state of the memory system, every
    key of a user's entity index equals its own lower-casing. *)
Theorem entity_keys_lower s user m k :
  reachable literal_eval clock s ->
  fst s !! user = Some m ->
  In k (dict_keys (entity_memory m)) ->
  Py.lower k = k.
Proof.
  intros Hr Hu Hk. destruct (reachable_lower s Hr) as [Hmm _].
  specialize (Hmm user m Hu). unfold keys_lower in Hmm.
  rewrite Forall_forall in Hmm. apply Hmm. by apply list_elem_of_In.
Qed.

End EntityFacts.

Lemma reachable_sys1 : reachable Literal.literal_eval Demo.clock Scenario.sys1.
Proof.
  apply (reach_step _ _ Scenario.sys0 Scenario.sys1).
  - apply reach_start.
  - apply (step_access _ _ "u" ∅ Demo.services0).
Qed.

Lemma reachable_sys_named : reachable Literal.literal_eval Demo.clock Scenario.sys_named.
Proof.
  apply (reach_step _ _ Scenario.sys1 Scenario.sys_named); [apply reachable_sys1|].
  exact (step_record _ _ "u" Scenario.m1 _ _ _ _ (fst Scenario.sys1) Demo.services0 eq_refl).
Qed.

Lemma reachable_sys_unnamed : reachable Literal.literal_eval Demo.clock Scenario.sys_unnamed.
Proof.
  apply (reach_step _ _ Scenario.sys1 Scenario.sys_unnamed); [apply reachable_sys1|].
  exact (step_record _ _ "u" Scenario.m1 _ _ _ _ (fst Scenario.sys1) Demo.services0 eq_refl).
Qed.

(** After an interaction with result [[('Alice', 95)]] the one key of the
    index is [alice]. *)
Lemma entity_keys_lower_witness :
  reachable Literal.literal_eval Demo.clock Scenario.sys_named
  /\ fst Scenario.sys_named !! "u" = Some (fst Scenario.named)
  /\ In "alice" (dict_keys (entity_memory (fst Scenario.named)))
  /\ Py.lower "alice" = "alice".
Proof.
  assert (Hl : fst Scenario.sys_named !! "u" = Some (fst Scenario.named))
    by apply lookup_insert_eq.
  assert (Hk : In "alice" (dict_keys (entity_memory (fst Scenario.named))))
    by (left; reflexivity).
  split; [apply reachable_sys_named|]. split; [exact Hl|]. split; [exact Hk|].
  exact (entity_keys_lower Literal.literal_eval Demo.clock Scenario.sys_named "u"
           (fst Scenario.named) "alice" reachable_sys_named Hl Hk).
Defined.

(** C8, the claim as stated, refuted: a result row whose first element is
    the empty text puts the empty key into the index of a reachable
    memory. *)
Lemma entity_key_can_be_empty :
  reachable Literal.literal_eval Demo.clock Scenario.sys_unnamed
  /\ fst Scenario.sys_unnamed !! "u" = Some (fst Scenario.unnamed)
  /\ dict_keys (entity_memory (fst Scenario.unnamed)) = [""]
  /\ ~ keys_nonempty_lower (entity_memory (fst Scenario.unnamed)).
Proof.
  split; [apply reachable_sys_unnamed|].
  split; [apply lookup_insert_eq|].
  assert (Hk : dict_keys (entity_memory (fst Scenario.unnamed)) = [""]) by reflexivity.
  split; [exact Hk|].
  unfold keys_nonempty_lower. rewrite Hk. intros HF.
  inversion HF as [|k ks [Hne _] _]; subst. by apply Hne.
Qed.

(* ===================================================================== *)
(** ** Pronoun resolution *)
(* ===================================================================== *)

Lemma replace_absent (old new s : string) :
  Py.contains old s = false -> Py.replace old new s = s.
Proof.
  destruct old as [|a old]; [by destruct s|].
  unfold Py.replace. induction s as [|c s IH]; [done|].
  intros Hc. cbn [Py.contains] in Hc. apply orb_false_elim in Hc as [Hs Hc].
  cbn [Py.replace_from]. rewrite Hs. by rewrite IH.
Qed.

(** An occurrence at the head is replaced whatever follows it. *)
Lemma startswith_app (p s : string) : Py.startswith p (p +:+ s) = true.
Proof. induction p as [|a p IH]; simpl; [done|]. by rewrite Ascii.eqb_refl. Qed.

Lemma replace_from_skip (old new p s : string) :
  Py.replace_from old new (String.length p) (p +:+ s) = Py.replace_from old new 0 s.
Proof.
  induction p as [|a p IH]; simpl; [by destruct s|]. exact IH.
Qed.

Lemma replace_here (a : ascii) (old new s : string) :
  Py.replace (String a old) new (String a old +:+ s)
  = new +:+ Py.replace (String a old) new s.
Proof.
  unfold Py.replace. change (String a old +:+ s) with (String a (old +:+ s)).
  cbn [Py.replace_from].
  change (String a (old +:+ s)) with (String a old +:+ s).
  rewrite startswith_app. f_equal.
  replace (String.length (String a old) - 1) with (String.length old) by (simpl; lia).
  apply replace_from_skip.
Qed.

(** A character that starts no occurrence is kept. *)
Lemma replace_next (old new : string) (c : ascii) (s : string) :
  old <> "" ->
  Py.startswith old (String c s) = false ->
  Py.replace old new (String c s) = String c (Py.replace old new s).
Proof.
  intros Hne Hs. destruct old as [|a old]; [done|].
  unfold Py.replace. cbn [Py.replace_from]. by rewrite Hs.
Qed.

Section ResolutionFacts.

Variable literal_eval : string -> option pyval.

(** One turn of the loop, when the last result gives a name. *)
Lemma resolve_pronoun_with_name self question_lower resolved pronoun name :
  last_name literal_eval self = Some name ->
  resolve_pronoun literal_eval self question_lower resolved pronoun
  = if Py.contains pronoun question_lower
    then Py.replace pronoun name resolved else resolved.
Proof.
  unfold last_name, resolve_pronoun. intros Hn.
  destruct (Py.contains pronoun question_lower); [|done].
  destruct (last (conversation_history self)) as [i|]; [|done].
  destruct (parsed_rows literal_eval (i_result i)) as [items|]; [|done].
  by rewrite Hn.
Qed.

Lemma resolve_with_name self question name :
  last_name literal_eval self = Some name ->
  asks_for_marks (Py.lower question) = false ->
  resolve_contextual_references literal_eval self question
  = fold_left (fun resolved pronoun =>
                 if Py.contains pronoun (Py.lower question)
                 then Py.replace pronoun name resolved else resolved)
      pronouns question.
Proof.
  intros Hn Hm. unfold resolve_contextual_references. rewrite Hm.
  generalize question at 2 4. induction pronouns as [|p ps IH]; intros r; simpl; [done|].
  by rewrite (resolve_pronoun_with_name _ _ _ _ name Hn), IH.
Qed.

(** A pronoun that does not occur in the text with its own letters
    changes nothing, detected or not. *)
Lemma resolve_pronoun_absent self question_lower resolved pronoun :
  Py.contains pronoun resolved = false ->
  resolve_pronoun literal_eval self question_lower resolved pronoun = resolved.
Proof.
  intros Hc. unfold resolve_pronoun.
  destruct (Py.contains pronoun question_lower); [|done].
  destruct (last (conversation_history self)) as [i|]; [|done].
  destruct (parsed_rows literal_eval (i_result i)) as [items|]; [|done].
  destruct (first_name items); [|done].
  by apply replace_absent.
Qed.

Lemma last_name_of_history self hist i name rest :
  conversation_history self = hist ++ [i] ->
  Py.startswith "[" (i_result i) && Py.endswith "]" (i_result i) = true ->
  literal_eval (i_result i) = Some (PyList (PyTuple (PyStr name :: rest) :: [])) ->
  last_name literal_eval self = Some name.
Proof.
  intros Hh Hb Hl. unfold last_name, parsed_rows.
  by rewrite Hh, last_snoc, Hb, Hl.
Qed.

(** C7.  With [[('alice', 95)]] as the most recent result, the question
    "what is her email" resolves to "what is alice email": the pronoun is
    replaced by the first element of the first tuple of that result. *)
Theorem her_becomes_alice self hist ts query ans :
  literal_eval "[('alice', 95)]" = Some (PyList [PyTuple [PyStr "alice"; PyInt 95]]) ->
  conversation_history self
  = hist ++ [mkInteraction ts "who is the top student" query "[('alice', 95)]" ans] ->
  resolve_contextual_references literal_eval self "what is her email"
  = "what is alice email".
Proof.
  intros Hl Hh.
  rewrite (resolve_with_name self _ "alice"); [reflexivity | | reflexivity].
  by eapply last_name_of_history.
Qed.

(** C10.  Pronoun resolution is literal substring replacement.  When the
    last result gives a name and the marks rewrite does not apply, the
    resolved question is the question with [str.replace] applied for each
    pronoun found in its lower-casing, so occurrences inside longer words
    are replaced too; and a question in which no pronoun occurs with
    lower-case letters comes back unchanged, whatever its lower-casing
    contains. *)
Theorem pronoun_replacement_is_literal self question name :
  last_name literal_eval self = Some name ->
  asks_for_marks (Py.lower question) = false ->
  resolve_contextual_references literal_eval self question
  = fold_left (fun resolved pronoun =>
                 if Py.contains pronoun (Py.lower question)
                 then Py.replace pronoun name resolved else resolved)
      pronouns question
  /\ ((forall pronoun, In pronoun pronouns -> Py.contains pronoun question = false) ->
      resolve_contextual_references literal_eval self question = question).
Proof.
  intros Hn Hm. split; [by apply resolve_with_name|].
  intros Habs. unfold resolve_contextual_references. rewrite Hm.
  revert Habs. generalize pronouns. intros ps.
  induction ps as [|p ps IH]; intros Habs; simpl; [done|].
  rewrite resolve_pronoun_absent by (apply Habs; by left).
  apply IH. intros q Hq. apply Habs. by right.
Qed.

End ResolutionFacts.

Lemma her_becomes_alice_witness :
  Literal.literal_eval "[('alice', 95)]" = Some (PyList [PyTuple [PyStr "alice"; PyInt 95]])
  /\ conversation_history (fst Scenario.after_alice)
     = [] ++ [mkInteraction (Demo.clock 0) "who is the top student"
                "SELECT name, marks FROM students ORDER BY marks DESC LIMIT 1"
                "[('alice', 95)]" "alice is the top student."]
  /\ resolve_contextual_references Literal.literal_eval (fst Scenario.after_alice)
       "what is her email"
     = "what is alice email".
Proof.
  split; [reflexivity|]. split; [reflexivity|].
  apply (her_becomes_alice Literal.literal_eval (fst Scenario.after_alice) []
           (Demo.clock 0) "SELECT name, marks FROM students ORDER BY marks DESC LIMIT 1"
           "alice is the top student."); reflexivity.
Defined.

(** The "her" inside "where" is replaced like the word "her"; then "he",
    found in the lower-cased question, no longer occurs.  In "What is HER
    email" both pronouns are detected and neither occurs as written. *)
Lemma pronoun_replacement_is_literal_witness :
  last_name Literal.literal_eval (fst Scenario.after_alice) = Some "alice"
  /\ asks_for_marks (Py.lower "where is her book") = false
  /\ resolve_contextual_references Literal.literal_eval (fst Scenario.after_alice)
       "where is her book"
     = "walicee is alice book"
  /\ Py.contains "her" (Py.lower "What is HER email") = true
  /\ resolve_contextual_references Literal.literal_eval (fst Scenario.after_alice)
       "What is HER email"
     = "What is HER email".
Proof.
  split; [reflexivity|]. split; [reflexivity|]. split; [|split; [reflexivity|]].
  - destruct (pronoun_replacement_is_literal Literal.literal_eval
                (fst Scenario.after_alice) "where is her book" "alice"
                eq_refl eq_refl) as [Heq _].
    rewrite Heq. reflexivity.
  - destruct (pronoun_replacement_is_literal Literal.literal_eval
                (fst Scenario.after_alice) "What is HER email" "alice"
                eq_refl eq_refl) as [_ Hsame].
    apply Hsame. intros pronoun Hp. simpl in Hp.
    repeat (destruct Hp as [<- | Hp]; [reflexivity|]). destruct Hp.
Defined.

(* ===================================================================== *)
(** ** Relevant context *)
(* ===================================================================== *)

Lemma existsb_eqb_In (x : string) (l : list string) :
  existsb (String.eqb x) l = true <-> In x l.
Proof.
  rewrite existsb_exists. split.
  - intros (y & Hy & He). apply String.eqb_eq in He. by subst.
  - intros Hx. exists x. split; [done | apply String.eqb_refl].
Qed.

Lemma unique_by_id_sound seen l i :
  In i (unique_by_id seen l) -> In i l /\ ~ In (interaction_id i) seen.
Proof.
  revert seen. induction l as [|x l IH]; intros seen; simpl; [done|].
  destruct (existsb (String.eqb (interaction_id x)) seen) eqn:He.
  - intros Hi. destruct (IH _ Hi). auto.
  - intros [<- | Hi].
    + split; [by left|]. intros Hin. apply existsb_eqb_In in Hin. congruence.
    + destruct (IH _ Hi) as [Hl Hs]. split; [by right|].
      intros Hin. apply Hs. by right.
Qed.

Lemma unique_by_id_nodup seen l :
  List.NoDup (map interaction_id (unique_by_id seen l)).
Proof.
  revert seen. induction l as [|x l IH]; intros seen; simpl; [constructor|].
  destruct (existsb (String.eqb (interaction_id x)) seen); [apply IH|].
  simpl. constructor; [|apply IH].
  intros Hin. apply in_map_iff in Hin as (j & Hj & Hin).
  apply unique_by_id_sound in Hin as [_ Hs]. apply Hs. left. congruence.
Qed.

Lemma unique_by_id_complete seen l i :
  In i l ->
  In (interaction_id i) seen
  \/ exists j, In j (unique_by_id seen l) /\ interaction_id j = interaction_id i.
Proof.
  revert seen. induction l as [|x l IH]; intros seen; simpl; [done|].
  destruct (existsb (String.eqb (interaction_id x)) seen) eqn:He.
  - intros [<- | Hi]; [left; by apply existsb_eqb_In | by apply IH].
  - intros [<- | Hi]; [right; exists x; split; [by left | done]|].
    destruct (IH (interaction_id x :: seen) Hi) as [[Heq | Hs] | (j & Hj & Hid)].
    + right. exists x. split; [by left | done].
    + by left.
    + right. exists j. split; [by right | done].
Qed.

Lemma unique_by_id_nil l : unique_by_id [] l = [] -> l = [].
Proof. by destruct l. Qed.

Lemma sapp_nil (s : string) : "" +:+ s = s.
Proof. reflexivity. Qed.

Lemma sapp_cons (c : ascii) (a b : string) : String c a +:+ b = String c (a +:+ b).
Proof. reflexivity. Qed.

Lemma contains_mid (p a b : string) : Py.contains p (a +:+ p +:+ b) = true.
Proof.
  induction a as [|c a IH].
  - change ("" +:+ p +:+ b) with (p +:+ b).
    destruct (p +:+ b) eqn:E; simpl; rewrite <- ?E, startswith_app; done.
  - change (String c a +:+ p +:+ b) with (String c (a +:+ p +:+ b)).
    cbn [Py.contains]. rewrite IH. apply orb_true_r.
Qed.

(** The key [question_timestamp] determines the question and the
    timestamp, as long as timestamps have no underscore (ISO timestamps
    have none). *)
Lemma interaction_id_inj (q1 q2 t1 t2 : string) :
  Py.contains "_" t1 = false -> Py.contains "_" t2 = false ->
  q1 +:+ "_" +:+ t1 = q2 +:+ "_" +:+ t2 -> q1 = q2 /\ t1 = t2.
Proof.
  intros H1 H2. revert q2.
  induction q1 as [|c q1 IH]; intros [|c' q2] Heq;
    rewrite ?sapp_nil, ?(sapp_cons _ q1), ?(sapp_cons _ q2) in Heq.
  - by injection Heq.
  - injection Heq as _ Ht. rewrite sapp_nil in Ht.
    pose proof (contains_mid "_" q2 t2) as Hc. congruence.
  - injection Heq as _ Ht. rewrite sapp_nil in Ht.
    pose proof (contains_mid "_" q1 t1) as Hc. congruence.
  - injection Heq as -> Ht. destruct (IH _ Ht) as [-> ->]. done.
Qed.

Lemma same_key_In (x : Interaction) (pre : list Interaction) :
  existsb (same_key x) pre = true <-> In (interaction_id x) (map interaction_id pre).
Proof.
  rewrite existsb_exists, in_map_iff. unfold same_key. split.
  - intros (y & Hy & He). apply String.eqb_eq in He. by exists y.
  - intros (y & He & Hy). exists y. split; [done|]. by apply String.eqb_eq.
Qed.

Lemma flat_map_shift {A} (f : nat -> list A) (n : nat) :
  flat_map f (seq 1 n) = flat_map (fun k => f (S k)) (seq 0 n).
Proof.
  rewrite <- seq_shift. generalize (seq 0 n). intros l.
  induction l as [|k l IH]; [done|]. cbn [map flat_map]. by rewrite IH.
Qed.

(** The loop over [all_relevant] with its set [seen] keeps the first
    occurrence of every key: when [seen] holds the keys of the elements
    [pre] passed so far, an element is kept exactly when none before it
    has its key. *)
Lemma unique_by_id_first (seen : list string) (pre l : list Interaction) :
  (forall k, In k seen <-> In k (map interaction_id pre)) ->
  unique_by_id seen l
  = flat_map (fun k => match nth_error l k with
                       | Some i => if existsb (same_key i) (pre ++ firstn k l) then [] else [i]
                       | None => []
                       end) (seq 0 (length l)).
Proof.
  revert seen pre. induction l as [|x l IH]; intros seen pre Hseen; [done|].
  cbn [unique_by_id length seq flat_map nth_error firstn].
  rewrite flat_map_shift, app_nil_r. cbn [nth_error firstn].
  assert (Hx : existsb (String.eqb (interaction_id x)) seen = existsb (same_key x) pre).
  { apply eq_iff_eq_true. rewrite existsb_eqb_In, same_key_In. apply Hseen. }
  assert (Hext : forall s,
             (forall k, In k s <-> In k (map interaction_id (pre ++ [x]))) ->
             unique_by_id s l
             = flat_map (fun k => match nth_error l k with
                                  | Some i =>
                                      if existsb (same_key i) (pre ++ x :: firstn k l)
                                      then [] else [i]
                                  | None => []
                                  end) (seq 0 (length l))).
  { intros s Hs. rewrite (IH s (pre ++ [x]) Hs). apply flat_map_ext. intros k.
    by rewrite <- app_assoc. }
  rewrite Hx. destruct (existsb (same_key x) pre) eqn:Hin.
  - cbn [app]. apply Hext. intros k. rewrite map_app, in_app_iff, <- Hseen. cbn [map In].
    split; [by left|]. intros [Hk | [<- | []]]; [done|].
    apply Hseen. by apply same_key_In.
  - cbn [app]. f_equal. apply Hext. intros k.
    rewrite map_app, in_app_iff, <- Hseen. cbn [map In]. tauto.
Qed.

Lemma unique_by_id_first_occurrences (l : list Interaction) :
  unique_by_id [] l = first_occurrences l.
Proof. by apply (unique_by_id_first [] [] l). Qed.

Lemma unique_by_id_app (seen : list string) (a b : list Interaction) :
  exists seen', unique_by_id seen (a ++ b) = unique_by_id seen a ++ unique_by_id seen' b.
Proof.
  revert seen. induction a as [|x a IH]; intros seen; [by exists seen|].
  cbn [app unique_by_id]. destruct (existsb _ seen); [apply IH|].
  destruct (IH (interaction_id x :: seen)) as (seen' & ->). by exists seen'.
Qed.

(** C6, as amended.  An empty history gives the empty narrative; otherwise
    the narrative is the header, the entries of the shown interactions and
    the known entities.  The candidates are the last two interactions and
    every interaction sharing at least two distinct words with the current
    question, and nothing else; they are deduplicated by the key
    [question_timestamp], which identifies the pair when timestamps have no
    underscore; the shown interactions are the last three of the
    deduplicated candidates, in their order; with at most three candidates
    left, every one of them, the last two included, is shown.  The order is
    the one of the list made of the last two interactions followed by the
    sharing interactions as the history has them, each key kept where it
    occurs first: the last two open the deduplicated list. *)
Theorem relevant_context_selection (self : ConversationMemory) (current_question : string) :
  let history := conversation_history self in
  let unique := unique_relevant self current_question in
  let shown := shown_interactions self current_question in
  let candidate i :=
    In i (most_recent 2 history)
    \/ (In i history /\ shares_two_words (Py.lower current_question) i = true) in
  (history = [] -> get_relevant_context self current_question = "")
  /\ (history <> [] ->
      get_relevant_context self current_question
      = Py.join Py.nl
          ([context_header] ++ context_entries 1 shown
           ++ match entity_memory self with
              | [] => []
              | _ => [Py.nl +:+ "KNOWN ENTITIES: "
                      +:+ PyVal.repr (PyList (map PyStr (dict_keys (entity_memory self))))]
              end))
  /\ shown = most_recent 3 unique
  /\ length shown <= 3
  /\ (forall i, In i unique -> candidate i)
  /\ (forall i, candidate i ->
        exists j, In j unique /\ interaction_id j = interaction_id i)
  /\ List.NoDup (map interaction_id unique)
  /\ (forall i j, In i unique -> In j unique ->
        Py.contains "_" (i_timestamp i) = false ->
        Py.contains "_" (i_timestamp j) = false ->
        interaction_id i = interaction_id j ->
        i_question i = i_question j /\ i_timestamp i = i_timestamp j)
  /\ (length unique <= 3 -> shown = unique)
  /\ unique
     = first_occurrences
         (most_recent 2 history
          ++ List.filter (shares_two_words (Py.lower current_question)) history)
  /\ (exists rest, unique = first_occurrences (most_recent 2 history) ++ rest).
Proof.
  intros history unique shown candidate.
  assert (Hrecent : Py.slice_from (-2) history = most_recent 2 history)
    by (apply (slice_from_neg 2); lia).
  assert (Hshown : shown = most_recent 3 unique)
    by (apply (slice_from_neg 3); lia).
  assert (Hsound : forall i, In i unique -> candidate i).
  { intros i Hi. apply unique_by_id_sound in Hi as [Hi _].
    apply in_app_or in Hi as [Hi | Hi].
    - left. by rewrite <- Hrecent.
    - right. by apply filter_In in Hi. }
  assert (Hcomplete : forall i, candidate i ->
            exists j, In j unique /\ interaction_id j = interaction_id i).
  { intros i Hi.
    destruct (unique_by_id_complete []
                (Py.slice_from (-2) history
                 ++ List.filter (shares_two_words (Py.lower current_question)) history) i)
      as [[] | Hj]; [|exact Hj].
    apply in_or_app. destruct Hi as [Hi | Hi].
    - left. by rewrite Hrecent.
    - right. by apply filter_In. }
  assert (Hne : history <> [] -> unique <> []).
  { intros Hh Eu. unfold unique, unique_relevant in Eu. cbv zeta in Eu.
    apply unique_by_id_nil, app_eq_nil in Eu as [Eu _].
    apply (f_equal length) in Eu. unfold history in Hrecent, Hh.
    rewrite Hrecent, most_recent_length in Eu.
    destruct (conversation_history self); [done | simpl in Eu; lia]. }
  split.
  { intros Hh. unfold get_relevant_context. fold history. by rewrite Hh. }
  split.
  { intros Hh. specialize (Hne Hh). unfold get_relevant_context.
    fold history unique shown.
    destruct history; [done|]. by destruct unique. }
  split; [exact Hshown|].
  split.
  { rewrite Hshown, most_recent_length. lia. }
  split; [exact Hsound|].
  split; [exact Hcomplete|].
  split; [apply unique_by_id_nodup|].
  split.
  { intros i j _ _ Hi Hj Hid. by apply interaction_id_inj. }
  split.
  { intros Hlen. rewrite Hshown. by apply most_recent_all. }
  split.
  { unfold unique, unique_relevant. cbv zeta. fold history.
    by rewrite Hrecent, unique_by_id_first_occurrences. }
  unfold unique, unique_relevant. cbv zeta. fold history. rewrite Hrecent.
  destruct (unique_by_id_app [] (most_recent 2 history)
              (List.filter (shares_two_words (Py.lower current_question)) history))
    as (seen' & ->).
  rewrite unique_by_id_first_occurrences. by eexists.
Qed.

(** C6, the claim as stated, refuted: after three questions about marks
    and two turns of small talk, a fourth question about marks gets a
    narrative made of the three old questions; the last two interactions
    are candidates and are cut off by the limit of three. *)
Lemma last_two_left_out :
  let self := fst Scenario.five in
  let current_question := "show marks of dave" in
  map i_question (most_recent 2 (conversation_history self))
  = ["hello there"; "thanks a lot"]
  /\ map i_question (unique_relevant self current_question)
     = ["hello there"; "thanks a lot";
        "show marks of alice"; "show marks of bob"; "show marks of carol"]
  /\ map i_question (shown_interactions self current_question)
     = ["show marks of alice"; "show marks of bob"; "show marks of carol"]
  /\ Py.contains "thanks a lot" (get_relevant_context self current_question) = false
  /\ narrative_has_last_two self current_question = false.
Proof. repeat split; reflexivity. Qed.

(* ===================================================================== *)
(** ** The checkpoint token *)
(* ===================================================================== *)

Lemma fromhex_byte (b : Byte.byte) (rest : string) :
  Hex.fromhex (String (Hex.digit (Byte.to_N b / 16))
                 (String (Hex.digit (Byte.to_N b mod 16)) rest))
  = match Hex.fromhex rest with
    | Some bs => Some (b :: bs)
    | None => None
    end.
Proof. destruct b; reflexivity. Qed.

Lemma fromhex_hex (bs : list Byte.byte) : Hex.fromhex (Hex.hex bs) = Some bs.
Proof.
  induction bs as [|b bs IH]; [done|].
  cbn [Hex.hex]. by rewrite fromhex_byte, IH.
Qed.

(** C2.  Round trip of the checkpoint token, given that [pickle] reads
    back the paused state it wrote: decoding the hexadecimal token of a
    state gives that state, and the state that approval resumes from, with
    or without feedback, has the same SQL text and the same resolved
    question. *)
Theorem checkpoint_round_trip
  (pickle_dumps : State -> list Byte.byte) (pickle_loads : list Byte.byte -> Result State)
  (s : State) (feedback : string) :
  pickle_loads (pickle_dumps s) = Ok s ->
  decode_state pickle_loads (encode_state pickle_dumps s) = Ok s
  /\ exists s', approved_state pickle_loads (encode_state pickle_dumps s) feedback = Ok s'
       /\ st_query s' = st_query s
       /\ st_resolved_question s' = st_resolved_question s.
Proof.
  intros Hp.
  assert (Hd : decode_state pickle_loads (encode_state pickle_dumps s) = Ok s).
  { unfold decode_state, encode_state. by rewrite fromhex_hex. }
  split; [exact Hd|].
  unfold approved_state. rewrite Hd.
  destruct (String.eqb feedback ""); eexists; repeat split.
Qed.

Lemma checkpoint_round_trip_witness :
  Demo.pickle_loads (Demo.pickle_dumps Scenario.failing) = Ok Scenario.failing
  /\ decode_state Demo.pickle_loads (encode_state Demo.pickle_dumps Scenario.failing)
     = Ok Scenario.failing
  /\ exists s', approved_state Demo.pickle_loads
                 (encode_state Demo.pickle_dumps Scenario.failing) "looks fine" = Ok s'
       /\ st_query s' = st_query Scenario.failing
       /\ st_resolved_question s' = st_resolved_question Scenario.failing.
Proof.
  split; [reflexivity|].
  apply (checkpoint_round_trip Demo.pickle_dumps Demo.pickle_loads Scenario.failing
           "looks fine").
  reflexivity.
Defined.

(* ===================================================================== *)
(** ** The workflow *)
(* ===================================================================== *)

Section WorkflowFacts.

Variable literal_eval : string -> option pyval.
Variable clock : nat -> string.
Variable llm : Prompt -> Result string.
Variable DB : Type.
Variable run_sql : string -> DB -> Result string * DB.
Variable get_table_info_str : DB -> string.

(** Recording an interaction never raises and leaves the SQL database
    alone. *)
Lemma record_interaction_ok user question query result answer (w : World DB) :
  exists w', record_interaction literal_eval clock user question query result answer w
             = (Ok tt, w')
             /\ database w' = database w.
Proof.
  unfold record_interaction, bind, user_memory.
  destruct (get_user_memory user (user_memories w) (services w)) as [m mm].
  cbn [user_memories services database].
  destruct (add_interaction literal_eval clock m question query result answer (services w)).
  by eexists.
Qed.

(** C9.  A failing execution is not fatal.  [execute_query] never raises.
    When the database refuses the statement, the tool hands back the text
    [Error: <message>]; when the tool raises anything else, [execute_query]
    catches it and writes [Error executing query: <message>].  Either way
    the text with the message becomes the result, and
    [finalize_after_approval] goes on to answer synthesis with that result:
    whatever the model replies is returned as the answer of a state that is
    still marked successful. *)
Theorem sql_failure_is_answered
  (run : string -> DB -> Outcome * DB)
  (state : State) (w : World DB) (failure : Outcome) (msg reply : string) (db' : DB) :
  let tool := QuerySQLDatabaseTool run in
  let text := match failure with
              | DatabaseError _ => "Error: " +:+ msg
              | _ => "Error executing query: " +:+ msg
              end in
  run (st_query state) (database w) = (failure, db') ->
  failure = DatabaseError msg \/ failure = OtherException msg ->
  llm (AnswerPrompt (st_question state) (st_resolved_question state) (st_query state)
         text (st_feedback state) (st_context_from_memory state)) = Ok reply ->
  (forall state0 w0, exists s0 w1, execute_query tool state0 w0 = (Ok s0, w1))
  /\ execute_query tool state w
     = (Ok (set_result text state), mkWorld (user_memories w) (services w) db')
  /\ exists final w',
       finalize_after_approval literal_eval clock llm tool state w = (Ok final, w')
       /\ st_result final = text
       /\ st_answer final = Py.strip reply
       /\ st_success final = st_success state
       /\ st_query final = st_query state.
Proof.
  intros tool text Hrun Hfail Hllm.
  assert (Htool : tool (st_query state) (database w)
                  = (match failure with
                     | DatabaseError _ => Ok text
                     | _ => Raise msg
                     end, db')).
  { unfold tool, QuerySQLDatabaseTool. rewrite Hrun.
    by destruct Hfail as [-> | ->]. }
  assert (Hexec : execute_query tool state w
                  = (Ok (set_result text state),
                     mkWorld (user_memories w) (services w) db')).
  { unfold execute_query. rewrite Htool. by destruct Hfail as [-> | ->]. }
  split; [|split; [exact Hexec|]].
  - intros state0 w0. unfold execute_query.
    destruct (tool (st_query state0) (database w0)) as [[result | e] db0]; by do 2 eexists.
  - unfold finalize_after_approval, try_except, bind. rewrite Hexec.
    unfold generate_answer, bind, invoke_llm, ret.
    cbn [st_question st_resolved_question st_query st_result st_feedback
           st_context_from_memory set_feedback set_result st_username].
    rewrite Hllm.
    destruct (record_interaction_ok (st_username state) (st_question state) (st_query state)
                text (Py.strip reply) (mkWorld (user_memories w) (services w) db'))
      as (w1 & -> & _).
    cbn [st_question st_query st_result st_answer set_answer set_feedback set_result
           st_username].
    destruct (record_interaction_ok (st_username state) (st_question state) (st_query state)
                text (Py.strip reply) w1) as (w2 & -> & _).
    do 2 eexists. split; [reflexivity|]. done.
Qed.

Lemma get_user_memory_cached user (mm : gmap string ConversationMemory) sv sv' :
  get_user_memory user (snd (get_user_memory user mm sv)) sv'
  = (fst (get_user_memory user mm sv), snd (get_user_memory user mm sv)).
Proof.
  unfold get_user_memory. destruct (mm !! user) as [m|] eqn:Hu; cbn [fst snd].
  - by rewrite Hu.
  - by rewrite lookup_insert_eq.
Qed.

(** What one recording does to the world. *)
Lemma record_interaction_run user question query result answer (w : World DB) :
  let r := add_interaction literal_eval clock (memory_of user w)
             question query result answer (services w) in
  record_interaction literal_eval clock user question query result answer w
  = (Ok tt,
     mkWorld (<[user := fst r]> (snd (get_user_memory user (user_memories w) (services w))))
       (snd r) (database w)).
Proof.
  unfold record_interaction, bind, user_memory, memory_of.
  destruct (get_user_memory user (user_memories w) (services w)) as [m mm].
  cbn [user_memories services database fst snd].
  by destruct (add_interaction literal_eval clock m question query result answer (services w)).
Qed.

(** Two recordings in a row are two [add_interaction] calls on the user's
    memory object. *)
Lemma record_interaction_twice user question query result answer (w : World DB) :
  exists w1 w2,
    record_interaction literal_eval clock user question query result answer w = (Ok tt, w1)
    /\ record_interaction literal_eval clock user question query result answer w1 = (Ok tt, w2)
    /\ memory_of user w2
       = fst (add_interactions literal_eval clock (memory_of user w)
                [mkCall question query result answer; mkCall question query result answer]
                (services w)).
Proof.
  set (m := memory_of user w).
  pose proof (record_interaction_run user question query result answer w) as H1.
  cbv zeta in H1. fold m in H1.
  set (r1 := add_interaction literal_eval clock m question query result answer (services w))
    in *.
  set (w1 := mkWorld _ (snd r1) (database w)) in H1.
  assert (Hm1 : memory_of user w1 = fst r1).
  { unfold memory_of, w1, get_user_memory. cbn [user_memories services].
    by rewrite lookup_insert_eq. }
  pose proof (record_interaction_run user question query result answer w1) as H2.
  cbv zeta in H2. rewrite Hm1 in H2.
  eexists w1, _. split; [exact H1|]. split; [exact H2|].
  unfold memory_of at 1, get_user_memory. cbn [user_memories services].
  rewrite lookup_insert_eq. cbn [fst].
  cbn [add_interactions c_question c_query c_result c_answer]. fold r1.
  unfold w1. cbn [services]. destruct r1 as [m1 sv1]. cbn [fst snd].
  by destruct (add_interaction literal_eval clock m1 question query result answer sv1).
Qed.

(** The double recording in general, on approval: when the model answers,
    the history of the user is the most recent [max_history] entries of the
    old history followed by the one interaction twice. *)
Lemma approval_records_twice (state : State) (w : World DB) outcome db' reply :
  let m := memory_of (st_username state) w in
  let result := match outcome with
                | Ok r => r
                | Raise msg => "Error executing query: " +:+ msg
                end in
  let c := mkCall (st_question state) (st_query state) result (Py.strip reply) in
  run_sql (st_query state) (database w) = (outcome, db') ->
  llm (AnswerPrompt (st_question state) (st_resolved_question state) (st_query state)
         result (st_feedback state) (st_context_from_memory state)) = Ok reply ->
  (0 < max_history m)%Z ->
  exists final w',
    finalize_after_approval literal_eval clock llm run_sql state w = (Ok final, w')
    /\ map content (conversation_history (memory_of (st_username state) w'))
       = most_recent (Z.to_nat (max_history m))
           (map content (conversation_history m) ++ [c; c]).
Proof.
  intros m result c Hsql Hllm Hpos.
  set (w0 := mkWorld (user_memories w) (services w) db').
  destruct (record_interaction_twice (st_username state) (st_question state)
              (st_query state) result (Py.strip reply) w0) as (w1 & w2 & H1 & H2 & Hm).
  exists (set_answer (Py.strip reply) (set_feedback (st_feedback state) (set_result result state))), w2.
  split.
  - unfold finalize_after_approval, try_except, bind, execute_query, generate_answer,
      bind, invoke_llm, ret.
    rewrite Hsql.
    assert (Hex : (let (r, w') :=
                     match outcome with
                     | Ok result0 => (Ok (set_result result0 state), w0)
                     | Raise msg => (Ok (set_result ("Error executing query: " +:+ msg) state), w0)
                     end in (r, w')) = (Ok (set_result result state), w0))
      by (by destruct outcome).
    destruct outcome as [r | msg];
      cbn [st_question st_resolved_question st_query st_result st_feedback
             st_context_from_memory set_feedback set_result st_username];
      fold w0; subst result; cbn iota beta in *; rewrite Hllm, H1;
      cbn [st_question st_query st_result st_answer set_answer set_feedback set_result
             st_username]; by rewrite H2.
  - rewrite Hm.
    apply (add_interactions_history literal_eval clock (memory_of (st_username state) w0)
             [c; c] (services w0)); [exact Hpos | discriminate].
Qed.

(** The same on the chat path of [run_until_human_review]. *)
Lemma chat_records_twice (user question : string) (w : World DB) verdict reply :
  let m := memory_of user w in
  let context := get_relevant_context m question in
  let resolved := resolve_contextual_references literal_eval m question in
  let c := mkCall question "" "" (Py.strip reply) in
  llm (ClassificationPrompt context question resolved) = Ok verdict ->
  String.eqb (Py.lower (Py.strip verdict)) "sql" = false ->
  llm (ChatPrompt context question resolved) = Ok reply ->
  (0 < max_history m)%Z ->
  exists final w',
    run_until_human_review literal_eval clock llm get_table_info_str user question w
    = (Ok final, w')
    /\ st_intent final = Some "chat"
    /\ st_answer final = Py.strip reply
    /\ map content (conversation_history (memory_of user w'))
       = most_recent (Z.to_nat (max_history m))
           (map content (conversation_history m) ++ [c; c]).
Proof.
  intros m context resolved c Hcls Hnot Hchat Hpos.
  set (w0 := mkWorld (snd (get_user_memory user (user_memories w) (services w)))
               (services w) (database w)).
  assert (Hm0 : memory_of user w0 = m).
  { unfold memory_of, w0. cbn [user_memories services].
    by rewrite get_user_memory_cached. }
  destruct (record_interaction_twice user question "" "" (Py.strip reply) w0)
    as (w1 & w2 & H1 & H2 & Hm).
  assert (Hintent : (if String.eqb (Py.lower (Py.strip verdict)) "sql"
                        || String.eqb (Py.lower (Py.strip verdict)) "chat"
                     then Py.lower (Py.strip verdict) else "chat") = "chat").
  { rewrite Hnot. cbn [orb].
    destruct (String.eqb (Py.lower (Py.strip verdict)) "chat") eqn:Hc; [|done].
    by apply String.eqb_eq in Hc. }
  do 2 eexists. split; [|split; [|split]].
  - unfold run_until_human_review, try_except, bind, add_memory_context, bind, user_memory,
      classify_intent, bind, invoke_llm, ret.
    cbn [st_username st_question].
    destruct (get_user_memory user (user_memories w) (services w)) as [m' mm] eqn:Hg.
    assert (m' = m) as -> by (unfold m, memory_of; by rewrite Hg).
    fold context resolved.
    cbn [set_memory_context st_context_from_memory st_question st_resolved_question].
    rewrite Hcls, Hintent. unfold should_route_to_sql.
    cbn [set_intent st_intent]. cbv [default from_option id].
    cbn [String.eqb Ascii.eqb Bool.eqb andb].
    unfold basic_chat, bind, invoke_llm, ret.
    cbn [st_context_from_memory st_question st_resolved_question st_username
           set_intent set_memory_context].
    rewrite Hchat.
    unfold w0 in H1. cbn [snd] in H1. rewrite H1.
    cbn [st_question st_answer set_result set_query set_answer set_intent
           set_memory_context].
    rewrite H2. reflexivity.
  - reflexivity.
  - reflexivity.
  - rewrite Hm, Hm0.
    apply (add_interactions_history literal_eval clock m [c; c] (services w0));
      [exact Hpos | discriminate].
Qed.

(** C4, as amended.  For a non-empty feedback, regeneration asks the model
    for a query once, for the question [strip(question) (strip(feedback))]
    with the memory context of the checkpoint and an empty resolved
    question; the state it returns carries that question, the
    post-processed reply as its query and the checkpoint's context; and
    whatever the memory manager and the durable store hold, they are left
    as they were and do not bear on the result. *)
Theorem regenerate_appends_stripped_feedback
  (state : State) (feedback : string) (db : DB) (reply : string) :
  let updated_question :=
    Py.strip (st_question state) +:+ " (" +:+ Py.strip feedback +:+ ")" in
  feedback <> "" ->
  llm (QueryPrompt "sqlite" 10 (get_table_info_str db) (st_context_from_memory state) ""
         updated_question feedback) = Ok reply ->
  exists s',
    (forall mm sv,
       regenerate_query_with_feedback llm get_table_info_str state feedback (mkWorld mm sv db)
       = (Ok s', mkWorld mm sv db))
    /\ st_question s' = updated_question
    /\ st_query s'
       = validate_and_fix_query
           match search_fenced (Py.strip reply) with
           | Some body => Py.strip body
           | None => Py.strip (Py.strip reply)
           end
    /\ st_context_from_memory s' = st_context_from_memory state
    /\ st_resolved_question s' = ""
    /\ st_feedback s' = feedback
    /\ st_success s' = true.
Proof.
  intros updated_question Hne Hllm.
  assert (Hf : String.eqb feedback "" = false) by (by destruct feedback).
  exists (set_query
            (validate_and_fix_query
               match search_fenced (Py.strip reply) with
               | Some body => Py.strip body
               | None => Py.strip (Py.strip reply)
               end)
            (mkState (st_username state) updated_question "" "" true "" ""
               (st_context_from_memory state) "" feedback None)).
  split; [|repeat split].
  intros mm sv.
  unfold regenerate_query_with_feedback, try_except, write_query, bind, invoke_llm, ret.
  rewrite Hf. cbn [database st_context_from_memory st_resolved_question st_question
                     st_feedback].
  fold updated_question. rewrite Hllm. reflexivity.
Qed.

End WorkflowFacts.

(** A statement on a table that the database does not have. *)
Lemma sql_failure_is_answered_witness :
  let msg := "(sqlite3.OperationalError) no such table" in
  let text := "Error: " +:+ msg in
  Demo.db_run (st_query Scenario.failing) (database Demo.world0) = (DatabaseError msg, tt)
  /\ Demo.llm (AnswerPrompt "list the teachers" "list the teachers"
                 "SELECT name FROM teachers LIMIT 10" text "" "")
     = Ok "Sorry, the query could not be run. "
  /\ execute_query Demo.run_sql Scenario.failing Demo.world0
     = (Ok (set_result text Scenario.failing), Demo.world0)
  /\ exists final w',
       finalize_after_approval Literal.literal_eval Demo.clock Demo.llm Demo.run_sql
         Scenario.failing Demo.world0 = (Ok final, w')
       /\ st_result final = text
       /\ st_answer final = "Sorry, the query could not be run."
       /\ st_success final = true
       /\ st_query final = "SELECT name FROM teachers LIMIT 10".
Proof.
  intros msg text. split; [reflexivity|]. split; [reflexivity|].
  exact (proj2 (sql_failure_is_answered Literal.literal_eval Demo.clock Demo.llm unit
                  Demo.db_run Scenario.failing Demo.world0 (DatabaseError msg) msg
                  "Sorry, the query could not be run. " tt eq_refl (or_introl eq_refl)
                  eq_refl)).
Defined.

Lemma regenerate_appends_stripped_feedback_witness :
  "sort by marks " <> ""
  /\ Demo.llm (QueryPrompt "sqlite" 10 (Demo.get_table_info_str tt) "" ""
                 "list the students (sort by marks)" "sort by marks ")
     = Ok "SELECT name, marks FROM students LIMIT 10"
  /\ exists s',
       (forall mm sv,
          regenerate_query_with_feedback Demo.llm Demo.get_table_info_str
            Scenario.paused "sort by marks " (mkWorld mm sv tt)
          = (Ok s', mkWorld mm sv tt))
       /\ st_question s' = "list the students (sort by marks)"
       /\ st_query s' = "SELECT name, marks FROM students LIMIT 10"
       /\ st_context_from_memory s' = ""
       /\ st_resolved_question s' = ""
       /\ st_feedback s' = "sort by marks "
       /\ st_success s' = true.
Proof.
  split; [discriminate|]. split; [reflexivity|].
  exact (regenerate_appends_stripped_feedback Demo.llm unit Demo.get_table_info_str
           Scenario.paused "sort by marks " tt "SELECT name, marks FROM students LIMIT 10"
           ltac:(discriminate) eq_refl).
Defined.

(** C4, the claim as stated, refuted: the question of the checkpoint ends
    in a space, and the regenerated question is not that question followed
    by a space and the feedback in parentheses; both texts are stripped
    first. *)
Lemma regenerated_question_is_stripped :
  fst (run_until_human_review Literal.literal_eval Demo.clock Demo.llm
         Demo.get_table_info_str "u" "list the students " Demo.world0)
  = Ok Scenario.paused
  /\ match fst (regenerate_query_with_feedback Demo.llm Demo.get_table_info_str
                  Scenario.paused "sort by marks" Demo.world0) with
     | Ok s' =>
         st_question s' = "list the students (sort by marks)"
         /\ st_question s'
            <> st_question Scenario.paused +:+ " (" +:+ "sort by marks" +:+ ")"
     | Raise _ => False
     end.
Proof. split; [reflexivity|]. split; [reflexivity | discriminate]. Qed.

(** C1, evaluated.  A greeting classified as chat leaves two entries for
    the one interaction in a history that was empty, and so does one
    approval of a paused query: [basic_chat] and [generate_answer] record
    the interaction, and their callers record it again. *)
Theorem completed_call_records_twice :
  Demo.history_of "u" Demo.world0 = []
  /\ (exists s, fst Scenario.chat_run = Ok s /\ st_intent s = Some "chat")
  /\ map content (Demo.history_of "u" (snd Scenario.chat_run))
     = [ mkCall "hello there" "" "" "Hi, ask me about the data.";
         mkCall "hello there" "" "" "Hi, ask me about the data." ]
  /\ Demo.history_of "u" (snd Scenario.sql_pause) = []
  /\ (exists s, fst Scenario.sql_final = Ok s /\ st_success s = true)
  /\ map content (Demo.history_of "u" (snd Scenario.sql_final))
     = [ mkCall "who is the top student" "SELECT name, marks FROM students LIMIT 10"
           "[('alice', 95)]" "alice has 95 marks.";
         mkCall "who is the top student" "SELECT name, marks FROM students LIMIT 10"
           "[('alice', 95)]" "alice has 95 marks." ].
Proof.
  split; [reflexivity|].
  split; [eexists; split; reflexivity|].
  split; [reflexivity|].
  split; [reflexivity|].
  split; [eexists; split; reflexivity|].
  reflexivity.
Qed.

(* ===================================================================== *)
(** ** Post-processing of the synthesized query *)
(* ===================================================================== *)

Lemma sapp_assoc (a b c : string) : (a +:+ b) +:+ c = a +:+ b +:+ c.
Proof. induction a as [|x a IH]; [done|]. rewrite !sapp_cons. by rewrite IH. Qed.

Lemma sapp_nil_r (a : string) : a +:+ "" = a.
Proof. induction a as [|x a IH]; [done|]. rewrite sapp_cons. by rewrite IH. Qed.

Lemma all_chars_app p (a b : string) :
  Py.all_chars p (a +:+ b) = Py.all_chars p a && Py.all_chars p b.
Proof.
  induction a as [|x a IH]; [done|].
  rewrite sapp_cons. cbn [Py.all_chars]. rewrite IH. apply andb_assoc.
Qed.

(** Words matched by derivatives are words of the pattern. *)
Lemma nullable_lang r : Re.nullable r = true -> Re.lang r "".
Proof.
  induction r as [| |p|r1 IH1 r2 IH2|r1 IH1 r2 IH2|r IH]; simpl; intros Hn; try done.
  - constructor.
  - apply andb_prop in Hn as [H1 H2].
    change "" with ("" +:+ ""). constructor; auto.
  - apply orb_prop in Hn as [H1 | H2]; [apply Re.lang_alt_l | apply Re.lang_alt_r]; auto.
  - constructor.
Qed.

Lemma deriv_lang r c s : Re.lang (Re.deriv c r) s -> Re.lang r (String c s).
Proof.
  revert s.
  induction r as [| |p|r1 IH1 r2 IH2|r1 IH1 r2 IH2|r IH]; intros s; simpl; intros Hl.
  - inversion Hl.
  - inversion Hl.
  - destruct (p c) eqn:Hp; inversion Hl; subst. by constructor.
  - assert (Hcat : forall s, Re.lang (Re.Cat (Re.deriv c r1) r2) s ->
                             Re.lang (Re.Cat r1 r2) (String c s)).
    { intros s0 H0. inversion H0; subst.
      rewrite <- sapp_cons. constructor; auto. }
    destruct (Re.nullable r1) eqn:Hn; [|by apply Hcat].
    inversion Hl; subst; [by apply Hcat|].
    change (String c s) with ("" +:+ String c s).
    constructor; [by apply nullable_lang | auto].
  - inversion Hl; subst; [apply Re.lang_alt_l | apply Re.lang_alt_r]; auto.
  - inversion Hl; subst. rewrite <- sapp_cons. constructor; auto.
Qed.

Lemma matches_lang r s : Re.matches r s = true -> Re.lang r s.
Proof.
  revert r. induction s as [|c s IH]; intros r; simpl.
  - apply nullable_lang.
  - intros Hm. by apply deriv_lang, IH.
Qed.

Lemma lang_star_class p s : Re.lang (Re.Star (Re.Class p)) s -> Py.all_chars p s = true.
Proof.
  remember (Re.Star (Re.Class p)) as r eqn:Er. intros Hl.
  induction Hl as [| | | | | |r0 s1 s2 H1 _ H2 IH2]; try discriminate; [done|].
  injection Er as ->. inversion H1 as [|p' c Hc| | | | |]; subst.
  rewrite sapp_cons, sapp_nil. cbn [Py.all_chars]. rewrite IH2 by done. by rewrite Hc.
Qed.

Lemma lang_plus_class p s :
  Re.lang (Re.Plus (Re.Class p)) s ->
  exists c s', s = String c s' /\ p c = true /\ Py.all_chars p s' = true.
Proof.
  intros Hl. inversion Hl as [| |r1 r2 s1 s2 H1 H2| | | |]; subst.
  inversion H1 as [|p' c Hc| | | | |]; subst. exists c, s2. rewrite sapp_cons, sapp_nil.
  split; [done|]. split; [done|]. by apply lang_star_class.
Qed.

Lemma lang_literal_ci lit k :
  Re.lang (Re.literal_ci lit) k -> Py.lower k = Py.lower lit.
Proof.
  revert k. induction lit as [|x lit IH]; intros k Hl; simpl in Hl.
  - by inversion Hl.
  - inversion Hl as [| |r1 r2 s1 s2 H1 H2| | | |]; subst.
    inversion H1 as [|p c Hc| | | | |]; subst.
    rewrite sapp_cons, sapp_nil. unfold Py.lower in *. cbn [Py.smap].
    apply Ascii.eqb_eq in Hc. rewrite Hc. f_equal. by apply IH.
Qed.

Lemma lang_cat_inv r1 r2 s :
  Re.lang (Re.Cat r1 r2) s -> exists s1 s2, s = s1 +:+ s2 /\ Re.lang r1 s1 /\ Re.lang r2 s2.
Proof. intros Hl. inversion Hl; subst. eauto. Qed.

Lemma letter_not_plain (c : ascii) :
  Py.is_lower (Py.lower_char c) = true -> plain c = false.
Proof. destruct c as [[] [] [] [] [] [] [] []]; vm_compute; congruence. Qed.

Lemma lower_letters_not_plain (k t : string) :
  Py.lower k = t -> Py.all_chars Py.is_lower t = true ->
  Py.all_chars (fun c => negb (plain c)) k = true.
Proof.
  revert t. induction k as [|c k IH]; intros t Hk Ht; [done|].
  unfold Py.lower in Hk. cbn [Py.smap] in Hk. subst t. cbn [Py.all_chars] in *.
  apply andb_prop in Ht as [Hc Ht].
  rewrite (letter_not_plain c Hc). simpl. by apply (IH _ eq_refl).
Qed.

Lemma all_chars_weaken (p q : ascii -> bool) (s : string) :
  (forall c, p c = true -> q c = true) ->
  Py.all_chars p s = true -> Py.all_chars q s = true.
Proof.
  intros Hpq. induction s as [|c s IH]; [done|]. cbn [Py.all_chars].
  intros H. apply andb_prop in H as [Hc Hs]. by rewrite (Hpq c Hc), IH.
Qed.

(** The shape of a word of [limit_clause]: a white-space character, more
    white space, a keyword that lower-cases to [limit], then white space
    and digits only. *)
Lemma limit_clause_shape (s : string) :
  Re.lang limit_clause s ->
  exists a0 a' k t,
    s = String a0 (a' +:+ k +:+ t)
    /\ Py.isspace a0 = true /\ Py.all_chars Py.isspace a' = true
    /\ Py.lower k = "limit" /\ Py.all_chars plain t = true.
Proof.
  unfold limit_clause. intros Hl.
  apply lang_cat_inv in Hl as (a & s2 & -> & Ha & Hl).
  apply lang_cat_inv in Hl as (k & s3 & -> & Hk & Hl).
  apply lang_cat_inv in Hl as (b & s4 & -> & Hb & Hl).
  apply lang_cat_inv in Hl as (d & c & -> & Hd & Hc).
  apply lang_plus_class in Ha as (a0 & a' & -> & Ha0 & Ha').
  apply lang_plus_class in Hb as (b0 & b' & -> & Hb0 & Hb').
  apply lang_plus_class in Hd as (d0 & d' & -> & Hd0 & Hd').
  apply lang_star_class in Hc. apply lang_literal_ci in Hk.
  exists a0, a', k, (String b0 b' +:+ String d0 d' +:+ c).
  rewrite sapp_cons. repeat split; try done.
  assert (Hws : forall x, Py.isspace x = true -> plain x = true)
    by (intros x Hx; unfold plain; by rewrite Hx).
  assert (Hdg : forall x, Py.isdigit x = true -> plain x = true)
    by (intros x Hx; unfold plain; rewrite Hx; apply orb_true_r).
  rewrite !all_chars_app. cbn [Py.all_chars].
  rewrite (Hws _ Hb0), (Hdg _ Hd0), (all_chars_weaken _ _ _ Hws Hb'),
    (all_chars_weaken _ _ _ Hdg Hd'), (all_chars_weaken _ _ _ Hws Hc). done.
Qed.

Lemma limit_clause_not_plain (s : string) :
  Re.lang limit_clause s -> Py.all_chars plain s = false.
Proof.
  intros Hl. apply limit_clause_shape in Hl as (a0 & a' & k & t & -> & _ & _ & Hk & _).
  pose proof (lower_letters_not_plain k "limit" Hk eq_refl) as Hn.
  destruct k as [|k0 k]; [discriminate|].
  cbn [Py.all_chars] in *. apply andb_prop in Hn as [Hk0 _].
  rewrite all_chars_app, sapp_cons. cbn [Py.all_chars].
  apply negb_true_iff in Hk0. rewrite Hk0.
  by rewrite andb_false_r, andb_false_r.
Qed.

(** A white-space prefix of [x +:+ clause] lies inside [x] when [x] ends
    in a character that is not white space. *)
Lemma ws_prefix_split (A R x clause : string) (e : ascii) :
  Py.all_chars Py.isspace A = true ->
  Py.last_char x = Some e -> Py.isspace e = false ->
  A +:+ R = x +:+ clause ->
  exists x', R = x' +:+ clause /\ Py.last_char x' = Some e.
Proof.
  intros HA Hl He. revert x Hl.
  induction A as [|a A IH]; intros x Hl Heq.
  - exists x. by rewrite sapp_nil in Heq.
  - destruct x as [|y x0]; [discriminate|].
    rewrite !sapp_cons in Heq. injection Heq as -> Heq.
    cbn [Py.all_chars] in HA. apply andb_prop in HA as [Hy HA].
    destruct x0 as [|z x0].
    + simpl in Hl. congruence.
    + apply (IH HA (String z x0)); [|done]. exact Hl.
Qed.

Lemma no_clause_inside (k t x clause : string) (e : ascii) :
  Py.all_chars (fun c => negb (plain c)) k = true ->
  Py.all_chars plain t = true ->
  Py.last_char x = Some e ->
  k +:+ t = x +:+ clause ->
  (exists c0 rest, clause = String c0 rest /\ Py.isspace c0 = true) ->
  Py.all_chars plain clause = false ->
  False.
Proof.
  intros Hk Ht Hl Heq (c0 & rest & -> & Hc0) Hn. revert x Hl Heq.
  induction k as [|k0 k IH]; intros x Hl Heq.
  - rewrite sapp_nil in Heq. subst t. rewrite all_chars_app, Hn in Ht.
    by rewrite andb_false_r in Ht.
  - destruct x as [|y x0]; [discriminate|].
    rewrite !sapp_cons in Heq. injection Heq as -> Heq.
    cbn [Py.all_chars] in Hk. apply andb_prop in Hk as [Hy Hk].
    destruct x0 as [|z x0].
    + rewrite sapp_nil in Heq. destruct k as [|k1 k].
      * rewrite sapp_nil in Heq. congruence.
      * rewrite sapp_cons in Heq. injection Heq as -> _.
        cbn [Py.all_chars] in Hk. apply andb_prop in Hk as [Hk1 _].
        unfold plain in Hk1. by rewrite Hc0 in Hk1.
    + apply (IH Hk (String z x0)); [exact Hl | done].
Qed.

(** Before a LIMIT clause that ends the text, no earlier position starts
    a match when the text before the clause ends in a character that is
    not white space. *)
Lemma no_earlier_match (x clause : string) (e : ascii) :
  Py.last_char x = Some e -> Py.isspace e = false ->
  Re.matches limit_clause clause = true ->
  Re.matches limit_clause (x +:+ clause) = false.
Proof.
  intros Hl He Hc. destruct (Re.matches limit_clause (x +:+ clause)) eqn:Hm; [|done].
  exfalso. apply matches_lang in Hc, Hm.
  pose proof (limit_clause_not_plain clause Hc) as Hn.
  apply limit_clause_shape in Hc as (c0 & c' & k2 & t2 & Hclause & Hc0 & _).
  apply limit_clause_shape in Hm as (a0 & a' & k & t & Heq & Ha0 & Ha' & Hk & Ht).
  destruct (ws_prefix_split (String a0 a') (k +:+ t) x clause e) as (x' & Hx' & Hl');
    [by cbn [Py.all_chars]; rewrite Ha0 | done | done | by rewrite sapp_cons |].
  eapply (no_clause_inside k t x' clause e); eauto.
  by apply (lower_letters_not_plain k "limit").
Qed.

Lemma sub_at_end_cut (body clause : string) (e : ascii) :
  Py.last_char body = Some e -> Py.isspace e = false ->
  Re.matches limit_clause clause = true ->
  Re.sub_at_end limit_clause (body +:+ clause) = body.
Proof.
  intros Hl He Hc. induction body as [|c body IH]; [discriminate|].
  pose proof (no_earlier_match (String c body) clause e Hl He Hc) as Hno.
  rewrite sapp_cons in *. cbn [Re.sub_at_end]. rewrite Hno. f_equal.
  destruct body as [|c' body].
  - rewrite sapp_nil. destruct clause; cbn [Re.sub_at_end]; by rewrite Hc.
  - by apply IH.
Qed.

Lemma replace_newline_none (s : string) :
  Py.contains Py.nl (Py.replace Py.nl " " s) = false.
Proof.
  unfold Py.replace, Py.nl. induction s as [|c s IH]; [done|].
  cbn [Py.replace_from Py.startswith]. rewrite andb_true_r.
  destruct (Ascii.eqb (ascii_of_nat 10) c) eqn:Hc.
  - change (String.length (String (ascii_of_nat 10) "") - 1) with 0.
    change (" " +:+ ?x) with (String " " x). cbn [Py.contains Py.startswith].
    by rewrite IH.
  - cbn [Py.contains Py.startswith]. by rewrite Hc, IH.
Qed.

Lemma select_is_not_mutating (q : string) :
  Py.startswith "SELECT" (Py.upper q) = true -> is_mutating q = false.
Proof.
  unfold is_mutating. destruct (Py.upper q) as [|c u]; [done|].
  cbn [Py.startswith]. intros H. apply andb_prop in H as [Hc _].
  apply Ascii.eqb_eq in Hc. by subst c.
Qed.

(** Words of a pattern are matched by derivatives. *)
Lemma lang_nullable r : Re.lang r "" -> Re.nullable r = true.
Proof.
  intros Hl. remember "" as s eqn:Es.
  induction Hl as [|p c Hc|r1 r2 s1 s2 H1 IH1 H2 IH2|r1 r2 s H IH|r1 r2 s H IH
                  |r|r s1 s2 H1 IH1 H2 IH2]; simpl; try done.
  - destruct s1; [|discriminate]. rewrite sapp_nil in Es. by rewrite IH1, IH2.
  - by rewrite IH.
  - rewrite IH by done. apply orb_true_r.
Qed.

Lemma lang_deriv r c s : Re.lang r (String c s) -> Re.lang (Re.deriv c r) s.
Proof.
  intros Hl. remember (String c s) as w eqn:Ew. revert s Ew.
  induction Hl as [|p c0 Hc|r1 r2 s1 s2 H1 IH1 H2 IH2|r1 r2 s0 H IH|r1 r2 s0 H IH
                  |r|r s1 s2 H1 IH1 H2 IH2]; intros s Ew.
  - discriminate.
  - injection Ew as -> <-. simpl. rewrite Hc. constructor.
  - destruct s1 as [|c1 s1].
    + rewrite sapp_nil in Ew. simpl. rewrite (lang_nullable _ H1).
      apply Re.lang_alt_r. by apply IH2.
    + rewrite sapp_cons in Ew. injection Ew as -> <-.
      assert (Hcat : Re.lang (Re.Cat (Re.deriv c r1) r2) (s1 +:+ s2))
        by (constructor; [by apply IH1 | done]).
      simpl. destruct (Re.nullable r1); [by apply Re.lang_alt_l | done].
  - simpl. apply Re.lang_alt_l. by apply IH.
  - simpl. apply Re.lang_alt_r. by apply IH.
  - discriminate.
  - destruct s1 as [|c1 s1].
    + rewrite sapp_nil in Ew. by apply IH2.
    + rewrite sapp_cons in Ew. injection Ew as -> <-. simpl.
      constructor; [by apply IH1 | done].
Qed.

Lemma lang_matches r s : Re.lang r s -> Re.matches r s = true.
Proof.
  revert r. induction s as [|c s IH]; intros r Hl; simpl.
  - by apply lang_nullable.
  - by apply IH, lang_deriv.
Qed.

(** A LIMIT clause with one more white-space character before it is a
    LIMIT clause. *)
Lemma limit_clause_extends (c : ascii) (clause : string) :
  Py.isspace c = true ->
  Re.matches limit_clause clause = true ->
  Re.matches limit_clause (String c clause) = true.
Proof.
  intros Hc Hm. apply lang_matches. apply matches_lang in Hm. unfold limit_clause in *.
  apply lang_cat_inv in Hm as (a & rest & -> & Ha & Hrest).
  apply lang_cat_inv in Ha as (a1 & a2 & -> & Ha1 & Ha2).
  rewrite <- sapp_cons. constructor; [|done].
  change (String c (a1 +:+ a2)) with (String c "" +:+ a1 +:+ a2).
  constructor; [by constructor|]. by constructor.
Qed.

Lemma sub_at_end_none (r : Re.regex) (s : string) :
  Re.search_at_end r s = false -> Re.sub_at_end r s = s.
Proof.
  induction s as [|c s IH]; simpl; intros H.
  - by destruct (Re.nullable r).
  - apply orb_false_elim in H as [Hm Hs]. rewrite Hm. by rewrite (IH Hs).
Qed.

Lemma search_at_end_lang (r : Re.regex) (s : string) :
  Re.search_at_end r s = true <-> exists body clause, s = body +:+ clause /\ Re.lang r clause.
Proof.
  split.
  - induction s as [|c s IH]; simpl; intros H.
    + rewrite orb_false_r in H. exists "", "". split; [done|]. by apply nullable_lang.
    + apply orb_prop in H as [H | H].
      * exists "", (String c s). split; [done|]. by apply (matches_lang r (String c s)).
      * destruct (IH H) as (body & clause & -> & Hl). by exists (String c body), clause.
  - intros (body & clause & -> & Hl). apply lang_matches in Hl.
    induction body as [|c body IH].
    + rewrite sapp_nil. destruct clause; simpl in *; by rewrite Hl.
    + rewrite sapp_cons. cbn [Re.search_at_end]. rewrite IH. apply orb_true_r.
Qed.

Lemma mutating_head (c : ascii) (r : string) :
  is_mutating (String c r) = true -> Py.isspace c = false.
Proof.
  unfold is_mutating, Py.upper. cbn [Py.smap Py.startswith].
  destruct c as [[] [] [] [] [] [] [] []]; cbn; try done.
Qed.

Lemma mutating_is_no_clause (q : string) :
  is_mutating q = true -> Re.matches limit_clause q = false.
Proof.
  intros Hm. destruct (Re.matches limit_clause q) eqn:E; [|done].
  apply matches_lang, limit_clause_shape in E as (a0 & a' & k & t & -> & Ha0 & _).
  by rewrite (mutating_head _ _ Hm) in Ha0.
Qed.

(** Where a text ends in a LIMIT clause, the clause found first begins the
    text or follows a character that is not white space. *)
Lemma search_at_end_split (s : string) :
  Re.search_at_end limit_clause s = true ->
  Re.matches limit_clause s = true
  \/ exists body clause e,
       s = body +:+ clause /\ Re.matches limit_clause clause = true
       /\ Py.last_char body = Some e /\ Py.isspace e = false.
Proof.
  induction s as [|c s IH]; cbn [Re.search_at_end]; intros H.
  - rewrite orb_false_r in H. by left.
  - apply orb_prop in H as [H | H]; [by left|].
    destruct (IH H) as [Hm | (body & clause & e & -> & Hm & Hl & He)].
    + destruct (Py.isspace c) eqn:Hc.
      * left. by apply limit_clause_extends.
      * right. exists (String c ""), s, c. by repeat split.
    + right. exists (String c body), clause, e. repeat split; try done.
      destruct body; [done|]. exact Hl.
Qed.

(** C5.  Post-processing of a synthesized query.  The result has no
    newline: it is the stripped text, cut where said below, with every
    newline replaced by a space.  A statement that does not begin with
    UPDATE, INSERT or DELETE (a SELECT in particular) is not cut, so it
    keeps its LIMIT clause.  A statement that begins with one of the three
    and ends in a LIMIT clause (white space, the keyword in any case, white
    space, digits) loses that clause; one that does not end in a LIMIT
    clause is not cut either.  These cases leave no statement out: a
    mutating statement with a LIMIT clause at its end splits into a body
    ending in a character that is not white space and the clause.  The text
    [UPDATE t SET x=1 LIMIT 5] becomes [UPDATE t SET x=1]. *)
Theorem validate_and_fix_query_spec (query : string) :
  let q := Py.strip query in
  Py.contains Py.nl (validate_and_fix_query query) = false
  /\ (is_mutating q = false ->
      validate_and_fix_query query = Py.replace Py.nl " " q)
  /\ (Py.startswith "SELECT" (Py.upper q) = true ->
      validate_and_fix_query query = Py.replace Py.nl " " q)
  /\ (forall body clause e,
        is_mutating q = true ->
        q = body +:+ clause ->
        Re.matches limit_clause clause = true ->
        Py.last_char body = Some e -> Py.isspace e = false ->
        validate_and_fix_query query = Py.replace Py.nl " " body)
  /\ (is_mutating q = true ->
      Re.search_at_end limit_clause q = false ->
      validate_and_fix_query query = Py.replace Py.nl " " q)
  /\ (is_mutating q = true ->
      Re.search_at_end limit_clause q = true ->
      exists body clause e,
        q = body +:+ clause /\ Re.matches limit_clause clause = true
        /\ Py.last_char body = Some e /\ Py.isspace e = false)
  /\ (Re.search_at_end limit_clause q = true <->
      exists body clause, q = body +:+ clause /\ Re.lang limit_clause clause)
  /\ validate_and_fix_query "UPDATE t SET x=1 LIMIT 5" = "UPDATE t SET x=1".
Proof.
  intros q. unfold validate_and_fix_query. fold q.
  assert (Hsel : is_mutating q = false ->
                 Py.replace Py.nl " "
                   (if is_mutating q then Re.sub_at_end limit_clause q else q)
                 = Py.replace Py.nl " " q) by (by intros ->).
  split; [apply replace_newline_none|].
  split; [exact Hsel|].
  split; [intros Hs; by apply Hsel, select_is_not_mutating|].
  split.
  { intros body clause e Hm Hq Hc Hl He. rewrite Hm, Hq.
    by rewrite (sub_at_end_cut body clause e). }
  split.
  { intros Hm Hs. by rewrite Hm, (sub_at_end_none _ _ Hs). }
  split.
  { intros Hm Hs. destruct (search_at_end_split q Hs) as [Hc | Hsplit]; [|exact Hsplit].
    by rewrite (mutating_is_no_clause q Hm) in Hc. }
  split; [apply search_at_end_lang | reflexivity].
Qed.

(** An UPDATE over two lines with a LIMIT clause, the same statement
    without the clause, and a SELECT. *)
Lemma validate_and_fix_query_spec_witness :
  let update := " UPDATE t" +:+ Py.nl +:+ "SET x=1  Limit 5 " in
  let plain_update := "UPDATE t" +:+ Py.nl +:+ "SET x=1" in
  let select := "SELECT a FROM t" +:+ Py.nl +:+ "LIMIT 5" in
  (is_mutating (Py.strip update) = true
   /\ Py.strip update = ("UPDATE t" +:+ Py.nl +:+ "SET x=1") +:+ "  Limit 5"
   /\ Re.matches limit_clause "  Limit 5" = true
   /\ Py.last_char ("UPDATE t" +:+ Py.nl +:+ "SET x=1") = Some "1"%char
   /\ Py.isspace "1" = false
   /\ validate_and_fix_query update = "UPDATE t SET x=1")
  /\ (is_mutating (Py.strip plain_update) = true
      /\ Re.search_at_end limit_clause (Py.strip plain_update) = false
      /\ validate_and_fix_query plain_update = "UPDATE t SET x=1")
  /\ (Py.startswith "SELECT" (Py.upper (Py.strip select)) = true
      /\ validate_and_fix_query select = "SELECT a FROM t LIMIT 5").
Proof.
  intros update plain_update select. split; [|split].
  - repeat (split; [reflexivity|]).
    destruct (validate_and_fix_query_spec update) as (_ & _ & _ & Hcut & _).
    rewrite (Hcut ("UPDATE t" +:+ Py.nl +:+ "SET x=1") "  Limit 5" "1"%char
               eq_refl eq_refl eq_refl eq_refl eq_refl).
    reflexivity.
  - split; [reflexivity|]. split; [reflexivity|].
    destruct (validate_and_fix_query_spec plain_update) as (_ & _ & _ & _ & Hkeep & _).
    rewrite (Hkeep eq_refl eq_refl). reflexivity.
  - split; [reflexivity|].
    destruct (validate_and_fix_query_spec select) as (_ & _ & Hsel & _).
    rewrite (Hsel eq_refl). reflexivity.
Defined.

(* ===================================================================== *)
(** ** Persistence of the memory *)
(* ===================================================================== *)

Section PersistenceFacts.

Variable literal_eval : string -> option pyval.
Variable clock : nat -> string.

Lemma store_entities_connection question result answer items ents sv :
  connection (snd (store_entities clock question result answer items ents sv))
  = connection sv.
Proof.
  revert ents sv. induction items as [|item items IH]; intros ents sv; simpl; [done|].
  destruct (tuple_head item) as [x|]; [|by apply IH].
  by rewrite IH.
Qed.

Lemma extract_entities_connection self question result answer sv :
  connection (snd (_extract_entities literal_eval clock self question result answer sv))
  = connection sv.
Proof.
  unfold _extract_entities.
  destruct (parsed_rows literal_eval result) as [items|]; [|done].
  pose proof (store_entities_connection question result answer items (entity_memory self) sv)
    as Hs.
  by destruct (store_entities clock question result answer items (entity_memory self) sv).
Qed.

(** What [add_interaction] does to the store: with a connection the row
    of the user is the memory just built, without one nothing is written. *)
Lemma add_interaction_services self question query result answer sv :
  let r := add_interaction literal_eval clock self question query result answer sv in
  username (fst r) = username self
  /\ max_history (fst r) = max_history self
  /\ connection (snd r) = connection sv
  /\ rows (snd r)
     = if connection sv
       then <[username self :=
                mkMemoryData (conversation_history (fst r)) (question_patterns (fst r))
                  (entity_memory (fst r))]> (rows sv)
       else rows sv.
Proof.
  unfold add_interaction. simpl.
  set (self2 := _extract_question_patterns _ _ _).
  set (sv1 := mkServices (rows sv) (connection sv) (S (ticks sv))).
  pose proof (extract_entities_keeps literal_eval clock self2 question result answer sv1)
    as (_ & Hmax & Huser).
  pose proof (extract_entities_rows literal_eval clock self2 question result answer sv1)
    as Hrows.
  pose proof (extract_entities_connection self2 question result answer sv1) as Hconn.
  destruct (_extract_entities literal_eval clock self2 question result answer sv1)
    as [self3 sv2].
  simpl in Hmax, Huser, Hrows, Hconn.
  unfold save_to_database, db_save_user_memory. rewrite Hconn.
  destruct (connection sv); simpl; rewrite ?Hrows, ?Huser; done.
Qed.

Lemma last_of_slice {A} (n : Z) (h : list A) (x : A) :
  (0 <= n)%Z ->
  last (if (n <? Z.of_nat (length (h ++ [x])))%Z
        then Py.slice_from (- n) (h ++ [x]) else h ++ [x]) = Some x.
Proof.
  intros Hn. destruct (n <? Z.of_nat (length (h ++ [x])))%Z; [|apply last_snoc].
  unfold Py.slice_from. rewrite length_app. simpl length.
  destruct (- n <? 0)%Z eqn:Hneg.
  - rewrite drop_app_le by lia. apply last_snoc.
  - apply Z.ltb_ge in Hneg. replace (- n)%Z with 0%Z by lia.
    rewrite Z.min_l by lia. apply last_snoc.
Qed.

(** X2.  Without a connection to the store [add_interaction] writes no
    row, yet the object still takes the interaction as its last entry; a
    memory object created afterwards for the same user starts empty. *)
Theorem without_connection_memory_only self question query result answer sv :
  connection sv = false ->
  (0 <= max_history self)%Z ->
  let r := add_interaction literal_eval clock self question query result answer sv in
  rows (snd r) = rows sv
  /\ last (conversation_history (fst r))
     = Some (mkInteraction (clock (ticks sv)) question query result answer)
  /\ new_memory (username self) (max_history self) (snd r)
     = mkMemory (username self) (max_history self) [] [] [].
Proof.
  intros Hc Hn r.
  destruct (add_interaction_services self question query result answer sv)
    as (_ & _ & Hconn & Hrows).
  fold r in Hconn, Hrows. rewrite Hc in Hconn, Hrows.
  split; [exact Hrows|]. split.
  - subst r. unfold add_interaction. simpl.
    set (self2 := _extract_question_patterns _ _ _).
    pose proof (extract_entities_keeps literal_eval clock self2 question result answer
                  (mkServices (rows sv) (connection sv) (S (ticks sv)))) as (Hh & _ & _).
    destruct (_extract_entities literal_eval clock self2 question result answer _)
      as [self3 sv2].
    destruct (save_to_database self3 sv2). simpl in *. rewrite Hh.
    by apply last_of_slice.
  - unfold new_memory, load_from_database, db_get_user_memory. simpl username.
    by rewrite Hconn.
Qed.

End PersistenceFacts.

Lemma without_connection_memory_only_witness :
  let sv := mkServices ∅ false 0 in
  let r := add_interaction Literal.literal_eval Demo.clock (mkMemory "u" 10 [] [] [])
             "hello there" "" "" "Hi." sv in
  connection sv = false
  /\ (0 <= 10)%Z
  /\ rows (snd r) = rows sv
  /\ last (conversation_history (fst r))
     = Some (mkInteraction (Demo.clock 0) "hello there" "" "" "Hi.")
  /\ new_memory "u" 10 (snd r) = mkMemory "u" 10 [] [] [].
Proof.
  intros sv r. split; [reflexivity|]. split; [discriminate|].
  exact (without_connection_memory_only Literal.literal_eval Demo.clock
           (mkMemory "u" 10 [] [] []) "hello there" "" "" "Hi." sv eq_refl
           ltac:(discriminate)).
Defined.

(** X3.  Clear, then access.  When the cached object of a user carries
    that user's name, the memory obtained right after
    [MemoryManager.clear_user_memory] is empty, whether the user was cached
    or not and whether the store is connected or not. *)
Theorem clear_then_access_is_empty user (mm : gmap string ConversationMemory) sv :
  (forall m, mm !! user = Some m -> username m = user) ->
  let cleared := clear_user_memory user mm sv in
  fst (get_user_memory user (fst cleared) (snd cleared)) = mkMemory user 10 [] [] [].
Proof.
  intros Hname cleared. subst cleared.
  unfold clear_user_memory, clear_memory, db_clear_user_memory.
  assert (Hfresh : forall mm',
            mm' !! user = None ->
            fst (get_user_memory user mm'
                   (snd (if connection sv
                         then (true,
                               mkServices
                                 match rows sv !! user with
                                 | Some _ => <[user := mkMemoryData [] [] []]> (rows sv)
                                 | None => rows sv
                                 end (connection sv) (ticks sv))
                         else (false, sv))))
            = mkMemory user 10 [] [] []).
  { intros mm' Hnone. unfold get_user_memory. rewrite Hnone. cbn [fst].
    unfold new_memory, load_from_database, db_get_user_memory. simpl username.
    destruct (connection sv) eqn:Hc; cbn [snd connection rows].
    - destruct (rows sv !! user) eqn:Hr.
      + by rewrite lookup_insert_eq.
      + by rewrite Hr.
    - by rewrite Hc. }
  destruct (mm !! user) as [m|] eqn:Hu; cbn [fst snd].
  - rewrite (Hname m eq_refl). apply Hfresh. apply lookup_delete_eq.
  - by apply Hfresh.
Qed.

Lemma clear_then_access_is_empty_witness :
  let cleared := clear_user_memory "u" (fst Scenario.sys_named) (snd Scenario.sys_named) in
  (forall m, fst Scenario.sys_named !! "u" = Some m -> username m = "u")
  /\ conversation_history (fst Scenario.named) <> []
  /\ fst (get_user_memory "u" (fst cleared) (snd cleared)) = mkMemory "u" 10 [] [] [].
Proof.
  intros cleared.
  assert (Hname : forall m, fst Scenario.sys_named !! "u" = Some m -> username m = "u").
  { intros m Hm. unfold Scenario.sys_named in Hm. cbn [fst] in Hm.
    rewrite lookup_insert_eq in Hm. by injection Hm as <-. }
  split; [exact Hname|]. split; [discriminate|].
  exact (clear_then_access_is_empty "u" (fst Scenario.sys_named) (snd Scenario.sys_named)
           Hname).
Defined.

Section IsolationFacts.

Variable literal_eval : string -> option pyval.
Variable clock : nat -> string.
Variable DB : Type.

(** X4.  Memories are per user.  When the cached object of a user carries
    that user's name, recording an interaction for that user leaves the
    memory of every other user, cached or still in the store, as it was. *)
Theorem recording_is_per_user user other question query result answer (w w' : World DB) :
  user <> other ->
  (forall m, user_memories w !! user = Some m -> username m = user) ->
  record_interaction literal_eval clock user question query result answer w = (Ok tt, w') ->
  memory_of other w' = memory_of other w.
Proof.
  intros Hne Hname Hrec.
  rewrite (record_interaction_run literal_eval clock DB) in Hrec.
  injection Hrec as <-.
  destruct (add_interaction_services literal_eval clock (memory_of user w)
              question query result answer (services w)) as (_ & _ & Hconn & Hrows).
  assert (Huser : username (memory_of user w) = user).
  { unfold memory_of, get_user_memory.
    destruct (user_memories w !! user) as [m|] eqn:Hu; cbn [fst]; [by apply Hname|].
    unfold new_memory, load_from_database. by destruct (db_get_user_memory _ _). }
  assert (Hother : snd (get_user_memory user (user_memories w) (services w)) !! other
                   = user_memories w !! other).
  { unfold get_user_memory. destruct (user_memories w !! user); cbn [snd]; [done|].
    by rewrite lookup_insert_ne. }
  assert (Hfst : forall (mm : gmap string ConversationMemory) sv,
            fst (get_user_memory other mm sv)
            = match mm !! other with Some m => m | None => new_memory other 10 sv end).
  { intros mm sv. unfold get_user_memory. by destruct (mm !! other). }
  unfold memory_of in *. cbn [user_memories services]. rewrite !Hfst.
  rewrite lookup_insert_ne by done. rewrite Hother.
  destruct (user_memories w !! other) as [m|]; [done|].
  unfold new_memory, load_from_database, db_get_user_memory. simpl username.
  rewrite Hconn, Hrows, Huser.
  destruct (connection (services w)); [|done].
  by rewrite lookup_insert_ne.
Qed.

End IsolationFacts.

Lemma recording_is_per_user_witness :
  "u" <> "v"
  /\ (forall m, user_memories Cases.world_v !! "u" = Some m -> username m = "u")
  /\ record_interaction Literal.literal_eval Demo.clock "u" "hello there" "" "" "Hi."
       Cases.world_v = (Ok tt, Cases.world_uv)
  /\ map i_question (conversation_history (memory_of "v" Cases.world_v))
     = ["show marks of bob"]
  /\ memory_of "v" Cases.world_uv = memory_of "v" Cases.world_v.
Proof.
  assert (Hne : "u" <> "v") by discriminate.
  assert (Hname : forall m, user_memories Cases.world_v !! "u" = Some m -> username m = "u").
  { intros m Hm. vm_compute in Hm. discriminate. }
  assert (Hrec : record_interaction Literal.literal_eval Demo.clock "u" "hello there" "" ""
                   "Hi." Cases.world_v = (Ok tt, Cases.world_uv)).
  { unfold Cases.world_uv.
    destruct (record_interaction_ok Literal.literal_eval Demo.clock unit "u" "hello there"
                "" "" "Hi." Cases.world_v) as (w' & -> & _). reflexivity. }
  split; [exact Hne|]. split; [exact Hname|]. split; [exact Hrec|].
  split; [reflexivity|].
  exact (recording_is_per_user Literal.literal_eval Demo.clock unit "u" "v" "hello there"
           "" "" "Hi." Cases.world_v Cases.world_uv Hne Hname Hrec).
Defined.

(* ===================================================================== *)
(** ** The pattern index and the entity index *)
(* ===================================================================== *)

(** Lookup after an assignment. *)
Lemma dict_get_set {V} (k k' : string) (v : V) (d : dict V) :
  dict_get k (dict_set k' v d) = if String.eqb k k' then Some v else dict_get k d.
Proof.
  induction d as [|[k0 v0] d IH]; simpl.
  - done.
  - destruct (String.eqb k' k0) eqn:E0; simpl.
    + apply String.eqb_eq in E0. subst k0.
      by destruct (String.eqb k k').
    + rewrite IH. destruct (String.eqb k k') eqn:E1; [|done].
      apply String.eqb_eq in E1. subst k'. by rewrite E0.
Qed.

Lemma patterns_under_append key key' p pats :
  patterns_under key (append_pattern key' p pats)
  = patterns_under key pats ++ (if String.eqb key key' then [p] else []).
Proof.
  unfold patterns_under, append_pattern. rewrite dict_get_set.
  destruct (String.eqb key key') eqn:E.
  - apply String.eqb_eq in E. by subst.
  - by rewrite app_nil_r.
Qed.

(** X5.  The pattern index only grows, by one entry per matching word.
    Under every key the list after [_extract_question_patterns] is the list
    before it, followed by the pair of this question and query exactly when
    the key is [student_queries] and the lower-cased question contains
    "student", or the key is [<word>_queries] for one of the seven column
    words that the question contains; nothing else changes. *)
Theorem question_patterns_append_only (self : ConversationMemory) (question query key : string) :
  let self' := _extract_question_patterns self question query in
  patterns_under key (question_patterns self')
  = patterns_under key (question_patterns self)
    ++ (if pattern_hit (Py.lower question) key then [mkPattern question query] else [])
  /\ conversation_history self' = conversation_history self
  /\ entity_memory self' = entity_memory self.
Proof.
  intros self'. split; [|done].
  subst self'. unfold _extract_question_patterns. cbn [question_patterns].
  unfold pattern_hit, common_columns. cbn [fold_left existsb].
  set (ql := Py.lower question). set (p := mkPattern question query).
  assert (Hstep : forall pats word added,
            patterns_under key pats = patterns_under key (question_patterns self) ++ added ->
            patterns_under key
              (if Py.contains word ql
               then append_pattern (word +:+ "_queries") p pats else pats)
            = patterns_under key (question_patterns self)
              ++ (added ++ if String.eqb key (word +:+ "_queries") && Py.contains word ql
                           then [p] else [])).
  { intros pats word added Hp. destruct (Py.contains word ql).
    - rewrite patterns_under_append, Hp, <- app_assoc, andb_true_r. done.
    - by rewrite andb_false_r, app_nil_r. }
  assert (H0 : patterns_under key
                 (if Py.contains "student" ql
                  then append_pattern "student_queries" p (question_patterns self)
                  else question_patterns self)
               = patterns_under key (question_patterns self)
                 ++ (if String.eqb key "student_queries" && Py.contains "student" ql
                     then [p] else [])).
  { destruct (Py.contains "student" ql).
    - by rewrite patterns_under_append, andb_true_r.
    - by rewrite andb_false_r, app_nil_r. }
  pose proof (Hstep _ "name" _ H0) as H1.
  pose proof (Hstep _ "marks" _ H1) as H2.
  pose proof (Hstep _ "class" _ H2) as H3.
  pose proof (Hstep _ "section" _ H3) as H4.
  pose proof (Hstep _ "grade" _ H4) as H5.
  pose proof (Hstep _ "email" _ H5) as H6.
  pose proof (Hstep _ "id" _ H6) as H7.
  rewrite H7. f_equal. clear.
  destruct (String.eqb key "student_queries") eqn:E0;
    [apply String.eqb_eq in E0; subst key; cbn; by destruct (Py.contains "student" ql)|].
  destruct (String.eqb key ("name" +:+ "_queries")) eqn:E1;
    [apply String.eqb_eq in E1; subst key; cbn; by destruct (Py.contains "name" ql)|].
  destruct (String.eqb key ("marks" +:+ "_queries")) eqn:E2;
    [apply String.eqb_eq in E2; subst key; cbn; by destruct (Py.contains "marks" ql)|].
  destruct (String.eqb key ("class" +:+ "_queries")) eqn:E3;
    [apply String.eqb_eq in E3; subst key; cbn; by destruct (Py.contains "class" ql)|].
  destruct (String.eqb key ("section" +:+ "_queries")) eqn:E4;
    [apply String.eqb_eq in E4; subst key; cbn; by destruct (Py.contains "section" ql)|].
  destruct (String.eqb key ("grade" +:+ "_queries")) eqn:E5;
    [apply String.eqb_eq in E5; subst key; cbn; by destruct (Py.contains "grade" ql)|].
  destruct (String.eqb key ("email" +:+ "_queries")) eqn:E6;
    [apply String.eqb_eq in E6; subst key; cbn; by destruct (Py.contains "email" ql)|].
  destruct (String.eqb key ("id" +:+ "_queries")) eqn:E7;
    [apply String.eqb_eq in E7; subst key; cbn; by destruct (Py.contains "id" ql)|].
  done.
Qed.

Section EntityIndexFacts.

Variable literal_eval : string -> option pyval.
Variable clock : nat -> string.

Lemma store_entities_keeps_written question result answer items ents sv k :
  (exists info, dict_get k ents = Some info /\ written_by question result answer info) ->
  exists info,
    dict_get k (fst (store_entities clock question result answer items ents sv)) = Some info
    /\ written_by question result answer info.
Proof.
  revert ents sv. induction items as [|item items IH]; intros ents sv Hk; simpl; [done|].
  destruct (tuple_head item) as [x|]; [|by apply IH].
  apply IH. rewrite dict_get_set.
  destruct (String.eqb k (Py.lower (PyVal.str x))); [|done].
  eexists. split; [reflexivity|]. by repeat split.
Qed.

Lemma store_entities_hit question result answer items ents sv item x :
  In item items -> tuple_head item = Some x ->
  exists info,
    dict_get (Py.lower (PyVal.str x))
      (fst (store_entities clock question result answer items ents sv)) = Some info
    /\ written_by question result answer info.
Proof.
  revert ents sv. induction items as [|i0 items IH]; intros ents sv Hin Hx; [done|].
  simpl. destruct Hin as [-> | Hin].
  - rewrite Hx. apply store_entities_keeps_written.
    rewrite dict_get_set, String.eqb_refl.
    eexists. split; [reflexivity|]. by repeat split.
  - destruct (tuple_head i0); by apply IH.
Qed.

Lemma store_entities_miss question result answer items ents sv k :
  (forall item x, In item items -> tuple_head item = Some x ->
                  Py.lower (PyVal.str x) <> k) ->
  dict_get k (fst (store_entities clock question result answer items ents sv))
  = dict_get k ents.
Proof.
  revert ents sv. induction items as [|i0 items IH]; intros ents sv Hk; simpl; [done|].
  assert (Hrest : forall item x, In item items -> tuple_head item = Some x ->
                                 Py.lower (PyVal.str x) <> k)
    by (intros item x Hin; apply Hk; by right).
  destruct (tuple_head i0) as [x0|] eqn:H0; [|by apply IH].
  rewrite IH by done. rewrite dict_get_set.
  assert (Hne : Py.lower (PyVal.str x0) <> k) by (apply (Hk i0); [by left | done]).
  destruct (String.eqb k (Py.lower (PyVal.str x0))) eqn:E; [|done].
  apply String.eqb_eq in E. congruence.
Qed.

(** The entity index after [add_interaction] is the one [_extract_entities]
    builds from the index before it. *)
Lemma add_interaction_entities self question query result answer sv :
  entity_memory (fst (add_interaction literal_eval clock self question query result answer sv))
  = match parsed_rows literal_eval result with
    | Some items =>
        fst (store_entities clock question result answer items (entity_memory self)
               (mkServices (rows sv) (connection sv) (S (ticks sv))))
    | None => entity_memory self
    end.
Proof.
  unfold add_interaction. simpl.
  set (self2 := _extract_question_patterns _ _ _).
  set (sv1 := mkServices (rows sv) (connection sv) (S (ticks sv))).
  unfold _extract_entities.
  destruct (parsed_rows literal_eval result) as [items|]; simpl.
  - change (entity_memory self2) with (entity_memory self).
    destruct (store_entities clock question result answer items (entity_memory self) sv1)
      as [ents sv2]. simpl.
    by destruct (save_to_database _ sv2).
  - by destruct (save_to_database self2 sv1).
Qed.

(** X6.  Entities after an interaction.  When the result reads back as a
    non-empty list, every row that is a non-empty tuple has, under the
    lower-cased text of its first element, an entry carrying the question,
    the result and the answer of this interaction (a later interaction on
    the same entity overwrites the earlier entry); every key that no such
    row produces keeps what it had. *)
Theorem entities_after_interaction self question query result answer sv items :
  parsed_rows literal_eval result = Some items ->
  let ents' :=
    entity_memory
      (fst (add_interaction literal_eval clock self question query result answer sv)) in
  (forall item x, In item items -> tuple_head item = Some x ->
     exists info, dict_get (Py.lower (PyVal.str x)) ents' = Some info
                  /\ written_by question result answer info)
  /\ (forall k,
        (forall item x, In item items -> tuple_head item = Some x ->
                        Py.lower (PyVal.str x) <> k) ->
        dict_get k ents' = dict_get k (entity_memory self)).
Proof.
  intros Hp ents'. subst ents'. rewrite add_interaction_entities, Hp. split.
  - intros item x Hin Hx. by eapply store_entities_hit.
  - intros k Hk. by apply store_entities_miss.
Qed.

(** X7.  A result that is not a bracketed list leaves the entity index
    alone: when the result text does not both start with [[] and end with
    []], or [ast.literal_eval] raises on it, [add_interaction] keeps every
    entity as it was and reads the clock once, for the interaction itself.
    Chat turns (empty result) and failed executions are such results. *)
Theorem unreadable_result_keeps_entities self question query result answer sv :
  Py.startswith "[" result && Py.endswith "]" result = false
  \/ literal_eval result = None ->
  let r := add_interaction literal_eval clock self question query result answer sv in
  entity_memory (fst r) = entity_memory self
  /\ ticks (snd r) = S (ticks sv).
Proof.
  intros Hbad r.
  assert (Hp : parsed_rows literal_eval result = None).
  { unfold parsed_rows. destruct Hbad as [-> | ->]; [done|].
    by destruct (Py.startswith "[" result && Py.endswith "]" result). }
  split.
  - subst r. by rewrite add_interaction_entities, Hp.
  - subst r. unfold add_interaction. simpl. unfold _extract_entities. rewrite Hp.
    unfold save_to_database, db_save_user_memory. simpl. by destruct (connection sv).
Qed.

End EntityIndexFacts.

Lemma entities_after_interaction_witness :
  let items := [PyTuple [PyStr "Alice"; PyInt 95]] in
  parsed_rows Literal.literal_eval "[('Alice', 95)]" = Some items
  /\ In (PyTuple [PyStr "Alice"; PyInt 95]) items
  /\ tuple_head (PyTuple [PyStr "Alice"; PyInt 95]) = Some (PyStr "Alice")
  /\ exists info,
       dict_get "alice" (entity_memory (fst Scenario.named)) = Some info
       /\ written_by "Who is the top student" "[('Alice', 95)]" "Alice is the top student."
            info.
Proof.
  intros items. split; [reflexivity|]. split; [by left|]. split; [reflexivity|].
  exact (proj1 (entities_after_interaction Literal.literal_eval Demo.clock Scenario.m1
                  "Who is the top student"
                  "SELECT name, marks FROM students ORDER BY marks DESC LIMIT 1"
                  "[('Alice', 95)]" "Alice is the top student." Demo.services0 items
                  eq_refl)
           (PyTuple [PyStr "Alice"; PyInt 95]) (PyStr "Alice") (or_introl eq_refl) eq_refl).
Defined.

Lemma unreadable_result_keeps_entities_witness :
  let result := "Error executing query: no such table" in
  let r := add_interaction Literal.literal_eval Demo.clock (fst Scenario.named)
             "list the teachers" "SELECT name FROM teachers LIMIT 10" result
             "Sorry, the query could not be run." (snd Scenario.named) in
  (Py.startswith "[" result && Py.endswith "]" result = false
   \/ Literal.literal_eval result = None)
  /\ entity_memory (fst r) = entity_memory (fst Scenario.named)
  /\ ticks (snd r) = S (ticks (snd Scenario.named)).
Proof.
  intros result r. split; [by left|].
  exact (unreadable_result_keeps_entities Literal.literal_eval Demo.clock
           (fst Scenario.named) "list the teachers" "SELECT name FROM teachers LIMIT 10"
           result "Sorry, the query could not be run." (snd Scenario.named)
           (or_introl eq_refl)).
Defined.

(* ===================================================================== *)
(** ** Reference resolution beyond pronouns *)
(* ===================================================================== *)

Lemma ascii_compare_refl (a : ascii) : Ascii.compare a a = Eq.
Proof. unfold Ascii.compare. apply N.compare_refl. Qed.

Lemma ascii_compare_lt_trans (a b c : ascii) :
  Ascii.compare a b = Lt -> Ascii.compare b c = Lt -> Ascii.compare a c = Lt.
Proof.
  unfold Ascii.compare. rewrite !N.compare_lt_iff. apply N.lt_trans.
Qed.

Lemma string_compare_lt_trans (s1 s2 s3 : string) :
  String.compare s1 s2 = Lt -> String.compare s2 s3 = Lt -> String.compare s1 s3 = Lt.
Proof.
  revert s2 s3. induction s1 as [|a s1 IH]; intros [|b s2] [|c s3]; simpl; try done.
  destruct (Ascii.compare a b) eqn:Hab; try done;
    destruct (Ascii.compare b c) eqn:Hbc; try done; intros H12 H23.
  - apply Ascii.compare_eq_iff in Hab, Hbc. subst. rewrite ascii_compare_refl. eauto.
  - apply Ascii.compare_eq_iff in Hab. subst. by rewrite Hbc.
  - apply Ascii.compare_eq_iff in Hbc. subst. by rewrite Hab.
  - by rewrite (ascii_compare_lt_trans a b c).
Qed.

Lemma ltb_false_step (r b x : string) :
  String.ltb r b = false -> String.ltb b x = false -> String.ltb r x = false.
Proof.
  unfold String.ltb. intros Hrb Hbx.
  destruct (String.compare r x) eqn:Hrx; try done.
  exfalso. rewrite String.compare_antisym in Hrb.
  destruct (String.compare b r) eqn:Hbr; simpl in Hrb; try done.
  - apply String.compare_eq_iff in Hbr. subst. by rewrite Hrx in Hbx.
  - by rewrite (string_compare_lt_trans b r x) in Hbx.
Qed.

Lemma ltb_true_step (r b x : string) :
  String.ltb b x = true -> String.ltb r x = false -> String.ltb r b = false.
Proof.
  unfold String.ltb. intros Hbx Hrx.
  destruct (String.compare r b) eqn:Hrb; try done.
  destruct (String.compare b x) eqn:Hbx'; try done.
  by rewrite (string_compare_lt_trans r b x) in Hrx.
Qed.

Lemma ltb_irrefl (s : string) : String.ltb s s = false.
Proof.
  unfold String.ltb.
  assert (H : String.compare s s = Eq).
  { induction s as [|a s IH]; simpl; [done|]. by rewrite ascii_compare_refl. }
  by rewrite H.
Qed.

(** [max] with the timestamp as key returns an entry that no entry is
    later than. *)
Lemma max_by_timestamp_greatest (best : string * EntityInfo) (d : dict EntityInfo) :
  In (max_by_timestamp best d) (best :: d)
  /\ forall x, In x (best :: d) ->
       String.ltb (e_timestamp (snd (max_by_timestamp best d))) (e_timestamp (snd x)) = false.
Proof.
  revert best. induction d as [|y d IH]; intros best; simpl.
  - split; [by left|]. intros x [<- | []]. apply ltb_irrefl.
  - destruct (String.ltb (e_timestamp (snd best)) (e_timestamp (snd y))) eqn:Hlt.
    + destruct (IH y) as [Hin Hmax]. split; [by right|].
      intros x [<- | Hx]; [|by apply Hmax].
      eapply ltb_true_step; [exact Hlt|]. apply Hmax. by left.
    + destruct (IH best) as [Hin Hmax]. split.
      * destruct Hin as [<- | Hin]; [by left | by right; right].
      * intros x [<- | [<- | Hx]].
        -- apply Hmax. by left.
        -- eapply ltb_false_step; [|exact Hlt]. apply Hmax. by left.
        -- apply Hmax. by right.
Qed.

Section ImplicitSubjectFacts.

Variable literal_eval : string -> option pyval.

(** X8.  Nothing to refer to.  When the last result gives no name (no
    history yet, or the last turn was a chat or a failed or empty query)
    and the question is not a marks question, or no entity is known, the
    resolved question is the question itself. *)
Theorem nothing_to_resolve self question :
  last_name literal_eval self = None ->
  asks_for_marks (Py.lower question) = false \/ entity_memory self = [] ->
  resolve_contextual_references literal_eval self question = question.
Proof.
  intros Hn Hm. unfold resolve_contextual_references.
  assert (Hfold : forall ps r,
            fold_left (resolve_pronoun literal_eval self (Py.lower question)) ps r = r).
  { induction ps as [|p ps IH]; intros r; simpl; [done|].
    rewrite IH. unfold resolve_pronoun, last_name in *.
    destruct (Py.contains p (Py.lower question)); [|done].
    destruct (last (conversation_history self)) as [i|]; [|done].
    destruct (parsed_rows literal_eval (i_result i)) as [items|]; [|done].
    by rewrite Hn. }
  rewrite Hfold. destruct Hm as [-> | ->]; [done|].
  by destruct (asks_for_marks (Py.lower question)).
Qed.

(** X9.  The implicit subject of a marks question.  When the lower-cased
    question has "what" and "marks" or "grade", some entity is known and
    no known entity key occurs in the question, the resolved question is
    [what are <key>'s marks] for a key whose entry has a timestamp that no
    other entry's timestamp is greater than, whatever the pronouns would
    have given. *)
Theorem marks_question_takes_latest_entity self question :
  asks_for_marks (Py.lower question) = true ->
  entity_memory self <> [] ->
  (forall name, In name (dict_keys (entity_memory self)) ->
                Py.contains name (Py.lower question) = false) ->
  exists name info,
    In (name, info) (entity_memory self)
    /\ (forall name' info', In (name', info') (entity_memory self) ->
          String.ltb (e_timestamp info) (e_timestamp info') = false)
    /\ resolve_contextual_references literal_eval self question
       = "what are " +:+ name +:+ "'s marks".
Proof.
  intros Hm Hne Hnone. unfold resolve_contextual_references. rewrite Hm.
  destruct (entity_memory self) as [|e rest] eqn:He; [done|].
  assert (Hex : existsb (fun name => Py.contains name (Py.lower question))
                  (dict_keys (e :: rest)) = false).
  { apply not_true_is_false. intros Hx. apply existsb_exists in Hx as (n & Hin & Hc).
    by rewrite (Hnone n Hin) in Hc. }
  rewrite Hex. cbn [negb].
  destruct (max_by_timestamp_greatest e rest) as [Hin Hmax].
  destruct (max_by_timestamp e rest) as [name info] eqn:Hbest.
  exists name, info. split; [exact Hin|]. split; [|done].
  intros name' info' Hin'. apply (Hmax (name', info') Hin').
Qed.

End ImplicitSubjectFacts.

(** After a chat turn the pronoun of the next question stays. *)
Lemma nothing_to_resolve_witness :
  last_name Literal.literal_eval (fst Scenario.five) = None
  /\ (asks_for_marks (Py.lower "what is her email") = false
      \/ entity_memory (fst Scenario.five) = [])
  /\ resolve_contextual_references Literal.literal_eval (fst Scenario.five)
       "what is her email" = "what is her email".
Proof.
  split; [reflexivity|]. split; [by left|].
  exact (nothing_to_resolve Literal.literal_eval (fst Scenario.five) "what is her email"
           eq_refl (or_introl eq_refl)).
Defined.

Lemma marks_question_takes_latest_entity_witness :
  asks_for_marks (Py.lower "What are the marks") = true
  /\ entity_memory (fst Scenario.named) <> []
  /\ (forall name, In name (dict_keys (entity_memory (fst Scenario.named))) ->
                   Py.contains name (Py.lower "What are the marks") = false)
  /\ resolve_contextual_references Literal.literal_eval (fst Scenario.named)
       "What are the marks" = "what are alice's marks".
Proof.
  assert (Hne : entity_memory (fst Scenario.named) <> [])
    by (intros H; vm_compute in H; discriminate).
  assert (Hnone : forall name, In name (dict_keys (entity_memory (fst Scenario.named))) ->
                               Py.contains name (Py.lower "What are the marks") = false).
  { intros name Hin. vm_compute in Hin. destruct Hin as [<- | []]. reflexivity. }
  split; [reflexivity|]. split; [exact Hne|]. split; [exact Hnone|].
  destruct (marks_question_takes_latest_entity Literal.literal_eval (fst Scenario.named)
              "What are the marks" eq_refl Hne Hnone) as (name & info & Hin & _ & ->).
  vm_compute in Hin. destruct Hin as [Heq | []]. by injection Heq as <- _.
Defined.

(* ===================================================================== *)
(** ** More on the workflow *)
(* ===================================================================== *)

Section WorkflowEdgeFacts.

Variable literal_eval : string -> option pyval.
Variable clock : nat -> string.
Variable llm : Prompt -> Result string.
Variable DB : Type.
Variable run_sql : string -> DB -> Result string * DB.
Variable get_table_info_str : DB -> string.

(** X10.  The intent is always one of two.  Whatever the model replies to
    the classification prompt, [classify_intent] stores "sql" or "chat",
    and "sql" exactly when the reply, stripped and lower-cased, is "sql";
    the world is not touched. *)
Theorem intent_is_sql_or_chat (state : State) (w : World DB) (reply : string) :
  llm (ClassificationPrompt (st_context_from_memory state) (st_question state)
         (st_resolved_question state)) = Ok reply ->
  exists intent,
    classify_intent llm DB state w = (Ok (set_intent intent state), w)
    /\ (intent = "sql" \/ intent = "chat")
    /\ (intent = "sql" <-> Py.lower (Py.strip reply) = "sql").
Proof.
  intros Hllm. unfold classify_intent, bind, invoke_llm, ret. rewrite Hllm.
  eexists. split; [reflexivity|].
  destruct (String.eqb (Py.lower (Py.strip reply)) "sql") eqn:Es.
  - apply String.eqb_eq in Es. cbn [orb]. split; [by left | done].
  - cbn [orb]. destruct (String.eqb (Py.lower (Py.strip reply)) "chat") eqn:Ec.
    + apply String.eqb_eq in Ec. rewrite Ec. split; [by right | done].
    + apply String.eqb_neq in Es. split; [by right|]. split; [done | by intros ?].
Qed.

Lemma accessed_world_memory user (w : World DB) :
  memory_of user
    (mkWorld (snd (get_user_memory user (user_memories w) (services w)))
       (services w) (database w))
  = memory_of user w.
Proof.
  unfold memory_of. cbn [user_memories services]. by rewrite get_user_memory_cached.
Qed.

(** X11.  The human checkpoint.  When the question is classified "sql" and
    the model writes a query, [run_until_human_review] returns a successful
    state with that query post-processed and with no result and no answer;
    the SQL database is as before, nothing was recorded, and neither the
    clock nor the store was touched. *)
Theorem sql_question_pauses_before_execution
  (user question : string) (w : World DB) (verdict reply : string) :
  let m := memory_of user w in
  let context := get_relevant_context m question in
  let resolved := resolve_contextual_references literal_eval m question in
  llm (ClassificationPrompt context question resolved) = Ok verdict ->
  Py.lower (Py.strip verdict) = "sql" ->
  llm (QueryPrompt "sqlite" 10 (get_table_info_str (database w)) context resolved
         question "") = Ok reply ->
  exists final w',
    run_until_human_review literal_eval clock llm get_table_info_str user question w
    = (Ok final, w')
    /\ st_intent final = Some "sql"
    /\ st_success final = true
    /\ st_query final
       = validate_and_fix_query
           match search_fenced (Py.strip reply) with
           | Some body => Py.strip body
           | None => Py.strip (Py.strip reply)
           end
    /\ st_result final = "" /\ st_answer final = ""
    /\ st_resolved_question final = resolved
    /\ database w' = database w
    /\ services w' = services w
    /\ memory_of user w' = m.
Proof.
  intros m context resolved Hcls Hsql Hq.
  exists (set_query
            (validate_and_fix_query
               match search_fenced (Py.strip reply) with
               | Some body => Py.strip body
               | None => Py.strip (Py.strip reply)
               end)
            (set_intent "sql"
               (set_memory_context context resolved
                  (mkState user question "" "" true "" "" "" "" "" None)))),
    (mkWorld (snd (get_user_memory user (user_memories w) (services w)))
       (services w) (database w)).
  split.
  - unfold run_until_human_review, try_except, bind, add_memory_context, bind, user_memory,
      classify_intent, bind, invoke_llm, ret.
    cbn [st_username st_question].
    destruct (get_user_memory user (user_memories w) (services w)) as [m' mm] eqn:Hg.
    cbn [snd].
    assert (m' = m) as -> by (unfold m, memory_of; by rewrite Hg).
    fold context resolved.
    cbn [set_memory_context st_context_from_memory st_question st_resolved_question].
    rewrite Hcls, Hsql. unfold should_route_to_sql.
    cbn [set_intent st_intent]. cbv [default from_option id].
    cbn [String.eqb Ascii.eqb Bool.eqb andb orb].
    unfold write_query, bind, invoke_llm, ret.
    cbn [database st_context_from_memory st_question st_resolved_question st_feedback
           set_intent set_memory_context].
    rewrite Hq. reflexivity.
  - repeat split. apply accessed_world_memory.
Qed.

(** X12.  A start never raises, never touches the SQL database, and a
    failed start records nothing: [run_until_human_review] always returns
    a state; when that state is marked unsuccessful, the clock and the
    store are untouched, the memory of the user is as before, the answer
    is the error text behind [Error during processing: ] and the resolved
    question is the question. *)
Theorem failed_start_records_nothing (user question : string) (w : World DB) :
  exists final w',
    run_until_human_review literal_eval clock llm get_table_info_str user question w
    = (Ok final, w')
    /\ database w' = database w
    /\ (st_success final = false ->
        services w' = services w
        /\ memory_of user w' = memory_of user w
        /\ st_answer final = "Error during processing: " +:+ st_error final
        /\ st_resolved_question final = question).
Proof.
  pose proof (accessed_world_memory user w) as Ha.
  unfold run_until_human_review, try_except, bind, add_memory_context, bind, user_memory,
    classify_intent, bind, invoke_llm, ret.
  cbn [st_username st_question].
  destruct (get_user_memory user (user_memories w) (services w)) as [m mm].
  cbn [snd] in Ha.
  cbn [set_memory_context st_context_from_memory st_question st_resolved_question].
  destruct (llm (ClassificationPrompt _ _ _)) as [verdict | e].
  2: { do 2 eexists. split; [reflexivity|]. by repeat split. }
  unfold should_route_to_sql. cbn [set_intent st_intent]. cbv [default from_option id].
  match goal with
  | |- context [if String.eqb (if String.eqb ?i "sql" then "sql" else "chat") "sql"
                then _ else _] =>
      destruct (String.eqb i "sql")
  end; cbn [String.eqb Ascii.eqb Bool.eqb andb].
  - unfold write_query, bind, invoke_llm, ret. cbn [database].
    destruct (llm (QueryPrompt _ _ _ _ _ _ _)) as [reply | e];
      do 2 eexists; (split; [reflexivity|]); by repeat split.
  - unfold basic_chat, bind, invoke_llm, ret.
    destruct (llm (ChatPrompt _ _ _)) as [reply | e].
    2: { do 2 eexists. split; [reflexivity|]. by repeat split. }
    rewrite (record_interaction_run literal_eval clock DB). cbv zeta.
    cbn [st_question st_answer set_result set_query set_answer set_intent
           set_memory_context].
    rewrite (record_interaction_run literal_eval clock DB). cbv zeta.
    do 2 eexists. split; [reflexivity|]. by repeat split.
Qed.

(** X13.  A failed answer after execution.  When the model raises on the
    answer prompt, [finalize_after_approval] has already run the statement:
    the SQL database is in its new state, the returned state is marked
    unsuccessful with an empty result and the error text, and no
    interaction is recorded. *)
Theorem failed_answer_after_execution
  (state : State) (w : World DB) outcome (db' : DB) (e : string) :
  let result := match outcome with
                | Ok r => r
                | Raise msg => "Error executing query: " +:+ msg
                end in
  run_sql (st_query state) (database w) = (outcome, db') ->
  llm (AnswerPrompt (st_question state) (st_resolved_question state) (st_query state)
         result (st_feedback state) (st_context_from_memory state)) = Raise e ->
  exists final,
    finalize_after_approval literal_eval clock llm run_sql state w
    = (Ok final, mkWorld (user_memories w) (services w) db')
    /\ st_success final = false
    /\ st_error final = e
    /\ st_answer final = "Error during final execution: " +:+ e
    /\ st_result final = ""
    /\ st_query final = st_query state.
Proof.
  intros result Hsql Hllm. eexists. split.
  - unfold finalize_after_approval, try_except, bind, execute_query, generate_answer,
      bind, invoke_llm, ret.
    rewrite Hsql.
    destruct outcome as [r | msg];
      cbn [st_question st_resolved_question st_query st_result st_feedback
             st_context_from_memory set_feedback set_result st_username];
      subst result; cbn iota beta in *; rewrite Hllm; reflexivity.
  - by repeat split.
Qed.

End WorkflowEdgeFacts.

(** An unclear reply counts as chat. *)
Lemma intent_is_sql_or_chat_witness :
  let unsure (p : Prompt) : Result string := Ok " Maybe" in
  let state := mkState "u" "hello there" "" "" true "" "" "" "hello there" "" None in
  unsure (ClassificationPrompt "" "hello there" "hello there") = Ok " Maybe"
  /\ classify_intent unsure unit state Demo.world0 = (Ok (set_intent "chat" state), Demo.world0).
Proof.
  intros unsure state. split; [reflexivity|].
  destruct (intent_is_sql_or_chat unsure unit state Demo.world0 " Maybe" eq_refl)
    as (intent & Hrun & [-> | ->] & Hiff).
  - destruct Hiff as [Hsql _]. specialize (Hsql eq_refl). discriminate.
  - exact Hrun.
Defined.

Lemma sql_question_pauses_before_execution_witness :
  Demo.llm (ClassificationPrompt "" "who is the top student" "who is the top student")
  = Ok "sql"
  /\ Py.lower (Py.strip "sql") = "sql"
  /\ Demo.llm (QueryPrompt "sqlite" 10 (Demo.get_table_info_str tt) ""
                 "who is the top student" "who is the top student" "")
     = Ok "SELECT name, marks FROM students LIMIT 10"
  /\ exists final w',
       Scenario.sql_pause = (Ok final, w')
       /\ st_intent final = Some "sql"
       /\ st_success final = true
       /\ st_query final = "SELECT name, marks FROM students LIMIT 10"
       /\ st_result final = "" /\ st_answer final = ""
       /\ st_resolved_question final = "who is the top student"
       /\ database w' = tt
       /\ services w' = Demo.services0
       /\ memory_of "u" w' = memory_of "u" Demo.world0.
Proof.
  split; [reflexivity|]. split; [reflexivity|]. split; [reflexivity|].
  exact (sql_question_pauses_before_execution Literal.literal_eval Demo.clock Demo.llm unit
           Demo.get_table_info_str "u" "who is the top student" Demo.world0 "sql"
           "SELECT name, marks FROM students LIMIT 10" eq_refl eq_refl eq_refl).
Defined.

(** The statement runs, the model is down, nothing is recorded. *)
Lemma failed_answer_after_execution_witness :
  Demo.run_sql (st_query Scenario.paused) (database Demo.world0)
  = (Ok "[('alice', 95)]", tt)
  /\ Cases.llm_down (AnswerPrompt "list the students " "list the students "
                       "SELECT name, marks FROM students LIMIT 10" "[('alice', 95)]" "" "")
     = Raise "connection refused"
  /\ exists final,
       finalize_after_approval Literal.literal_eval Demo.clock Cases.llm_down Demo.run_sql
         Scenario.paused Demo.world0
       = (Ok final, mkWorld (user_memories Demo.world0) (services Demo.world0) tt)
       /\ st_success final = false
       /\ st_error final = "connection refused"
       /\ st_answer final = "Error during final execution: " +:+ "connection refused"
       /\ st_result final = ""
       /\ st_query final = "SELECT name, marks FROM students LIMIT 10".
Proof.
  split; [reflexivity|]. split; [reflexivity|].
  exact (failed_answer_after_execution Literal.literal_eval Demo.clock Cases.llm_down unit
           Demo.run_sql Scenario.paused Demo.world0 (Ok "[('alice', 95)]") tt
           "connection refused" eq_refl eq_refl).
Defined.

(* ===================================================================== *)
(** ** Stripping, fences and the LIMIT clause *)
(* ===================================================================== *)

Lemma lstrip_head (s : string) (c : ascii) (r : string) :
  Py.lstrip s = String c r -> Py.isspace c = false.
Proof.
  induction s as [|x s IH]; simpl; [done|].
  destruct (Py.isspace x) eqn:Hx; [exact IH|]. intros [= <- _]. exact Hx.
Qed.

Lemma lstrip_idem (s : string) : Py.lstrip (Py.lstrip s) = Py.lstrip s.
Proof.
  destruct (Py.lstrip s) as [|c r] eqn:E; [done|].
  simpl. by rewrite (lstrip_head s c r E).
Qed.

Lemma rstrip_head (c : ascii) (r : string) :
  Py.rstrip (String c r) = "" \/ exists r', Py.rstrip (String c r) = String c r'.
Proof.
  simpl. destruct (Py.rstrip r); [destruct (Py.isspace c)|]; eauto.
Qed.

Lemma rstrip_last (s : string) (e : ascii) :
  Py.last_char (Py.rstrip s) = Some e -> Py.isspace e = false.
Proof.
  induction s as [|c s IH]; simpl; [done|].
  destruct (Py.rstrip s) as [|d r] eqn:E.
  - destruct (Py.isspace c) eqn:Hc; simpl; [done|]. by intros [= <-].
  - exact IH.
Qed.

Lemma rstrip_fixed (s : string) (e : ascii) :
  Py.last_char s = Some e -> Py.isspace e = false -> Py.rstrip s = s.
Proof.
  intros Hl He. induction s as [|c s IH]; [done|].
  destruct s as [|d s].
  - simpl in *. injection Hl as ->. by rewrite He.
  - change (Py.last_char (String c (String d s))) with (Py.last_char (String d s)) in Hl.
    change (Py.rstrip (String c (String d s)))
      with (match Py.rstrip (String d s) with
            | "" => if Py.isspace c then "" else String c ""
            | r => String c r
            end).
    by rewrite (IH Hl).
Qed.

Lemma rstrip_idem (s : string) : Py.rstrip (Py.rstrip s) = Py.rstrip s.
Proof.
  destruct (Py.last_char (Py.rstrip s)) as [e|] eqn:E.
  - apply (rstrip_fixed _ e E). by apply (rstrip_last s).
  - destruct (Py.rstrip s) as [|c r]; [done|].
    exfalso. clear -E. revert c E. induction r as [|d r IH]; intros c E; [done|].
    by apply (IH d).
Qed.

(** The text left by [strip] starts and ends with characters that are not
    white space. *)
Lemma strip_head (s : string) (c : ascii) (r : string) :
  Py.strip s = String c r -> Py.isspace c = false.
Proof.
  unfold Py.strip. destruct (Py.lstrip s) as [|x t] eqn:E; [done|].
  intros Hr. destruct (rstrip_head x t) as [H0 | (r' & H1)]; [congruence|].
  rewrite H1 in Hr. injection Hr as <- _. by apply (lstrip_head s x t).
Qed.

Lemma strip_fixed (c : ascii) (r : string) (e : ascii) :
  Py.isspace c = false -> Py.last_char (String c r) = Some e -> Py.isspace e = false ->
  Py.strip (String c r) = String c r.
Proof.
  intros Hc Hl He. unfold Py.strip. cbn [Py.lstrip]. rewrite Hc.
  by apply (rstrip_fixed _ e).
Qed.

Lemma strip_idem (s : string) : Py.strip (Py.strip s) = Py.strip s.
Proof.
  destruct (Py.strip s) as [|c r] eqn:E; [done|].
  destruct (Py.last_char (String c r)) as [e|] eqn:El.
  - apply (strip_fixed c r e); [by apply (strip_head s c r) | done |].
    apply (rstrip_last (Py.lstrip s)). unfold Py.strip in E. by rewrite E.
  - exfalso. clear -El. revert c El. induction r as [|d r IH]; intros c El; [done|].
    by apply (IH d).
Qed.

Lemma last_char_app (a b : string) :
  b <> "" -> Py.last_char (a +:+ b) = Py.last_char b.
Proof.
  intros Hb. induction a as [|c a IH]; [done|].
  rewrite sapp_cons. destruct (a +:+ b) eqn:E.
  - destruct a; [by rewrite sapp_nil in E | by rewrite sapp_cons in E].
  - simpl. by rewrite <- IH.
Qed.

Lemma all_chars_last (p : ascii -> bool) (t : string) :
  Py.all_chars p t = true -> t <> "" -> exists e, Py.last_char t = Some e /\ p e = true.
Proof.
  induction t as [|c t IH]; [done|]. cbn [Py.all_chars]. intros H _.
  apply andb_prop in H as [Hc Ht]. destruct t as [|d t].
  - exists c. by split.
  - destruct (IH Ht) as (e & He & Hp); [done|]. exists e. by split.
Qed.

(** A word of the LIMIT pattern ends in a digit or in white space. *)
Lemma limit_clause_last (s : string) :
  Re.lang limit_clause s -> exists e, Py.last_char s = Some e /\ plain e = true.
Proof.
  unfold limit_clause. intros Hl.
  apply lang_cat_inv in Hl as (a & s2 & -> & _ & Hl).
  apply lang_cat_inv in Hl as (k & s3 & -> & _ & Hl).
  apply lang_cat_inv in Hl as (b & s4 & -> & _ & Hl).
  apply lang_cat_inv in Hl as (d & c & -> & Hd & Hc).
  apply lang_plus_class in Hd as (d0 & d' & -> & Hd0 & Hd').
  apply lang_star_class in Hc.
  assert (Hws : forall x, Py.isspace x = true -> plain x = true)
    by (intros x Hx; unfold plain; by rewrite Hx).
  assert (Hdg : forall x, Py.isdigit x = true -> plain x = true)
    by (intros x Hx; unfold plain; rewrite Hx; apply orb_true_r).
  assert (Ht : Py.all_chars plain (String d0 d' +:+ c) = true).
  { rewrite all_chars_app. cbn [Py.all_chars].
    by rewrite (Hdg _ Hd0), (all_chars_weaken _ _ _ Hdg Hd'), (all_chars_weaken _ _ _ Hws Hc). }
  destruct (all_chars_last plain _ Ht) as (e & He & Hp); [by rewrite sapp_cons|].
  exists e. split; [|done].
  assert (Hn : forall x y : string, y <> "" -> x +:+ y <> "")
    by (intros [|x0 x] y Hy; [by rewrite sapp_nil | by rewrite sapp_cons]).
  assert (H1 : String d0 d' +:+ c <> "") by (by rewrite sapp_cons).
  rewrite (last_char_app a), (last_char_app k), (last_char_app b); auto.
Qed.

Lemma sub_at_end_unchanged (s : string) (e : ascii) :
  Py.last_char s = Some e -> plain e = false ->
  Re.sub_at_end limit_clause s = s.
Proof.
  intros Hl He. induction s as [|c s IH]; [done|].
  cbn [Re.sub_at_end].
  destruct (Re.matches limit_clause (String c s)) eqn:Hm.
  - apply matches_lang, limit_clause_last in Hm as (e' & He' & Hp). congruence.
  - f_equal. destruct s as [|d s]; [done|]. by apply IH.
Qed.

(** X14.  The LIMIT clause goes only when the text ends in a digit.  When
    the stripped reply ends in any other character (a semicolon after the
    clause, say), post-processing removes nothing, whatever the statement
    begins with: the result is the stripped text with its newlines turned
    into spaces. *)
Theorem limit_kept_unless_text_ends_in_digit (query : string) (e : ascii) :
  Py.last_char (Py.strip query) = Some e ->
  Py.isdigit e = false ->
  validate_and_fix_query query = Py.replace Py.nl " " (Py.strip query).
Proof.
  intros Hl Hd. unfold validate_and_fix_query.
  destruct (is_mutating (Py.strip query)); [|done].
  rewrite (sub_at_end_unchanged _ e Hl); [done|].
  unfold plain. rewrite Hd. unfold Py.strip in Hl.
  by rewrite (rstrip_last _ e Hl).
Qed.

Lemma limit_kept_unless_text_ends_in_digit_witness :
  Py.last_char (Py.strip "DELETE FROM students LIMIT 5; ") = Some ";"%char
  /\ Py.isdigit ";" = false
  /\ validate_and_fix_query "DELETE FROM students LIMIT 5; " = "DELETE FROM students LIMIT 5;".
Proof.
  split; [reflexivity|]. split; [reflexivity|].
  rewrite (limit_kept_unless_text_ends_in_digit "DELETE FROM students LIMIT 5; " ";"%char
             eq_refl eq_refl).
  reflexivity.
Defined.

Lemma startswith_app_l (p a b : string) :
  Py.startswith p a = true -> Py.startswith p (a +:+ b) = true.
Proof.
  revert a. induction p as [|x p IH]; intros [|y a]; simpl; try done.
  intros H. apply andb_prop in H as [Hx Hp]. rewrite Hx. by apply IH.
Qed.

Lemma contains_app_l (p a b : string) :
  Py.contains p a = true -> Py.contains p (a +:+ b) = true.
Proof.
  induction a as [|c a IH].
  - simpl. rewrite orb_false_r. intros H. destruct p; [|done]. by destruct b.
  - rewrite sapp_cons. cbn [Py.contains]. intros H. apply orb_prop in H as [H | H].
    + rewrite <- sapp_cons. by rewrite (startswith_app_l p _ b H).
    + rewrite (IH H). apply orb_true_r.
Qed.

Lemma rstrip_prefix (s : string) : exists t, s = Py.rstrip s +:+ t.
Proof.
  induction s as [|c s (t & Ht)]; [by exists ""|].
  simpl. destruct (Py.rstrip s) as [|d r] eqn:E.
  - destruct (Py.isspace c).
    + by exists (String c s).
    + exists s. by rewrite sapp_cons, sapp_nil.
  - exists t. rewrite sapp_cons. by rewrite <- Ht.
Qed.

Lemma contains_lstrip (p s : string) :
  Py.contains p (Py.lstrip s) = true -> Py.contains p s = true.
Proof.
  induction s as [|c s IH]; [done|]. cbn [Py.lstrip].
  destruct (Py.isspace c); [|done].
  intros H. cbn [Py.contains]. rewrite (IH H). apply orb_true_r.
Qed.

Lemma contains_strip (p s : string) :
  Py.contains p (Py.strip s) = true -> Py.contains p s = true.
Proof.
  unfold Py.strip. intros H. apply contains_lstrip.
  destruct (rstrip_prefix (Py.lstrip s)) as (t & Ht). rewrite Ht.
  by apply contains_app_l.
Qed.

Lemma search_fenced_none (s : string) :
  Py.contains (fence +:+ "sql") s = false -> search_fenced s = None.
Proof.
  induction s as [|c s IH]; intros Hc.
  - reflexivity.
  - cbn [Py.contains] in Hc. apply orb_false_elim in Hc as [Hs Hc].
    cbn [search_fenced]. unfold fenced_here. rewrite Hs. by apply IH.
Qed.

Lemma lstrip_app_keep (b x : string) (d : ascii) (x' : string) :
  x = String d x' -> Py.isspace d = false ->
  Py.lstrip (b +:+ x) = Py.lstrip b +:+ x.
Proof.
  intros -> Hd. induction b as [|c b IH].
  - rewrite sapp_nil. simpl. by rewrite Hd.
  - rewrite sapp_cons. cbn [Py.lstrip]. destruct (Py.isspace c); [exact IH | done].
Qed.

Lemma no_backtick_lstrip (b : string) :
  no_backtick b = true -> no_backtick (Py.lstrip b) = true.
Proof.
  unfold no_backtick. induction b as [|c b IH]; [done|].
  cbn [Py.all_chars Py.lstrip]. intros H.
  destruct (Py.isspace c); [|done]. apply andb_prop in H as [_ H]. by apply IH.
Qed.

Lemma before_fence_body (b tail : string) :
  no_backtick b = true -> before_fence (b +:+ fence +:+ tail) = Some b.
Proof.
  unfold no_backtick. induction b as [|c b IH]; intros Hb.
  - reflexivity.
  - cbn [Py.all_chars] in Hb. apply andb_prop in Hb as [Hc Hb].
    rewrite sapp_cons. cbn [before_fence].
    assert (Hs : Py.startswith fence (String c (b +:+ fence +:+ tail)) = false).
    { unfold fence. cbn [Py.startswith]. apply negb_true_iff in Hc.
      rewrite Ascii.eqb_sym.
      change (Ascii.eqb c "`") with (Ascii.eqb c backtick). by rewrite Hc. }
    rewrite Hs. by rewrite (IH Hb).
Qed.

Section QueryTextFacts.

Variable llm : Prompt -> Result string.
Variable DB : Type.
Variable get_table_info_str : DB -> string.

(** X15.  A reply without a fenced block is the query.  When the reply of
    the model nowhere has the opening fence followed by [sql],
    [write_query] stores the post-processed stripped reply itself. *)
Theorem unfenced_reply_is_the_query (state : State) (w : World DB) (reply : string) :
  llm (QueryPrompt "sqlite" 10 (get_table_info_str (database w))
         (st_context_from_memory state) (st_resolved_question state)
         (st_question state) (st_feedback state)) = Ok reply ->
  Py.contains (fence +:+ "sql") reply = false ->
  write_query llm get_table_info_str state w
  = (Ok (set_query (validate_and_fix_query (Py.strip reply)) state), w).
Proof.
  intros Hllm Hc. unfold write_query, bind, invoke_llm, ret. rewrite Hllm.
  rewrite search_fenced_none, strip_idem; [done|].
  apply not_true_is_false. intros H. apply contains_strip in H. congruence.
Qed.

(** X16.  A fenced reply gives its body.  When the stripped reply begins
    with the opening fence, [sql] and a white-space character, and what
    follows is a body without backticks closed by a fence, [write_query]
    stores the post-processed stripped body; text after the closing fence
    is dropped. *)
Theorem fenced_reply_gives_its_body
  (state : State) (w : World DB) (reply : string) (c : ascii) (body tail : string) :
  llm (QueryPrompt "sqlite" 10 (get_table_info_str (database w))
         (st_context_from_memory state) (st_resolved_question state)
         (st_question state) (st_feedback state)) = Ok reply ->
  Py.strip reply = (fence +:+ "sql") +:+ String c (body +:+ fence +:+ tail) ->
  Py.isspace c = true ->
  no_backtick body = true ->
  write_query llm get_table_info_str state w
  = (Ok (set_query (validate_and_fix_query (Py.strip body)) state), w).
Proof.
  intros Hllm Hs Hc Hb. unfold write_query, bind, invoke_llm, ret. rewrite Hllm, Hs.
  assert (Hf : search_fenced ((fence +:+ "sql") +:+ String c (body +:+ fence +:+ tail))
               = Some (Py.lstrip body)).
  { change ((fence +:+ "sql") +:+ String c (body +:+ fence +:+ tail))
      with (String backtick (String backtick (String backtick
              (String "s" (String "q" (String "l"
                 (String c (body +:+ fence +:+ tail)))))))).
    cbn [search_fenced]. unfold fenced_here.
    change (Py.startswith (fence +:+ "sql")
              (String backtick (String backtick (String backtick
                 (String "s" (String "q" (String "l"
                    (String c (body +:+ fence +:+ tail)))))))))
      with true.
    cbn [Py.sdrop]. rewrite Hc.
    rewrite (lstrip_app_keep body (fence +:+ tail) backtick (String backtick
               (String backtick tail))); [|reflexivity|reflexivity].
    by rewrite before_fence_body by (by apply no_backtick_lstrip). }
  rewrite Hf. unfold Py.strip at 1. by rewrite lstrip_idem.
Qed.

(** X17.  Feedback accumulates in the question.  Regenerating twice, first
    with [f1] and then, from the state just returned, with [f2], asks the
    model about [question (f1) (f2)] with both texts stripped, for a
    question that is not blank; the feedback field of the state holds [f2]
    only, and the memory context is the checkpoint's throughout. *)
Theorem feedback_accumulates
  (state : State) (f1 f2 : string) (w : World DB) (reply1 reply2 : string) :
  let q1 := Py.strip (st_question state) +:+ " (" +:+ Py.strip f1 +:+ ")" in
  let q2 := q1 +:+ " (" +:+ Py.strip f2 +:+ ")" in
  f1 <> "" -> f2 <> "" ->
  Py.strip (st_question state) <> "" ->
  llm (QueryPrompt "sqlite" 10 (get_table_info_str (database w))
         (st_context_from_memory state) "" q1 f1) = Ok reply1 ->
  llm (QueryPrompt "sqlite" 10 (get_table_info_str (database w))
         (st_context_from_memory state) "" q2 f2) = Ok reply2 ->
  exists s1 s2,
    regenerate_query_with_feedback llm get_table_info_str state f1 w = (Ok s1, w)
    /\ regenerate_query_with_feedback llm get_table_info_str s1 f2 w = (Ok s2, w)
    /\ st_question s1 = q1
    /\ st_question s2 = q2
    /\ st_feedback s2 = f2
    /\ st_context_from_memory s2 = st_context_from_memory state.
Proof.
  intros q1 q2 Hf1 Hf2 Hq Hl1 Hl2.
  assert (He1 : String.eqb f1 "" = false) by (by destruct f1).
  assert (He2 : String.eqb f2 "" = false) by (by destruct f2).
  assert (Hfix : Py.strip q1 = q1).
  { subst q1. destruct (Py.strip (st_question state)) as [|c r] eqn:E; [done|].
    rewrite sapp_cons.
    apply (strip_fixed c _ ")"%char); [by apply (strip_head _ c r E) | | reflexivity].
    rewrite <- sapp_cons.
    rewrite <- !sapp_assoc. by rewrite last_char_app. }
  do 2 eexists. split; [|split].
  - unfold regenerate_query_with_feedback, try_except, write_query, bind, invoke_llm, ret.
    rewrite He1. cbn [database st_context_from_memory st_resolved_question st_question
                        st_feedback].
    fold q1. rewrite Hl1. reflexivity.
  - unfold regenerate_query_with_feedback, try_except, write_query, bind, invoke_llm, ret.
    rewrite He2. cbn [database st_context_from_memory st_resolved_question st_question
                        st_feedback set_query st_username].
    rewrite Hfix. fold q2. rewrite Hl2. reflexivity.
  - by repeat split.
Qed.

End QueryTextFacts.

Lemma unfenced_reply_is_the_query_witness :
  Demo.llm (QueryPrompt "sqlite" 10 (Demo.get_table_info_str tt) "" "list the students "
              "list the students " "")
  = Ok "SELECT name, marks FROM students LIMIT 10"
  /\ Py.contains (fence +:+ "sql") "SELECT name, marks FROM students LIMIT 10" = false
  /\ write_query Demo.llm Demo.get_table_info_str Scenario.paused Demo.world0
     = (Ok (set_query "SELECT name, marks FROM students LIMIT 10" Scenario.paused),
        Demo.world0).
Proof.
  split; [reflexivity|]. split; [reflexivity|].
  exact (unfenced_reply_is_the_query Demo.llm unit Demo.get_table_info_str Scenario.paused
           Demo.world0 "SELECT name, marks FROM students LIMIT 10" eq_refl eq_refl).
Defined.

Lemma fenced_reply_gives_its_body_witness :
  let reply := fence +:+ "sql" +:+ Py.nl +:+ "SELECT name FROM students LIMIT 10"
               +:+ Py.nl +:+ fence in
  let body := "SELECT name FROM students LIMIT 10" +:+ Py.nl in
  Cases.llm_fenced (QueryPrompt "sqlite" 10 (Demo.get_table_info_str tt) ""
                      "list the students " "list the students " "") = Ok reply
  /\ Py.strip reply = (fence +:+ "sql") +:+ String (ascii_of_nat 10) (body +:+ fence +:+ "")
  /\ Py.isspace (ascii_of_nat 10) = true
  /\ no_backtick body = true
  /\ write_query Cases.llm_fenced Demo.get_table_info_str Scenario.paused Demo.world0
     = (Ok (set_query "SELECT name FROM students LIMIT 10" Scenario.paused), Demo.world0).
Proof.
  intros reply body. split; [reflexivity|]. split; [reflexivity|].
  split; [reflexivity|]. split; [reflexivity|].
  exact (fenced_reply_gives_its_body Cases.llm_fenced unit Demo.get_table_info_str
           Scenario.paused Demo.world0 reply (ascii_of_nat 10) body ""
           eq_refl eq_refl eq_refl eq_refl).
Defined.

Lemma feedback_accumulates_witness :
  "sort by marks" <> "" /\ "top 3 only " <> ""
  /\ Py.strip (st_question Scenario.paused) <> ""
  /\ exists s1 s2,
       regenerate_query_with_feedback Demo.llm Demo.get_table_info_str Scenario.paused
         "sort by marks" Demo.world0 = (Ok s1, Demo.world0)
       /\ regenerate_query_with_feedback Demo.llm Demo.get_table_info_str s1
            "top 3 only " Demo.world0 = (Ok s2, Demo.world0)
       /\ st_question s1 = "list the students (sort by marks)"
       /\ st_question s2 = "list the students (sort by marks) (top 3 only)"
       /\ st_feedback s2 = "top 3 only "
       /\ st_context_from_memory s2 = "".
Proof.
  split; [discriminate|]. split; [discriminate|]. split; [discriminate|].
  exact (feedback_accumulates Demo.llm unit Demo.get_table_info_str Scenario.paused
           "sort by marks" "top 3 only " Demo.world0
           "SELECT name, marks FROM students LIMIT 10"
           "SELECT name, marks FROM students LIMIT 10"
           ltac:(discriminate) ltac:(discriminate) ltac:(discriminate) eq_refl eq_refl).
Defined.

(* ===================================================================== *)
(** ** The routes at their edges *)
(* ===================================================================== *)

Section RouteFacts.

Variable literal_eval : string -> option pyval.
Variable clock : nat -> string.
Variable llm : Prompt -> Result string.
Variable DB : Type.
Variable run_sql : string -> DB -> Result string * DB.
Variable get_table_info_str : DB -> string.
Variable pickle_dumps : State -> list Byte.byte.
Variable pickle_loads : list Byte.byte -> Result State.

Lemma run_until_human_review_returns (user question : string) (w : World DB) :
  exists final w',
    run_until_human_review literal_eval clock llm get_table_info_str user question w
    = (Ok final, w').
Proof.
  unfold run_until_human_review, try_except.
  match goal with
  | |- context [match ?m with _ => _ end] => destruct m as [[final | e] w']
  end; by do 2 eexists.
Qed.

(** X19.  The query route refuses a blank question and nothing else.  For
    a question that is empty or only white space [process_query] answers
    with status 500 (the 400 it raises is caught by its own handler) and
    leaves the world untouched: no memory is loaded and the model is not
    called.  For every other question it answers with a response body,
    whatever the model and the store do, since the agent turns its own
    failures into a state. *)
Theorem only_a_blank_question_is_refused (user question : string) (w : World DB) :
  (Py.strip question = "" ->
   process_query literal_eval clock llm DB get_table_info_str pickle_dumps user question w
   = (inr (500%Z, "Internal server error: 400: Question cannot be empty"), w))
  /\ (Py.strip question <> "" ->
      exists response w',
        process_query literal_eval clock llm DB get_table_info_str pickle_dumps
          user question w
        = (inl response, w')).
Proof.
  split; intros Hq; unfold process_query, internal_error.
  - by rewrite Hq.
  - apply String.eqb_neq in Hq. rewrite Hq.
    destruct (run_until_human_review_returns user (Py.lower question) w)
      as (final & w' & ->).
    destruct (negb (st_success final)); [by do 2 eexists|].
    destruct (_ || _); by do 2 eexists.
Qed.

(** X20.  What the human approves is what will run.  When [process_query]
    answers with an approval request and a token, and [pickle] reads back
    the paused state, the token decodes to a state whose query, question
    and resolved question are the ones shown in the response; the state
    that the approve route resumes from, with any feedback, has that same
    query. *)
Theorem approval_shows_the_token_query
  (user question : string) (w w1 w' : World DB) (s : State)
  (r : QueryResponse) (h : string) (message : option string) :
  run_until_human_review literal_eval clock llm get_table_info_str user
    (Py.lower question) w = (Ok s, w1) ->
  pickle_loads (pickle_dumps s) = Ok s ->
  process_query literal_eval clock llm DB get_table_info_str pickle_dumps user question w
  = (inl (Approval r (Some h) message), w') ->
  decode_state pickle_loads h = Ok s
  /\ r_query r = st_query s
  /\ r_question r = st_question s
  /\ r_resolved_question r = st_resolved_question s
  /\ st_success s = true
  /\ forall feedback, exists s',
       approved_state pickle_loads h feedback = Ok s' /\ st_query s' = r_query r.
Proof.
  intros Hrun Hp Hroute. unfold process_query, internal_error in Hroute.
  destruct (String.eqb (Py.strip question) ""); [discriminate|].
  rewrite Hrun in Hroute.
  destruct (st_success s) eqn:Hs; cbn [negb] in Hroute; [|discriminate].
  destruct (String.eqb (default "" (st_intent s)) "chat"
            || negb (String.eqb (st_answer s) "") && String.eqb (st_query s) "");
    [discriminate|].
  injection Hroute as <- <- _ _.
  assert (Hd : decode_state pickle_loads (encode_state pickle_dumps s) = Ok s).
  { unfold decode_state, encode_state. by rewrite fromhex_hex. }
  split; [exact Hd|]. repeat split.
  intros feedback. unfold approved_state. rewrite Hd.
  destruct (String.eqb feedback ""); eexists; split; reflexivity.
Qed.

End RouteFacts.

(** A question of three spaces, and a greeting. *)
Lemma only_a_blank_question_is_refused_witness :
  Py.strip "   " = ""
  /\ process_query Literal.literal_eval Demo.clock Demo.llm unit Demo.get_table_info_str
       Demo.pickle_dumps "u" "   " Demo.world0
     = (inr (500%Z, "Internal server error: 400: Question cannot be empty"), Demo.world0)
  /\ Py.strip "hello there" <> ""
  /\ exists response w',
       process_query Literal.literal_eval Demo.clock Demo.llm unit Demo.get_table_info_str
         Demo.pickle_dumps "u" "hello there" Demo.world0
       = (inl response, w').
Proof.
  split; [reflexivity|]. split.
  - exact (proj1 (only_a_blank_question_is_refused Literal.literal_eval Demo.clock Demo.llm
                    unit Demo.get_table_info_str Demo.pickle_dumps "u" "   " Demo.world0)
             eq_refl).
  - assert (Hne : Py.strip "hello there" <> "") by discriminate.
    split; [exact Hne|].
    exact (proj2 (only_a_blank_question_is_refused Literal.literal_eval Demo.clock Demo.llm
                    unit Demo.get_table_info_str Demo.pickle_dumps "u" "hello there"
                    Demo.world0) Hne).
Defined.

Lemma approval_shows_the_token_query_witness :
  let route := process_query Literal.literal_eval Demo.clock Demo.llm unit
                 Demo.get_table_info_str Demo.pickle_dumps "u" "Who is the top student"
                 Demo.world0 in
  let s := mkState "u" "who is the top student" "SELECT name, marks FROM students LIMIT 10"
             "" true "" "" "" "who is the top student" "" (Some "sql") in
  let r := mkQueryResponse "who is the top student" "who is the top student"
             "SELECT name, marks FROM students LIMIT 10" None
             "Query generated and pending human approval." true None in
  let h := encode_state Demo.pickle_dumps s in
  Scenario.sql_pause = (Ok s, snd Scenario.sql_pause)
  /\ Demo.pickle_loads (Demo.pickle_dumps s) = Ok s
  /\ route = (inl (Approval r (Some h) (Some "Please review and approve the query to proceed.")),
              snd route)
  /\ decode_state Demo.pickle_loads h = Ok s
  /\ r_query r = st_query s.
Proof.
  intros route s r h.
  assert (Hrun : Scenario.sql_pause = (Ok s, snd Scenario.sql_pause)) by reflexivity.
  assert (Hp : Demo.pickle_loads (Demo.pickle_dumps s) = Ok s) by reflexivity.
  assert (Hroute : route
                   = (inl (Approval r (Some h)
                             (Some "Please review and approve the query to proceed.")),
                      snd route)) by reflexivity.
  split; [exact Hrun|]. split; [exact Hp|]. split; [exact Hroute|].
  destruct (approval_shows_the_token_query Literal.literal_eval Demo.clock Demo.llm unit
              Demo.get_table_info_str Demo.pickle_dumps Demo.pickle_loads
              "u" "Who is the top student" Demo.world0 (snd Scenario.sql_pause) (snd route)
              s r h (Some "Please review and approve the query to proceed.")
              Hrun Hp Hroute) as (Hd & Hq & _).
  by split.
Defined.

Lemma isspace_lower_char (c : ascii) : Py.isspace (Py.lower_char c) = Py.isspace c.
Proof. destruct c as [[] [] [] [] [] [] [] []]; reflexivity. Qed.

Lemma lstrip_lower (s : string) : Py.lstrip (Py.lower s) = Py.lower (Py.lstrip s).
Proof.
  unfold Py.lower. induction s as [|c s IH]; [done|].
  cbn [Py.smap Py.lstrip]. rewrite isspace_lower_char.
  destruct (Py.isspace c); [exact IH | done].
Qed.

Lemma rstrip_lower (s : string) : Py.rstrip (Py.lower s) = Py.lower (Py.rstrip s).
Proof.
  unfold Py.lower. induction s as [|c s IH]; [done|].
  cbn [Py.smap Py.rstrip]. rewrite IH, isspace_lower_char.
  destruct (Py.rstrip s); cbn [Py.smap]; [by destruct (Py.isspace c) | done].
Qed.

Lemma strip_lower (s : string) : Py.strip (Py.lower s) = Py.lower (Py.strip s).
Proof. unfold Py.strip. by rewrite lstrip_lower, rstrip_lower. Qed.

(** X21.  Memory commands are read in canonical form.  Handing
    [handle_memory_command] the lower-cased, stripped text of a command
    gives the same response and the same world as the command as typed, so
    [ /HISTORY ] and [/history] are one command. *)
Theorem command_is_read_in_canonical_form
  {DB : Type} (get_all_users : Services -> list string)
  (user command : string) (w : World DB) :
  handle_memory_command get_all_users user (Py.strip (Py.lower command)) w
  = handle_memory_command get_all_users user command w.
Proof.
  unfold handle_memory_command.
  by rewrite (strip_lower (Py.strip (Py.lower command))), strip_idem,
    <- strip_lower, lower_idem.
Qed.

(* ===================================================================== *)
(** ** The schema text and its parser *)
(* ===================================================================== *)

Section SchemaFacts.
Import Schema.

Lemma split_sep_skip (sep p s : string) :
  split_sep sep (String.length p) (p +:+ s) = split_sep sep 0 s.
Proof. induction p as [|a p IH]; [done|]. exact IH. Qed.

Lemma split_here (x : ascii) (sep s : string) :
  split (String x sep) (String x sep +:+ s) = "" :: split (String x sep) s.
Proof.
  unfold split. rewrite sapp_cons. cbn [split_sep].
  change (String x (sep +:+ s)) with (String x sep +:+ s) at 1.
  rewrite startswith_app. cbn [String.length]. rewrite Nat.sub_1_r. cbn [Nat.pred].
  by rewrite split_sep_skip.
Qed.

Lemma split_step (sep : string) (c : ascii) (s : string) :
  Py.startswith sep (String c s) = false ->
  split sep (String c s)
  = match split sep s with p :: ps => String c p :: ps | [] => [String c ""] end.
Proof. unfold split. cbn [split_sep]. by intros ->. Qed.

Lemma startswith_class (q : ascii -> bool) (p s : string) :
  Py.startswith p s = true -> Py.all_chars q s = true -> Py.all_chars q p = true.
Proof.
  revert s. induction p as [|x p IH]; intros [|y s]; simpl; try done.
  intros H1 H2. apply andb_prop in H1 as [Hx Hp]. apply andb_prop in H2 as [Hy Hs].
  apply Ascii.eqb_eq in Hx. subst. rewrite Hy. simpl. by apply (IH s).
Qed.

Lemma contains_class (q : ascii -> bool) (p s : string) :
  Py.all_chars q s = true -> Py.all_chars q p = false -> Py.contains p s = false.
Proof.
  intros Hs Hp. induction s as [|c s IH].
  - simpl. rewrite orb_false_r. destruct (Py.startswith p "") eqn:E; [|done].
    by rewrite (startswith_class q p "" E) in Hp.
  - cbn [Py.contains]. pose proof Hs as Hs0.
    cbn [Py.all_chars] in Hs. apply andb_prop in Hs as [Hc Hs'].
    rewrite (IH Hs'), orb_false_r.
    destruct (Py.startswith p (String c s)) eqn:E; [|done].
    by rewrite (startswith_class q p _ E Hs0) in Hp.
Qed.

Lemma split_none (sep s : string) : Py.contains sep s = false -> split sep s = [s].
Proof.
  induction s as [|c s IH]; [done|]. cbn [Py.contains]. intros H.
  apply orb_false_elim in H as [H1 H2]. by rewrite (split_step _ _ _ H1), (IH H2).
Qed.

Lemma split_prefix (x : ascii) (sep a b : string) :
  avoids x a = true ->
  split (String x sep) (a +:+ String x sep +:+ b) = a :: split (String x sep) b.
Proof.
  unfold avoids. induction a as [|c a IH]; intros Ha.
  - rewrite sapp_nil. apply split_here.
  - cbn [Py.all_chars] in Ha. apply andb_prop in Ha as [Hc Ha].
    rewrite sapp_cons, split_step, (IH Ha); [done|].
    simpl. destruct (Ascii.eqb x c) eqn:E; [|done].
    apply Ascii.eqb_eq in E. subst. by rewrite Ascii.eqb_refl in Hc.
Qed.

Lemma split_avoids (x : ascii) (sep s : string) :
  avoids x s = true -> split (String x sep) s = [s].
Proof.
  intros Hs. apply split_none. apply (contains_class _ _ _ Hs).
  simpl. by rewrite Ascii.eqb_refl.
Qed.

Lemma split_suffix (x : ascii) (sep a : string) :
  avoids x a = true -> split (String x sep) (a +:+ String x sep) = [a; ""].
Proof.
  intros Ha. rewrite <- (sapp_nil_r (String x sep)) at 2.
  by rewrite (split_prefix x sep a "" Ha).
Qed.


Lemma word_char_not (x c : ascii) :
  word_char x = false -> word_char c = true -> negb (Ascii.eqb c x) = true.
Proof.
  intros Hx Hc. destruct (Ascii.eqb c x) eqn:E; [|done].
  apply Ascii.eqb_eq in E. subst. congruence.
Qed.

Lemma identifier_avoids (x : ascii) (s : string) :
  word_char x = false -> identifier s -> avoids x s = true.
Proof.
  intros Hx [_ Hs]. revert Hs. apply all_chars_weaken. intros c. by apply word_char_not.
Qed.

Lemma avoids_app (x : ascii) (a b : string) :
  avoids x (a +:+ b) = avoids x a && avoids x b.
Proof. apply all_chars_app. Qed.

Lemma avoids_join (x : ascii) (sep : string) (parts : list string) :
  avoids x sep = true -> Forall (fun p => avoids x p = true) parts ->
  avoids x (Py.join sep parts) = true.
Proof.
  intros Hsep. induction 1 as [|p parts Hp Hps IH]; [done|].
  destruct parts as [|p' parts]; [done|].
  change (Py.join sep (p :: p' :: parts)) with (p +:+ sep +:+ Py.join sep (p' :: parts)).
  by rewrite !avoids_app, Hp, Hsep, IH.
Qed.

Lemma word_char_not_space (c : ascii) : word_char c = true -> Py.isspace c = false.
Proof. by destruct c as [[] [] [] [] [] [] [] []]. Qed.

Lemma identifier_head (s : string) :
  identifier s -> exists c r, s = String c r /\ Py.isspace c = false.
Proof.
  intros [Hne Hs]. destruct s as [|c r]; [done|]. exists c, r. split; [done|].
  cbn [Py.all_chars] in Hs. apply andb_prop in Hs as [Hc _]. by apply word_char_not_space.
Qed.

Lemma identifier_last (s : string) :
  identifier s -> exists e, Py.last_char s = Some e /\ Py.isspace e = false.
Proof.
  intros [Hne Hs]. destruct (all_chars_last _ _ Hs Hne) as (e & He & Hw).
  exists e. split; [done|]. by apply word_char_not_space.
Qed.

Lemma strip_identifier (s : string) : identifier s -> Py.strip s = s.
Proof.
  intros Hs. destruct (identifier_head s Hs) as (c & r & -> & Hc).
  destruct (identifier_last _ Hs) as (e & He & Hsp). by apply (strip_fixed c r e).
Qed.

Lemma rstrip_app_space (a : string) : Py.rstrip (a +:+ " ") = Py.rstrip a.
Proof.
  induction a as [|c a IH]; [done|]. rewrite sapp_cons. cbn [Py.rstrip]. by rewrite IH.
Qed.

Lemma strip_identifier_space (s : string) : identifier s -> Py.strip (s +:+ " ") = s.
Proof.
  intros Hs. pose proof (strip_identifier s Hs) as Hstrip.
  destruct (identifier_head s Hs) as (c & r & -> & Hc).
  unfold Py.strip in *. rewrite sapp_cons. cbn [Py.lstrip] in *. rewrite Hc in *.
  by rewrite <- sapp_cons, rstrip_app_space.
Qed.

(** One entry of the detailed line is read back as its column. *)
Lemma parse_entry_column (col : string * string) :
  identifier (fst col) -> identifier (snd col) ->
  parse_entry (column_entry col) = [column_of col].
Proof.
  destruct col as [n ty]. cbn [fst snd]. intros Hn Hty.
  assert (Hopen : word_char "(" = false) by done.
  assert (Hclose : word_char ")" = false) by done.
  assert (He : column_entry (n, ty) = (n +:+ " ") +:+ "(" +:+ ty +:+ ")").
  { unfold column_entry. cbn [fst snd]. by rewrite sapp_assoc. }
  assert (Hstrip : Py.strip (column_entry (n, ty)) = column_entry (n, ty)).
  { destruct (identifier_head n Hn) as (c & r & -> & Hc).
    unfold column_entry. cbn [fst snd]. rewrite sapp_cons.
    apply (strip_fixed c _ ")"); [done| |done].
    rewrite <- sapp_cons.
    rewrite <- (sapp_assoc (String c r) " (" (ty +:+ ")")), <- sapp_assoc.
    by apply last_char_app. }
  assert (Hc : Py.contains ")" ((n +:+ " ") +:+ "(" +:+ ty +:+ ")") = true).
  { rewrite <- (sapp_assoc (n +:+ " ") "(" (ty +:+ ")")), <- sapp_assoc.
    rewrite <- (sapp_nil_r ")"). apply contains_mid. }
  unfold parse_entry. rewrite Hstrip, He.
  rewrite contains_mid, Hc. cbn [andb].
  rewrite (split_prefix "(" "" (n +:+ " ") (ty +:+ ")")).
  2:{ rewrite avoids_app. by rewrite (identifier_avoids "(" n Hopen Hn). }
  rewrite (split_avoids "(" "" (ty +:+ ")")).
  2:{ rewrite avoids_app. by rewrite (identifier_avoids "(" ty Hopen Hty). }
  cbn [nth].
  rewrite (split_suffix ")" "" ty (identifier_avoids ")" ty Hclose Hty)).
  cbn [nth].
  by rewrite (strip_identifier_space n Hn), (strip_identifier ty Hty).
Qed.


Lemma column_entry_avoids (x : ascii) (col : string * string) :
  word_char x = false -> avoids x " (" = true -> avoids x ")" = true ->
  identifier (fst col) -> identifier (snd col) -> avoids x (column_entry col) = true.
Proof.
  intros Hx H1 H2 Hn Ht. unfold column_entry.
  by rewrite !avoids_app, (identifier_avoids x _ Hx Hn), (identifier_avoids x _ Hx Ht), H1, H2.
Qed.

Lemma entries_avoid (x : ascii) (cols : list (string * string)) :
  word_char x = false -> avoids x ", ()" = true ->
  Forall (fun col => identifier (fst col) /\ identifier (snd col)) cols ->
  avoids x (Py.join ", " (map column_entry cols)) = true.
Proof.
  intros Hx Hp Hcols. unfold avoids in Hp. cbn [Py.all_chars] in Hp.
  apply andb_prop in Hp as [Hcomma Hp]. apply andb_prop in Hp as [Hsp Hp].
  apply andb_prop in Hp as [Hop Hp]. apply andb_prop in Hp as [Hcl _].
  apply avoids_join.
  - unfold avoids. cbn [Py.all_chars]. by rewrite Hcomma, Hsp.
  - apply Forall_map. apply (Forall_impl _ _ _ Hcols). intros col [Hn Ht].
    apply column_entry_avoids; try done.
    + unfold avoids. cbn [Py.all_chars]. by rewrite Hsp, Hop.
    + unfold avoids. cbn [Py.all_chars]. by rewrite Hcl.
Qed.

Lemma names_avoid (x : ascii) (cols : list (string * string)) :
  word_char x = false -> avoids x ", " = true ->
  Forall (fun col => identifier (fst col) /\ identifier (snd col)) cols ->
  avoids x (Py.join ", " (map fst cols)) = true.
Proof.
  intros Hx Hp Hcols. apply avoids_join; [done|].
  apply Forall_map. apply (Forall_impl _ _ _ Hcols). intros col [Hn _].
  by apply identifier_avoids.
Qed.

Lemma split_entries (cols : list (string * string)) :
  cols <> [] ->
  Forall (fun col => identifier (fst col) /\ identifier (snd col)) cols ->
  split ", " (Py.join ", " (map column_entry cols)) = map column_entry cols.
Proof.
  destruct cols as [|c cols]; [done|]. intros _. revert c.
  induction cols as [|c' cols IH]; intros c Hc.
  - apply Forall_cons_1 in Hc as [[Hn Ht] _]. cbn [map Py.join].
    apply split_avoids. by apply column_entry_avoids.
  - apply Forall_cons_1 in Hc as [[Hn Ht] Hc].
    change (Py.join ", " (map column_entry (c :: c' :: cols)))
      with (column_entry c +:+ ", " +:+ Py.join ", " (map column_entry (c' :: cols))).
    rewrite split_prefix; [|by apply column_entry_avoids].
    by rewrite (IH c' Hc).
Qed.

Lemma parse_entries (cols : list (string * string)) :
  Forall (fun col => identifier (fst col) /\ identifier (snd col)) cols ->
  flat_map parse_entry (map column_entry cols) = map column_of cols.
Proof.
  induction 1 as [|col cols [Hn Ht] _ IH]; [done|].
  cbn [map flat_map]. by rewrite (parse_entry_column col Hn Ht), IH.
Qed.

Lemma entries_last (cols : list (string * string)) :
  cols <> [] -> Py.last_char (Py.join ", " (map column_entry cols)) = Some ")"%char.
Proof.
  destruct cols as [|c cols]; [done|]. intros _. revert c.
  induction cols as [|c' cols IH]; intros c.
  - cbn [map Py.join]. unfold column_entry.
    rewrite <- (sapp_assoc _ (snd c) ")"), <- sapp_assoc. by apply last_char_app.
  - change (Py.join ", " (map column_entry (c :: c' :: cols)))
      with (column_entry c +:+ ", " +:+ Py.join ", " (map column_entry (c' :: cols))).
    specialize (IH c').
    assert (Hne : Py.join ", " (map column_entry (c' :: cols)) <> "").
    { intros E. by rewrite E in IH. }
    rewrite last_char_app; [by rewrite last_char_app|].
    intros E. destruct (Py.join ", " (map column_entry (c' :: cols))); done.
Qed.

Lemma entries_head (cols : list (string * string)) :
  cols <> [] ->
  Forall (fun col => identifier (fst col) /\ identifier (snd col)) cols ->
  exists c r, Py.join ", " (map column_entry cols) = String c r /\ Py.isspace c = false.
Proof.
  destruct cols as [|[n ty] cols]; [done|]. intros _ Hc.
  apply Forall_cons_1 in Hc as [[Hn _] _]. cbn [fst] in Hn.
  destruct (identifier_head n Hn) as (c & r & -> & Hsp).
  destruct cols as [|c' cols]; cbn [map Py.join]; unfold column_entry; cbn [fst snd];
    rewrite sapp_cons; eauto.
Qed.

(** The detailed line of a block gives the columns back; the line of the
    bare names gives nothing. *)
Lemma parse_line_detailed (cols : list (string * string)) :
  cols <> [] ->
  Forall (fun col => identifier (fst col) /\ identifier (snd col)) cols ->
  parse_line ("  Detailed: " +:+ Py.join ", " (map column_entry cols)) = map column_of cols.
Proof.
  intros Hne Hcols.
  pose proof (entries_last cols Hne) as Hlast.
  destruct (entries_head cols Hne Hcols) as (c & r & HJ & Hsp).
  pose proof (split_entries cols Hne Hcols) as Hsplit.
  assert (Hcolon : avoids ":" (Py.join ", " (map column_entry cols)) = true)
    by (by apply entries_avoid).
  remember (Py.join ", " (map column_entry cols)) as J eqn:EJ.
  assert (HJne : J <> "") by (by rewrite HJ).
  assert (Hstrip : Py.strip ("  Detailed: " +:+ J) = "Detailed: " +:+ J).
  { unfold Py.strip.
    change (Py.lstrip ("  Detailed: " +:+ J)) with ("Detailed: " +:+ J).
    apply (rstrip_fixed _ ")"); [|done]. by rewrite last_char_app. }
  assert (HstripJ : Py.strip (" " +:+ J) = J).
  { unfold Py.strip. change (Py.lstrip (" " +:+ J)) with (Py.lstrip J).
    rewrite HJ. cbn [Py.lstrip]. rewrite Hsp. rewrite <- HJ.
    by apply (rstrip_fixed _ ")"). }
  unfold parse_line. rewrite Hstrip.
  change (Py.startswith "Detailed:" ("Detailed: " +:+ J)) with true. cbv iota.
  change ("  Detailed: " +:+ J) with ("  " +:+ "Detailed:" +:+ " " +:+ J).
  rewrite (split_prefix "D" "etailed:" "  " (" " +:+ J)); [|done].
  rewrite (split_none "Detailed:" (" " +:+ J)).
  2:{ apply (contains_class (fun c => negb (Ascii.eqb c ":"))); [|done].
      change (avoids ":" (" " +:+ J) = true). by rewrite avoids_app, Hcolon. }
  cbn [nth]. rewrite HstripJ, Hsplit, (parse_entries cols Hcols).
  rewrite HJ. done.
Qed.

Lemma parse_line_columns (names : string) : parse_line ("  Columns: " +:+ names) = [].
Proof.
  unfold parse_line, Py.strip.
  change (Py.lstrip ("  Columns: " +:+ names)) with (String "C" ("olumns: " +:+ names)).
  by destruct (rstrip_head "C" ("olumns: " +:+ names)) as [-> | (r & ->)].
Qed.


Lemma strip_keeps (s : string) (c : ascii) (r : string) (e : ascii) :
  s = String c r -> Py.isspace c = false ->
  Py.last_char s = Some e -> Py.isspace e = false -> Py.strip s = s.
Proof. intros -> Hc Hl He. by apply (strip_fixed c r e). Qed.

Lemma last_char_lines (a b c : string) (e : ascii) :
  Py.last_char c = Some e ->
  Py.last_char (a +:+ Py.nl +:+ b +:+ Py.nl +:+ c) = Some e.
Proof.
  intros Hc. assert (Hne : c <> "") by (intros ->; done).
  rewrite (last_char_app a); [|done].
  rewrite (last_char_app Py.nl); [|by destruct b].
  rewrite (last_char_app b); [|done].
  by rewrite (last_char_app Py.nl).
Qed.

Lemma format_table_lines (t : string) (cols : list (string * string)) :
  format_table t cols
  = ("Table '" +:+ t +:+ "':") +:+ Py.nl
    +:+ ("  Columns: " +:+ Py.join ", " (map fst cols)) +:+ Py.nl
    +:+ ("  Detailed: " +:+ Py.join ", " (map column_entry cols)).
Proof. unfold format_table. by rewrite !sapp_assoc. Qed.

Lemma parse_block_stripped (acc : dict (list ColumnInfo)) (s : string) :
  Py.strip s = s -> s <> "" ->
  parse_block acc s
  = let lines := split Py.nl s in
    let first_line := nth 0 lines "" in
    if Py.contains "Table '" first_line && Py.contains "':" first_line then
      match flat_map parse_line (tail lines) with
      | [] => acc
      | columns =>
          dict_set (nth 0 (split "':" (nth 1 (split "Table '" first_line) "")) "")
            columns acc
      end
    else acc.
Proof.
  intros Hs Hne. unfold parse_block. rewrite Hs. destruct s; [done|]. 
  cbv zeta. destruct (_ && _); [|done]. by destruct (flat_map _ _).
Qed.

Lemma first_line_avoids (t : string) :
  identifier t -> avoids newline ("Table '" +:+ t +:+ "':") = true.
Proof. intros Ht. by rewrite !avoids_app, (identifier_avoids newline t). Qed.

Lemma names_line_avoids (cols : list (string * string)) :
  Forall (fun col => identifier (fst col) /\ identifier (snd col)) cols ->
  avoids newline ("  Columns: " +:+ Py.join ", " (map fst cols)) = true.
Proof. intros Hc. by rewrite avoids_app, names_avoid. Qed.

Lemma detailed_line_avoids (cols : list (string * string)) :
  Forall (fun col => identifier (fst col) /\ identifier (snd col)) cols ->
  avoids newline ("  Detailed: " +:+ Py.join ", " (map column_entry cols)) = true.
Proof. intros Hc. by rewrite avoids_app, entries_avoid. Qed.

(** The block of a described table is read as that table. *)
Lemma parse_block_table (acc : dict (list ColumnInfo)) (t : Table) :
  described t ->
  parse_block acc (table_block t) = dict_set (fst t) (map column_of (snd t)) acc.
Proof.
  destruct t as [t cols]. intros (Ht & Hne & Hcols).
  unfold table_block. cbn [fst snd] in *.
  pose proof (first_line_avoids t Ht) as H1.
  pose proof (names_line_avoids cols Hcols) as H2.
  pose proof (detailed_line_avoids cols Hcols) as H3.
  pose proof (parse_line_detailed cols Hne Hcols) as Hd.
  pose proof (parse_line_columns (Py.join ", " (map fst cols))) as Hn.
  pose proof (entries_last cols Hne) as Hlast.
  assert (Hstrip : Py.strip (format_table t cols) = format_table t cols).
  { eapply (strip_keeps _ _ _ ")"); [reflexivity|done| |done].
    rewrite format_table_lines. apply last_char_lines.
    rewrite last_char_app; [done|]. intros E. by rewrite E in Hlast. }
  rewrite parse_block_stripped; [|done|done].
  rewrite format_table_lines.
  remember ("  Columns: " +:+ Py.join ", " (map fst cols)) as L2 eqn:E2.
  remember ("  Detailed: " +:+ Py.join ", " (map column_entry cols)) as L3 eqn:E3.
  change Py.nl with (String newline "").
  rewrite (split_prefix newline "" _ _ H1), (split_prefix newline "" _ _ H2),
    (split_avoids newline "" _ H3).
  cbv zeta. cbn [nth tail flat_map].
  assert (Hp : Py.contains "Table '" ("Table '" +:+ t +:+ "':") = true)
    by apply (contains_mid "Table '" "" (t +:+ "':")).
  rewrite Hp.
  assert (Hq : Py.contains "':" ("Table '" +:+ t +:+ "':") = true).
  { assert (E : "Table '" +:+ t +:+ "':" = ("Table '" +:+ t) +:+ "':" +:+ "")
      by (by rewrite sapp_assoc).
    rewrite E. apply contains_mid. }
  rewrite Hq. cbn [andb].
  rewrite Hn, Hd, app_nil_r. cbn [app].
  rewrite (split_here "T" "able '" (t +:+ "':")).
  rewrite (split_none "Table '" (t +:+ "':")).
  2:{ apply (contains_class (fun c => negb (Ascii.eqb c " "))); [|done].
      change (avoids " " (t +:+ "':") = true).
      by rewrite avoids_app, (identifier_avoids " " t). }
  cbn [nth].
  rewrite (split_suffix "'" ":" t); [|by apply identifier_avoids].
  cbn [nth]. destruct cols; done.
Qed.


Lemma spaced_cons (c : ascii) (s : string) :
  spaced (String c s)
  = (if Ascii.eqb c newline
     then match s with "" => false | String d _ => negb (Ascii.eqb d newline) end
     else true) && spaced s.
Proof. reflexivity. Qed.

Lemma avoids_spaced (s : string) : avoids newline s = true -> spaced s = true.
Proof.
  unfold avoids. induction s as [|c s IH]; [done|]. cbn [Py.all_chars]. intros H.
  apply andb_prop in H as [Hc Hs]. rewrite spaced_cons, (IH Hs).
  by destruct (Ascii.eqb c newline).
Qed.

Lemma spaced_line (a b : string) :
  avoids newline a = true ->
  (exists c r, b = String c r /\ Ascii.eqb c newline = false) ->
  spaced (a +:+ Py.nl +:+ b) = spaced b.
Proof.
  intros Ha (c & r & -> & Hc). revert Ha. unfold avoids.
  induction a as [|x a IH]; cbn [Py.all_chars]; intros Ha.
  - change ("" +:+ Py.nl +:+ String c r) with (String newline (String c r)).
    rewrite (spaced_cons newline). by rewrite Ascii.eqb_refl, Hc.
  - apply andb_prop in Ha as [Hx Ha]. rewrite sapp_cons, spaced_cons, (IH Ha).
    by destruct (Ascii.eqb x newline).
Qed.

Lemma spaced_block (t : Table) : described t -> spaced (table_block t) = true.
Proof.
  destruct t as [t cols]. intros (Ht & Hne & Hcols).
  unfold table_block. cbn [fst snd] in *. rewrite format_table_lines.
  rewrite spaced_line; [|by apply first_line_avoids|by eexists _, _].
  rewrite spaced_line; [|by apply names_line_avoids|by eexists _, _].
  apply avoids_spaced. by apply detailed_line_avoids.
Qed.

Lemma split_spaced (a b : string) :
  spaced a = true ->
  split (Py.nl +:+ Py.nl) (a +:+ (Py.nl +:+ Py.nl) +:+ b)
  = a :: split (Py.nl +:+ Py.nl) b.
Proof.
  change (Py.nl +:+ Py.nl) with (String newline (String newline "")).
  induction a as [|c a IH]; intros Ha.
  - apply split_here.
  - rewrite spaced_cons in Ha. apply andb_prop in Ha as [Hc Ha].
    rewrite sapp_cons, split_step, (IH Ha); [done|].
    cbn [Py.startswith]. destruct (Ascii.eqb newline c) eqn:E; [|done].
    apply Ascii.eqb_eq in E. subst c. rewrite Ascii.eqb_refl in Hc.
    destruct a as [|d a]; [done|]. rewrite sapp_cons.
    apply negb_true_iff in Hc. rewrite Ascii.eqb_sym in Hc. by rewrite Hc.
Qed.

Lemma contains_spaced (a : string) :
  spaced a = true -> Py.contains (Py.nl +:+ Py.nl) a = false.
Proof.
  change (Py.nl +:+ Py.nl) with (String newline (String newline "")).
  induction a as [|c a IH]; intros Ha; [done|].
  rewrite spaced_cons in Ha. apply andb_prop in Ha as [Hc Ha].
  cbn [Py.contains]. rewrite (IH Ha), orb_false_r.
  cbn [Py.startswith]. destruct (Ascii.eqb newline c) eqn:E; [|done].
  apply Ascii.eqb_eq in E. subst c. rewrite Ascii.eqb_refl in Hc.
  destruct a as [|d a]; [done|].
  apply negb_true_iff in Hc. rewrite Ascii.eqb_sym in Hc. by rewrite Hc.
Qed.

Lemma split_blocks (blocks : list string) :
  blocks <> [] -> Forall (fun b => spaced b = true) blocks ->
  split (Py.nl +:+ Py.nl) (Py.join (Py.nl +:+ Py.nl) blocks) = blocks.
Proof.
  destruct blocks as [|b blocks]; [done|]. intros _. revert b.
  induction blocks as [|b' blocks IH]; intros b Hb.
  - apply Forall_cons_1 in Hb as [Hb _]. cbn [Py.join].
    apply split_none. by apply contains_spaced.
  - apply Forall_cons_1 in Hb as [Hb Hbs].
    change (Py.join (Py.nl +:+ Py.nl) (b :: b' :: blocks))
      with (b +:+ (Py.nl +:+ Py.nl) +:+ Py.join (Py.nl +:+ Py.nl) (b' :: blocks)).
    by rewrite (split_spaced _ _ Hb), (IH b' Hbs).
Qed.

Lemma dict_set_new {V} (k : string) (v : V) (d : dict V) :
  k ∉ map fst d -> dict_set k v d = d ++ [(k, v)].
Proof.
  induction d as [|[k' v'] d IH]; [done|]. cbn [map fst dict_set app].
  intros Hk. apply not_elem_of_cons in Hk as [Hne Hk].
  destruct (String.eqb k k') eqn:E; [by apply String.eqb_eq in E|].
  by rewrite (IH Hk).
Qed.

Lemma fold_blocks (tables : list Table) (acc : dict (list ColumnInfo)) :
  Forall described tables -> NoDup (map fst tables) ->
  (forall t, t ∈ tables -> fst t ∉ map fst acc) ->
  fold_left parse_block (map table_block tables) acc = acc ++ map table_of tables.
Proof.
  intros Hd. revert acc. induction Hd as [|t tables Ht _ IH]; intros acc Hnd Hacc.
  - by rewrite app_nil_r.
  - cbn [map fold_left]. cbn [map] in Hnd. apply NoDup_cons in Hnd as [Hnew Hnd].
    rewrite (parse_block_table acc t Ht).
    rewrite dict_set_new; [|apply Hacc; by left].
    rewrite IH; [by rewrite <- app_assoc|done|].
    intros t' Ht'. rewrite map_app. cbn [map fst].
    intros Hin. apply elem_of_app in Hin as [Hin | Hin].
    + revert Hin. apply Hacc. by right.
    + apply list_elem_of_singleton in Hin. apply Hnew. rewrite <- Hin.
      by apply list_elem_of_fmap_2.
Qed.

(** X22.  The schema text is read back as the tables it was written from.
    For tables with distinct names, each with at least one column, whose
    table names, column names and type names are identifiers, the text that
    [get_table_info_str] builds from them (one block per table, blocks
    joined by an empty line; the fixed text for no table) is parsed by
    [get_database_schema] into exactly these tables, in order, each column
    with its name and type, marked nullable and not a primary key. *)
Theorem schema_round_trip (tables : list Schema.Table) :
  Forall Schema.described tables ->
  NoDup (map fst tables) ->
  Schema.parse_schema (Schema.join_tables (map Schema.table_block tables))
  = map Schema.table_of tables.
Proof.
  intros Hd Hnd. destruct tables as [|t tables]; [done|].
  unfold parse_schema, join_tables. cbn [map].
  change (table_block t :: map table_block tables) with (map table_block (t :: tables)).
  rewrite split_blocks.
  - rewrite (fold_blocks _ [] Hd Hnd); [done|].
    intros t' _. apply not_elem_of_nil.
  - done.
  - apply Forall_map. apply (Forall_impl _ _ _ Hd). apply spaced_block.
Qed.


Lemma schema_round_trip_witness :
  Schema.parse_schema
    (Schema.join_tables
       (map Schema.table_block
          [("students", [("name", "TEXT"); ("marks", "INTEGER")]);
           ("staffs", [("staff_id", "INTEGER")])]))
  = [("students", [Schema.mkColumnInfo "name" "TEXT" true false;
                   Schema.mkColumnInfo "marks" "INTEGER" true false]);
     ("staffs", [Schema.mkColumnInfo "staff_id" "INTEGER" true false])].
Proof.
  apply (schema_round_trip
           [("students", [("name", "TEXT"); ("marks", "INTEGER")]);
            ("staffs", [("staff_id", "INTEGER")])]).
  - repeat constructor; done.
  - apply (bool_decide_unpack _). vm_compute. reflexivity.
Defined.

(** An entry whose type carries an argument is read with the bare type. *)
Lemma parse_entry_argument (name type arg : string) :
  Schema.identifier name -> Schema.identifier type ->
  Schema.parse_entry (Schema.column_entry (name, type +:+ "(" +:+ arg +:+ ")"))
  = [Schema.column_of (name, type)].
Proof.
  intros Hn Hty.
  assert (Hopen : word_char "(" = false) by done.
  assert (Hclose : word_char ")" = false) by done.
  assert (He : column_entry (name, type +:+ "(" +:+ arg +:+ ")")
               = (name +:+ " ") +:+ "(" +:+ type +:+ "(" +:+ arg +:+ "))").
  { unfold column_entry. cbn [fst snd]. by rewrite !sapp_assoc. }
  assert (Hend : column_entry (name, type +:+ "(" +:+ arg +:+ ")")
                 = (name +:+ " (" +:+ type +:+ "(" +:+ arg +:+ ")") +:+ ")" +:+ "").
  { unfold column_entry. cbn [fst snd]. by rewrite !sapp_assoc. }
  assert (Hstrip : Py.strip (column_entry (name, type +:+ "(" +:+ arg +:+ ")"))
                   = column_entry (name, type +:+ "(" +:+ arg +:+ ")")).
  { destruct (identifier_head name Hn) as (c & r & Ename & Hc).
    eapply (strip_keeps _ c _ ")"); [|done| |done].
    - unfold column_entry. cbn [fst snd]. rewrite Ename. apply sapp_cons.
    - rewrite Hend. by apply last_char_app. }
  assert (Hc : Py.contains ")" (column_entry (name, type +:+ "(" +:+ arg +:+ ")")) = true).
  { rewrite Hend. apply contains_mid. }
  unfold parse_entry. rewrite Hstrip, Hc, He, contains_mid. cbn [andb].
  rewrite (split_prefix "(" "" (name +:+ " ")).
  2:{ rewrite avoids_app. by rewrite (identifier_avoids "(" name Hopen Hn). }
  rewrite (split_prefix "(" "" type); [|by apply identifier_avoids].
  cbn [nth].
  rewrite (split_avoids ")" "" type); [|by apply identifier_avoids].
  cbn [nth].
  by rewrite (strip_identifier_space name Hn), (strip_identifier type Hty).
Qed.

Lemma class_lstrip (q : ascii -> bool) (s : string) :
  Py.all_chars q s = true -> Py.all_chars q (Py.lstrip s) = true.
Proof.
  induction s as [|c s IH]; [done|]. intros H. cbn [Py.lstrip].
  destruct (Py.isspace c); [|done].
  cbn [Py.all_chars] in H. apply andb_prop in H as [_ H]. by apply IH.
Qed.

Lemma class_rstrip (q : ascii -> bool) (s : string) :
  Py.all_chars q s = true -> Py.all_chars q (Py.rstrip s) = true.
Proof.
  induction s as [|c s IH]; [done|]. cbn [Py.all_chars]. intros H.
  apply andb_prop in H as [Hc H]. specialize (IH H). cbn [Py.rstrip].
  destruct (Py.rstrip s) as [|d r].
  - destruct (Py.isspace c); [done|]. cbn [Py.all_chars]. by rewrite Hc.
  - cbn [Py.all_chars] in *. by rewrite Hc, IH.
Qed.

Lemma class_split_sep (q : ascii -> bool) (sep : string) (k : nat) (s : string) :
  Py.all_chars q s = true -> Forall (fun p => Py.all_chars q p = true) (split_sep sep k s).
Proof.
  revert k. induction s as [|c s IH]; intros k H.
  - by repeat constructor.
  - cbn [Py.all_chars] in H. apply andb_prop in H as [Hc H]. cbn [split_sep].
    destruct k as [|k]; [|by apply IH].
    destruct (Py.startswith sep (String c s)).
    + constructor; [done|]. by apply IH.
    + specialize (IH 0%nat H). destruct (split_sep sep 0 s) as [|p ps].
      * repeat constructor. cbn [Py.all_chars]. by rewrite Hc.
      * apply Forall_cons_1 in IH as [Hp Hps]. constructor; [|done].
        cbn [Py.all_chars]. by rewrite Hc, Hp.
Qed.

Lemma parse_block_unquoted (acc : dict (list ColumnInfo)) (block : string) :
  avoids "'" block = true -> parse_block acc block = acc.
Proof.
  intros Hb. unfold parse_block.
  assert (Hs : avoids "'" (Py.strip block) = true).
  { unfold Py.strip. apply class_rstrip. by apply class_lstrip. }
  destruct (Py.strip block) as [|c r]; [done|].
  assert (Hl : avoids "'" (nth 0 (split Py.nl (String c r)) "") = true).
  { pose proof (class_split_sep _ Py.nl 0 _ Hs) as Hf. unfold split.
    destruct (split_sep Py.nl 0 (String c r)) as [|p ps]; [done|].
    by apply Forall_cons_1 in Hf as [Hp _]. }
  cbv zeta. by rewrite (contains_class _ "Table '" _ Hl).
Qed.

(** X24.  No quoted name, no table.  A schema text without a single quote
    is parsed by [get_database_schema] into the empty schema; this is the
    case of both fixed texts of [get_table_info_str], the one for no table
    and the fallback list of table names. *)
Theorem no_quote_no_table (table_info_str : string) :
  Schema.avoids "'" table_info_str = true ->
  Schema.parse_schema table_info_str = [].
Proof.
  intros Hs. unfold parse_schema.
  pose proof (class_split_sep _ (Py.nl +:+ Py.nl) 0 _ Hs) as Hf.
  fold (split (Py.nl +:+ Py.nl) table_info_str) in Hf.
  generalize (@nil (string * list ColumnInfo)).
  induction Hf as [|b blocks Hb _ IH]; intros acc; [done|].
  cbn [fold_left]. by rewrite parse_block_unquoted.
Qed.

Lemma no_quote_no_table_witness :
  Schema.parse_schema
    "Database tables: products, customers, orders, order_items, stores, staffs, categories, brands, stocks"
  = [].
Proof. apply no_quote_no_table. reflexivity. Defined.

End SchemaFacts.

(** *** Types with an argument *)

Section TypedSchemaFacts.
Import Schema.

Lemma entry_avoids (x : ascii) (col : string * string) :
  avoids x " (" = true -> avoids x ")" = true ->
  avoids x (fst col) = true -> avoids x (snd col) = true ->
  avoids x (column_entry col) = true.
Proof.
  intros H1 H2 Hn Ht. unfold column_entry. by rewrite !avoids_app, Hn, Ht, H1, H2.
Qed.

Lemma reads_as_avoids (x : ascii) (col : string * string) (c : ColumnInfo) :
  x = newline \/ x = ","%char \/ x = ":"%char ->
  reads_as col c -> avoids x (column_entry col) = true.
Proof.
  intros Hx (Hn & Hnl & Hcomma & Hcolon & _).
  destruct Hx as [-> | [-> | ->]]; apply entry_avoids; try done;
    by apply identifier_avoids.
Qed.

Lemma split_join_comma (entries : list string) :
  entries <> [] -> Forall (fun e => avoids "," e = true) entries ->
  split ", " (Py.join ", " entries) = entries.
Proof.
  destruct entries as [|e entries]; [done|]. intros _. revert e.
  induction entries as [|e' entries IH]; intros e He.
  - apply Forall_cons_1 in He as [He _]. cbn [Py.join]. by apply split_avoids.
  - apply Forall_cons_1 in He as [He Hes].
    change (Py.join ", " (e :: e' :: entries))
      with (e +:+ ", " +:+ Py.join ", " (e' :: entries)).
    by rewrite (split_prefix "," " " _ _ He), (IH e' Hes).
Qed.

Lemma reads_entries_avoid (x : ascii) (cols : list (string * string)) (out : list ColumnInfo) :
  x = newline \/ x = ","%char \/ x = ":"%char ->
  Forall2 reads_as cols out ->
  Forall (fun e => avoids x e = true) (map column_entry cols).
Proof.
  intros Hx. induction 1 as [|col c cols out Hc _ IH]; [constructor|].
  cbn [map]. constructor; [by apply (reads_as_avoids x col c) | exact IH].
Qed.

Lemma reads_entries (cols : list (string * string)) (out : list ColumnInfo) :
  Forall2 reads_as cols out -> flat_map parse_entry (map column_entry cols) = out.
Proof.
  induction 1 as [|col c cols out (_ & _ & _ & _ & Hc) _ IH]; [done|].
  cbn [map flat_map]. by rewrite Hc, IH.
Qed.

Lemma reads_entries_head (cols : list (string * string)) (out : list ColumnInfo) :
  cols <> [] -> Forall2 reads_as cols out ->
  exists c r, Py.join ", " (map column_entry cols) = String c r /\ Py.isspace c = false.
Proof.
  intros Hne Hr. destruct Hr as [|[n ty] c0 cols out (Hn & _) _]; [done|].
  cbn [fst] in Hn. destruct (identifier_head n Hn) as (c & r & -> & Hsp).
  destruct cols as [|c' cols]; cbn [map Py.join]; unfold column_entry; cbn [fst snd];
    rewrite sapp_cons; eauto.
Qed.

Lemma reads_names_avoid (cols : list (string * string)) (out : list ColumnInfo) :
  Forall2 reads_as cols out ->
  avoids newline ("  Columns: " +:+ Py.join ", " (map fst cols)) = true.
Proof.
  intros Hr. rewrite avoids_app. cbn [andb]. apply avoids_join; [done|].
  induction Hr as [|col c cols out (Hn & _) _ IH]; [constructor|].
  cbn [map]. constructor; [by apply identifier_avoids | exact IH].
Qed.

Lemma reads_detailed_avoids (x : ascii) (cols : list (string * string))
  (out : list ColumnInfo) :
  x = newline \/ x = ":"%char ->
  Forall2 reads_as cols out ->
  avoids x (Py.join ", " (map column_entry cols)) = true.
Proof.
  intros Hx Hr. apply avoids_join.
  - by destruct Hx as [-> | ->].
  - apply (reads_entries_avoid x cols out); [|done]. destruct Hx; auto.
Qed.

Lemma reads_line (cols : list (string * string)) (out : list ColumnInfo) :
  cols <> [] -> Forall2 reads_as cols out ->
  parse_line ("  Detailed: " +:+ Py.join ", " (map column_entry cols)) = out.
Proof.
  intros Hne Hr.
  pose proof (entries_last cols Hne) as Hlast.
  destruct (reads_entries_head cols out Hne Hr) as (c & r & HJ & Hsp).
  assert (Hsplit : split ", " (Py.join ", " (map column_entry cols)) = map column_entry cols).
  { apply split_join_comma; [by destruct cols|].
    apply (reads_entries_avoid "," cols out); auto. }
  assert (Hcolon : avoids ":" (Py.join ", " (map column_entry cols)) = true)
    by (apply (reads_detailed_avoids ":" cols out); auto).
  remember (Py.join ", " (map column_entry cols)) as J eqn:EJ.
  assert (HJne : J <> "") by (by rewrite HJ).
  assert (Hstrip : Py.strip ("  Detailed: " +:+ J) = "Detailed: " +:+ J).
  { unfold Py.strip.
    change (Py.lstrip ("  Detailed: " +:+ J)) with ("Detailed: " +:+ J).
    apply (rstrip_fixed _ ")"); [|done]. by rewrite last_char_app. }
  assert (HstripJ : Py.strip (" " +:+ J) = J).
  { unfold Py.strip. change (Py.lstrip (" " +:+ J)) with (Py.lstrip J).
    rewrite HJ. cbn [Py.lstrip]. rewrite Hsp. rewrite <- HJ.
    by apply (rstrip_fixed _ ")"). }
  unfold parse_line. rewrite Hstrip.
  change (Py.startswith "Detailed:" ("Detailed: " +:+ J)) with true. cbv iota.
  change ("  Detailed: " +:+ J) with ("  " +:+ "Detailed:" +:+ " " +:+ J).
  rewrite (split_prefix "D" "etailed:" "  " (" " +:+ J)); [|done].
  rewrite (split_none "Detailed:" (" " +:+ J)).
  2:{ apply (contains_class (fun c => negb (Ascii.eqb c ":"))); [|done].
      change (avoids ":" (" " +:+ J) = true). by rewrite avoids_app, Hcolon. }
  cbn [nth]. rewrite HstripJ, Hsplit, (reads_entries cols out Hr).
  rewrite HJ. done.
Qed.

(** The block of a table whose entries are read as [out] is read as the
    table with the columns [out], and it stands alone in the text. *)
Lemma reads_block (acc : dict (list ColumnInfo)) (t : string)
  (cols : list (string * string)) (out : list ColumnInfo) :
  identifier t -> cols <> [] -> Forall2 reads_as cols out ->
  parse_block acc (format_table t cols) = dict_set t out acc
  /\ spaced (format_table t cols) = true.
Proof.
  intros Ht Hne Hr.
  pose proof (first_line_avoids t Ht) as H1.
  pose proof (reads_names_avoid cols out Hr) as H2.
  assert (H3 : avoids newline ("  Detailed: " +:+ Py.join ", " (map column_entry cols)) = true).
  { rewrite avoids_app. cbn [andb]. apply (reads_detailed_avoids newline cols out); auto. }
  pose proof (reads_line cols out Hne Hr) as Hd.
  pose proof (parse_line_columns (Py.join ", " (map fst cols))) as Hn.
  pose proof (entries_last cols Hne) as Hlast.
  split.
  - assert (Hstrip : Py.strip (format_table t cols) = format_table t cols).
    { eapply (strip_keeps _ _ _ ")"); [reflexivity|done| |done].
      rewrite format_table_lines. apply last_char_lines.
      rewrite last_char_app; [done|]. intros E. by rewrite E in Hlast. }
    rewrite parse_block_stripped; [|done|done].
    rewrite format_table_lines.
    remember ("  Columns: " +:+ Py.join ", " (map fst cols)) as L2 eqn:E2.
    remember ("  Detailed: " +:+ Py.join ", " (map column_entry cols)) as L3 eqn:E3.
    change Py.nl with (String newline "").
    rewrite (split_prefix newline "" _ _ H1), (split_prefix newline "" _ _ H2),
      (split_avoids newline "" _ H3).
    cbv zeta. cbn [nth tail flat_map].
    assert (Hp : Py.contains "Table '" ("Table '" +:+ t +:+ "':") = true)
      by apply (contains_mid "Table '" "" (t +:+ "':")).
    rewrite Hp.
    assert (Hq : Py.contains "':" ("Table '" +:+ t +:+ "':") = true).
    { assert (E : "Table '" +:+ t +:+ "':" = ("Table '" +:+ t) +:+ "':" +:+ "")
        by (by rewrite sapp_assoc).
      rewrite E. apply contains_mid. }
    rewrite Hq. cbn [andb].
    rewrite Hn, Hd, app_nil_r. cbn [app].
    rewrite (split_here "T" "able '" (t +:+ "':")).
    rewrite (split_none "Table '" (t +:+ "':")).
    2:{ apply (contains_class (fun c => negb (Ascii.eqb c " "))); [|done].
        change (avoids " " (t +:+ "':") = true).
        by rewrite avoids_app, (identifier_avoids " " t). }
    cbn [nth].
    rewrite (split_suffix "'" ":" t); [|by apply identifier_avoids].
    cbn [nth]. destruct Hr; done.
  - rewrite format_table_lines.
    rewrite spaced_line; [|done|by eexists _, _].
    rewrite spaced_line; [|done|by eexists _, _].
    by apply avoids_spaced.
Qed.

Lemma typed_reads_as (col : TypedColumn) :
  typed col -> reads_as (written col) (column_of (bare col)).
Proof.
  destruct col as [[name type] arg]. unfold typed, reads_as, written, bare, type_text.
  cbn [fst snd]. intros (Hn & Hty & Harg).
  split; [done|]. destruct arg as [arg|].
  - assert (Ha : forall x, word_char x = false ->
                 avoids x "(" = true -> avoids x ")" = true ->
                 avoids x (type +:+ "(" +:+ arg +:+ ")") = true).
    { intros x Hx H1 H2.
      by rewrite !avoids_app, (identifier_avoids x type Hx Hty),
        (identifier_avoids x arg Hx Harg), H1, H2. }
    repeat split; try (by apply Ha). by apply parse_entry_argument.
  - repeat split; try (by apply identifier_avoids).
    by apply (parse_entry_column (name, type)).
Qed.

(** X23.  Type parameters are dropped.  For a table whose name, column
    names, type names and type arguments are identifiers, with at least
    one column, the text that [get_table_info_str] writes is read by
    [get_database_schema] as that table with every type bare: a column
    declared [VARCHAR(255)] is shown with the type [VARCHAR]. *)
Theorem type_parameters_are_dropped (table : string) (cols : list Schema.TypedColumn) :
  Schema.identifier table -> cols <> [] -> Forall Schema.typed cols ->
  Schema.parse_schema (Schema.format_table table (map Schema.written cols))
  = [(table, map (fun col => Schema.column_of (Schema.bare col)) cols)].
Proof.
  intros Ht Hne Hcols.
  assert (Hr : Forall2 reads_as (map written cols)
                 (map (fun col => column_of (bare col)) cols)).
  { clear Hne. induction Hcols as [|col cols Hc _ IH]; [constructor|].
    cbn [map]. constructor; [by apply typed_reads_as | exact IH]. }
  assert (Hne' : map written cols <> []) by (by destruct cols).
  destruct (reads_block [] table _ _ Ht Hne' Hr) as [Hblock Hspaced].
  unfold parse_schema.
  rewrite (split_none _ _ (contains_spaced _ Hspaced)).
  cbn [fold_left]. by rewrite Hblock.
Qed.

End TypedSchemaFacts.

Lemma type_parameters_are_dropped_witness :
  Schema.format_table "products"
    (map Schema.written [("title", "VARCHAR", Some "255"); ("price", "REAL", None)])
  = "Table 'products':" +:+ Py.nl +:+ "  Columns: title, price" +:+ Py.nl
    +:+ "  Detailed: title (VARCHAR(255)), price (REAL)"
  /\ Schema.parse_schema
       (Schema.format_table "products"
          (map Schema.written [("title", "VARCHAR", Some "255"); ("price", "REAL", None)]))
     = [("products", [Schema.mkColumnInfo "title" "VARCHAR" true false;
                      Schema.mkColumnInfo "price" "REAL" true false])].
Proof.
  split; [reflexivity|].
  apply (type_parameters_are_dropped "products"
           [("title", "VARCHAR", Some "255"); ("price", "REAL", None)]).
  - by split.
  - done.
  - repeat constructor; done.
Defined.
